(** * The plugin review bot: a shallow embedding and its properties

    The program is a Probot application (JavaScript).  Its strings are
    sequences of UTF-16 code units, its numbers are IEEE doubles that hold
    integers wherever the code counts things.  The embedding keeps both:
    a string is a list of code units, a count is an integer, and the one
    product that is not exact on doubles (the 70 percent budget) is
    computed with the binary64 multiplication of the Standard Library. *)

From Stdlib Require Import String Ascii.
From Stdlib Require Import List NArith ZArith QArith Qround Bool Lia Arith.
From Stdlib Require Import Permutation Sorted.
From Stdlib Require Import Floats.SpecFloat.
From Stdlib Require DecimalNat DecimalFacts.
Import ListNotations.

#[local] Abbreviation length := Datatypes.length.
#[local] Close Scope Q_scope.

(** ** JavaScript strings *)

Module JS.

(** A UTF-16 code unit. *)
Definition char := N.

(** A JavaScript string: its code units, in order. *)
Definition jsstring := list char.

Definition char_eqb (a b : char) : bool := N.eqb a b.

Fixpoint str_eqb (a b : jsstring) : bool :=
  match a, b with
  | [], [] => true
  | x :: a', y :: b' => char_eqb x y && str_eqb a' b'
  | _, _ => false
  end.

(** UTF-8 bytes of a source literal to code points. *)
Fixpoint utf8_decode (bs : list N) : list N :=
  match bs with
  | [] => []
  | b0 :: r =>
    if (b0 <? 128)%N then b0 :: utf8_decode r
    else if (b0 <? 224)%N then
      match r with
      | b1 :: r1 => ((b0 - 192) * 64 + (b1 - 128))%N :: utf8_decode r1
      | _ => []
      end
    else if (b0 <? 240)%N then
      match r with
      | b1 :: b2 :: r2 =>
        ((b0 - 224) * 4096 + (b1 - 128) * 64 + (b2 - 128))%N :: utf8_decode r2
      | _ => []
      end
    else
      match r with
      | b1 :: b2 :: b3 :: r3 =>
        ((b0 - 240) * 262144 + (b1 - 128) * 4096 + (b2 - 128) * 64 + (b3 - 128))%N
          :: utf8_decode r3
      | _ => []
      end
  end.

(** A code point as one code unit, or as a surrogate pair. *)
Definition utf16_units (cp : N) : list char :=
  if (cp <? 65536)%N then [cp]
  else [(55296 + (cp - 65536) / 1024)%N; (56320 + (cp - 65536) mod 1024)%N].

(** The JavaScript string a source literal denotes. *)
Definition lit (s : string) : jsstring :=
  flat_map utf16_units (utf8_decode (List.map N_of_ascii (list_ascii_of_string s))).

Definition QUOTE : char := 39%N.      (* the single quote *)
Definition DQUOTE : char := 34%N.     (* the double quote *)
Definition BACKSLASH : char := 92%N.
Definition HASH : char := 35%N.
Definition NEWLINE : char := 10%N.

(** ECMAScript WhiteSpace and LineTerminator: what trim, trimEnd and the
    regular expression class \s accept. *)
Definition isWhiteSpace (c : char) : bool :=
  ((9 <=? c) && (c <=? 13) || (c =? 32) || (c =? 160) || (c =? 5760)
   || (8192 <=? c) && (c <=? 8202) || (c =? 8232) || (c =? 8233)
   || (c =? 8239) || (c =? 8287) || (c =? 12288) || (c =? 65279))%N.

(** String.prototype.trimEnd *)
Fixpoint trimEnd (s : jsstring) : jsstring :=
  match s with
  | [] => []
  | c :: t =>
    match trimEnd t with
    | [] => if isWhiteSpace c then [] else [c]
    | t' => c :: t'
    end
  end.

(** String.prototype.trimStart *)
Fixpoint trimStart (s : jsstring) : jsstring :=
  match s with
  | [] => []
  | c :: t => if isWhiteSpace c then trimStart t else s
  end.

(** String.prototype.trim *)
Definition trim (s : jsstring) : jsstring := trimEnd (trimStart s).

(** s[i]: the code unit at index i, or undefined. *)
Definition charAt (s : jsstring) (i : nat) : option char := nth_error s i.

(** s.substring(0, i) for an index inside the string. *)
Definition substring0 (s : jsstring) (i : nat) : jsstring := firstn i s.

(** s.startsWith(p) *)
Fixpoint startsWith (p s : jsstring) : bool :=
  match p, s with
  | [], _ => true
  | x :: p', y :: s' => char_eqb x y && startsWith p' s'
  | _ :: _, [] => false
  end.

(** s.includes(p) *)
Fixpoint includes (p s : jsstring) : bool :=
  startsWith p s ||
  match s with
  | [] => false
  | _ :: s' => includes p s'
  end.

(** s.split(sep) for a separator of one code unit. *)
Fixpoint split (sep : char) (s : jsstring) : list jsstring :=
  match s with
  | [] => [[]]
  | c :: t =>
    if char_eqb c sep then [] :: split sep t
    else match split sep t with
         | [] => [[c]]
         | w :: ws => (c :: w) :: ws
         end
  end.

(** parts.join(sep) *)
Fixpoint join (sep : jsstring) (parts : list jsstring) : jsstring :=
  match parts with
  | [] => []
  | [p] => p
  | p :: ps => p ++ sep ++ join sep ps
  end.

End JS.

Import JS.

(** ** Content normalizer *)

Module Normalizer.

(** One iteration of the quote tracking in [removeCommentsFromLine]:
    [char] is [line[i]]; the result is the two flags after the two
    branches on quote characters. *)
Definition track (line : jsstring) (i : nat) (char : char)
    (in_single_quote in_double_quote : bool) : bool * bool :=
  if char_eqb char QUOTE && negb in_double_quote then
    if (i =? 0)%nat
       || negb (match charAt line (i - 1) with
                | Some p => char_eqb p BACKSLASH
                | None => false
                end)
    then (negb in_single_quote, in_double_quote)
    else (in_single_quote, in_double_quote)
  else if char_eqb char DQUOTE && negb in_single_quote then
    if (i =? 0)%nat
       || negb (match charAt line (i - 1) with
                | Some p => char_eqb p BACKSLASH
                | None => false
                end)
    then (in_single_quote, negb in_double_quote)
    else (in_single_quote, in_double_quote)
  else (in_single_quote, in_double_quote).

(** The for loop of [removeCommentsFromLine], from index [i] on; [rest]
    is the part of [line] from [i]. *)
Fixpoint scan (line rest : jsstring) (i : nat)
    (in_single_quote in_double_quote : bool) : jsstring :=
  match rest with
  | [] => line
  | char :: rest' =>
    let '(sq, dq) := track line i char in_single_quote in_double_quote in
    if char_eqb char HASH && negb sq && negb dq
    then trimEnd (substring0 line i)
    else scan line rest' (S i) sq dq
  end.

Definition removeCommentsFromLine (line : jsstring) : jsstring :=
  scan line line 0 false false.

(** *** The normalizer as the specification words it

    Two flags are kept while scanning left to right.  A quote character
    toggles its own flag when the other flag is unset and the previous
    character is not a backslash. *)
Definition spec_toggle (prev : option char) (c : char) (f : bool * bool)
    : bool * bool :=
  let unescaped :=
    match prev with
    | Some p => negb (char_eqb p BACKSLASH)
    | None => true
    end in
  (if char_eqb c QUOTE && negb (snd f) && unescaped then negb (fst f) else fst f,
   if char_eqb c DQUOTE && negb (fst f) && unescaped then negb (snd f) else snd f).

(** Flags after the characters of [s] were scanned, the scan having
    started with flags [f] after a character [prev]. *)
Fixpoint spec_flags (prev : option char) (f : bool * bool) (s : jsstring)
    : bool * bool :=
  match s with
  | [] => f
  | c :: t => spec_flags (Some c) (spec_toggle prev c f) t
  end.

(** Index [i] holds a comment introducer met while both flags are false. *)
Definition comment_at (line : jsstring) (i : nat) : bool :=
  match charAt line i with
  | Some c =>
    char_eqb c HASH &&
    (let f := spec_flags None (false, false) (firstn (S i) line) in
     negb (fst f) && negb (snd f))
  | None => false
  end.

(** The first index below [n] that satisfies [p], searching from [i]. *)
Fixpoint first_index (p : nat -> bool) (i n : nat) : option nat :=
  match n with
  | O => None
  | S n' => if p i then Some i else first_index p (S i) n'
  end.

Definition spec_normalize (line : jsstring) : jsstring :=
  match first_index (comment_at line) 0 (length line) with
  | Some i => trimEnd (firstn i line)
  | None => line
  end.

End Normalizer.

(** ** JavaScript numbers *)

Module Num.

(** binary64 *)
Definition prec : Z := 53.
Definition emax : Z := 1024.

(** The double nearest to an integer. *)
Definition of_Z (z : Z) : spec_float := binary_normalize prec emax z 0 false.

(** The double that the literal 0.7 denotes: 0x3FE6666666666666. *)
Definition LIT_0_7 : spec_float := S754_finite false 6305039478318694 (-53).

(** x * y on doubles. *)
Definition mul (x y : spec_float) : spec_float := SFmul prec emax x y.

(** [n > x] for an integer [n] and a double [x], compared exactly; a
    comparison with NaN is false. *)
Definition gt_Z (n : Z) (x : spec_float) : bool :=
  match x with
  | S754_zero _ => (0 <? n)%Z
  | S754_infinity s => s
  | S754_nan => false
  | S754_finite s m e =>
    let v := if s then Z.neg m else Z.pos m in
    if (0 <=? e)%Z then (v * 2 ^ e <? n)%Z else (v <? n * 2 ^ (- e))%Z
  end.

(** Math.ceil of an exact quotient. *)
Definition ceil (q : Q) : Z := Qceiling q.

End Num.

(** ** File selection planner *)

Module Planner.

Definition MAX_FILES_TO_REVIEW : nat := 15.

(** 0.25; a power of two, so products of a string length with it, and
    their sum with a count, are exact on doubles. *)
Definition TOKEN_ESTIMATION_RATIO : Q := 1 # 4.

(** An entry of the repository tree. *)
Record FileMeta := { path : jsstring; sha : jsstring }.

(** A selected file with its normalized content. *)
Record File := { file_path : jsstring; content : jsstring }.

Section Planner.

(** String.prototype.toLowerCase *)
Variable toLowerCase : jsstring -> jsstring.

(** The two prompt templates of prompts.js. *)
Variables MAIN_FILE_PROMPT REGULAR_FILE_PROMPT : jsstring.

(** octokit.rest.git.getBlob by sha, followed by the decoding of the
    blob; [None] when the call or the decoding throws. *)
Variable getBlob : jsstring -> option jsstring.

Definition isMain (p : jsstring) : bool :=
  includes (lit "main.py") (toLowerCase p).

(** Comments and empty lines are removed from a fetched content. *)
Definition normalizeContent (raw : jsstring) : jsstring :=
  join [NEWLINE]
    (filter (fun line => negb (str_eqb (trim line) []))
       (map Normalizer.removeCommentsFromLine (split NEWLINE raw))).

Definition mainPromptTokens : Z :=
  Num.ceil (inject_Z (Z.of_nat (length MAIN_FILE_PROMPT)) * TOKEN_ESTIMATION_RATIO).

Definition regularPromptTokens : Z :=
  Num.ceil (inject_Z (Z.of_nat (length REGULAR_FILE_PROMPT)) * TOKEN_ESTIMATION_RATIO).

Definition promptTokens (p : jsstring) : Z :=
  if isMain p then mainPromptTokens else regularPromptTokens.

Definition estimatedTokens (p content : jsstring) : Z :=
  Num.ceil
    (inject_Z (Z.of_nat (length content) + Z.of_nat (length p))
       * TOKEN_ESTIMATION_RATIO
     + inject_Z (promptTokens p)).

(** maxInputTokens * 0.7 *)
Definition tokenLimit (maxInputTokens : Z) : spec_float :=
  Num.mul (Num.of_Z maxInputTokens) Num.LIT_0_7.

(** What one iteration of the for loop does to [selected] and
    [totalEstimatedTokens]. *)
Inductive iteration :=
| Break
| Next (selected : list File) (totalEstimatedTokens : Z).

Definition loop_body (maxInputTokens : Z) (fileMeta : FileMeta)
    (selected : list File) (totalEstimatedTokens : Z) : iteration :=
  if (MAX_FILES_TO_REVIEW <=? length selected)%nat then Break
  else
    match getBlob (sha fileMeta) with
    | None => Next selected totalEstimatedTokens
    | Some raw =>
      let content := normalizeContent raw in
      let estimated := estimatedTokens (path fileMeta) content in
      if Num.gt_Z (totalEstimatedTokens + estimated) (tokenLimit maxInputTokens)
      then Break
      else Next (selected ++ [{| file_path := path fileMeta; content := content |}])
                (totalEstimatedTokens + estimated)
    end.

(** The for loop over the remaining files; the result is [selected] and
    [totalEstimatedTokens] when the loop ends. *)
Fixpoint for_of (maxInputTokens : Z) (files : list FileMeta)
    (selected : list File) (totalEstimatedTokens : Z) : list File * Z :=
  match files with
  | [] => (selected, totalEstimatedTokens)
  | fileMeta :: rest =>
    match loop_body maxInputTokens fileMeta selected totalEstimatedTokens with
    | Break => (selected, totalEstimatedTokens)
    | Next selected' total' => for_of maxInputTokens rest selected' total'
    end
  end.

Definition selectAndFetchFilesForReview (files : list FileMeta)
    (maxInputTokens : Z) : list File :=
  fst (for_of maxInputTokens files [] 0%Z).

(** The files whose content could be fetched, in the order of the
    input, as the planner would record them. *)
Definition fetched (files : list FileMeta) : list File :=
  flat_map (fun f =>
              match getBlob (sha f) with
              | Some raw => [{| file_path := path f; content := normalizeContent raw |}]
              | None => []
              end) files.

(** The estimated cost of a selected file. *)
Definition cost (f : File) : Z := estimatedTokens (file_path f) (content f).

End Planner.

(** Lower-casing of the letters A to Z, which is what toLowerCase does
    to a path written in ASCII. *)
Definition asciiLower (s : jsstring) : jsstring :=
  map (fun c => if ((65 <=? c) && (c <=? 90))%N then (c + 32)%N else c) s.

End Planner.

(** ** File prioritizer *)

Module Prioritizer.
Import Planner.

(** Array.prototype.sort with a comparator.  The sort is stable
    (ECMAScript 2019), and for a consistent comparator the stable sorted
    order is unique, whatever algorithm the engine runs; insertion is the
    algorithm written here. *)
Fixpoint insert {A : Type} (compareFn : A -> A -> Z) (x : A) (l : list A)
    : list A :=
  match l with
  | [] => [x]
  | y :: l' =>
    if (compareFn x y <=? 0)%Z then x :: l else y :: insert compareFn x l'
  end.

Fixpoint sort {A : Type} (compareFn : A -> A -> Z) (l : list A) : list A :=
  match l with
  | [] => []
  | x :: l' => insert compareFn x (sort compareFn l')
  end.

Definition SLASH : char := 47%N.

Section Prioritizer.

Variable toLowerCase : jsstring -> jsstring.

(** String.prototype.localeCompare: the sign of the result is what the
    host's collation says of the two strings. *)
Variable localeCompare : jsstring -> jsstring -> Z.

(** The comparator passed to sort. *)
Definition compareFn (a b : FileMeta) : Z :=
  let isAMain := isMain toLowerCase (path a) in
  let isBMain := isMain toLowerCase (path b) in
  if negb (Bool.eqb isAMain isBMain) then (if isAMain then -1 else 1)%Z
  else
    let aDepth := length (split SLASH (path a)) in
    let bDepth := length (split SLASH (path b)) in
    if negb (aDepth =? bDepth)%nat then (Z.of_nat aDepth - Z.of_nat bDepth)%Z
    else localeCompare (path a) (path b).

Definition sortFilesByPriority (files : list FileMeta) : list FileMeta :=
  sort compareFn files.

End Prioritizer.

(** Comparison of two strings code unit by code unit; a collation that
    agrees with localeCompare on lower-case letters and digits. *)
Fixpoint compareUnits (a b : jsstring) : Z :=
  match a, b with
  | [], [] => 0
  | [], _ :: _ => -1
  | _ :: _, [] => 1
  | x :: a', y :: b' =>
    if (x <? y)%N then -1 else if (y <? x)%N then 1 else compareUnits a' b'
  end.

End Prioritizer.

(** ** Batch review and result combiner *)

Module Combiner.
Import Planner.

(** The result objects of reviewFileBatch and combineReviewResults; an
    absent property is [None]. *)
Record ReviewResult := {
  success : bool;
  review : option jsstring;
  error : option jsstring
}.

(** What the completion call gives: an exception, or the content of the
    first choice, which may be null. *)
Inductive Completion :=
| Throws
| Content (c : option jsstring).

(** A template literal prints an absent value as the word undefined. *)
Definition toStr (v : option jsstring) : jsstring :=
  match v with
  | Some s => s
  | None => lit "undefined"
  end.

(** [v || d] for a value that is a string or absent. *)
Definition orElse (v : option jsstring) (d : jsstring) : jsstring :=
  match v with
  | Some (c :: s) => c :: s
  | _ => d
  end.

Fixpoint uint_units (d : Decimal.uint) : jsstring :=
  match d with
  | Decimal.Nil => []
  | Decimal.D0 d => 48%N :: uint_units d
  | Decimal.D1 d => 49%N :: uint_units d
  | Decimal.D2 d => 50%N :: uint_units d
  | Decimal.D3 d => 51%N :: uint_units d
  | Decimal.D4 d => 52%N :: uint_units d
  | Decimal.D5 d => 53%N :: uint_units d
  | Decimal.D6 d => 54%N :: uint_units d
  | Decimal.D7 d => 55%N :: uint_units d
  | Decimal.D8 d => 56%N :: uint_units d
  | Decimal.D9 d => 57%N :: uint_units d
  end.

(** A count printed by a template literal. *)
Definition Number_toString (n : nat) : jsstring := uint_units (Nat.to_uint n).

Definition nl : jsstring := [NEWLINE].

Section Batch.

Variable toLowerCase : jsstring -> jsstring.
Variables MAIN_FILE_PROMPT REGULAR_FILE_PROMPT : jsstring.

(** openai.chat.completions.create for a prompt. *)
Variable create : jsstring -> Completion.

Definition buildBatchPrompt (files : list File) : jsstring :=
  join (nl ++ nl ++ lit "---" ++ nl ++ nl)
    (map (fun file =>
            let promptTemplate :=
              if isMain toLowerCase (file_path file)
              then MAIN_FILE_PROMPT else REGULAR_FILE_PROMPT in
            lit "### " ++ file_path file ++ nl ++ nl ++ lit "```python" ++ nl
              ++ content file ++ nl ++ lit "```" ++ nl ++ nl ++ promptTemplate)
         files).

Definition reviewFileBatch (files : list File) : ReviewResult :=
  match files with
  | [] => {| success := false; review := None;
             error := Some (lit "No files were selected for review.") |}
  | _ :: _ =>
    match create (buildBatchPrompt files) with
    | Content (Some (c :: s)) =>
      {| success := true; review := Some (c :: s); error := None |}
    | Content _ =>
      {| success := false; review := None;
         error := Some (lit "AI returned an empty response.") |}
    | Throws =>
      {| success := false; review := None;
         error := Some (lit "An internal error occurred while calling the AI review service.") |}
    end
  end.

End Batch.

(** The note on a partial review. *)
Definition PARTIAL_NOTE : jsstring :=
  nl ++ lit "*注意：由于项目规模或Token限制，本次仅审核了部分优先文件。以上报告内容由 AI 直接生成。*".

(** The summary before the note. *)
Definition summary_base (totalFileCount : nat) (selectedFiles : list File)
    : jsstring :=
  let selectedFileCount := length selectedFiles in
  (nl ++ nl ++ lit "---" ++ nl ++ nl ++ lit "### 🔍 审核摘要" ++ nl ++ nl)
  ++ (lit "**统计信息**" ++ nl)
  ++ (lit "* **仓库文件总数**: " ++ Number_toString totalFileCount
        ++ lit " 个 Python 文件" ++ nl)
  ++ (lit "* **已选择审核文件**: " ++ Number_toString selectedFileCount
        ++ lit " / " ++ Number_toString totalFileCount ++ nl)
  ++ (lit "**已发送至 AI 审核的文件清单**" ++ nl ++ lit "```" ++ nl
        ++ join nl (map file_path selectedFiles) ++ nl ++ lit "```" ++ nl).

Definition summary (totalFileCount : nat) (selectedFiles : list File)
    : jsstring :=
  summary_base totalFileCount selectedFiles
  ++ (if (length selectedFiles <? totalFileCount)%nat then PARTIAL_NOTE else []).

Definition combineReviewResults (reviewResult : ReviewResult)
    (totalFileCount : nat) (selectedFiles : list File) : ReviewResult :=
  if negb (success reviewResult) then
    {| success := false; review := None;
       error := Some (orElse (error reviewResult)
                        (lit "Code review failed and no specific error was provided.")) |}
  else
    let rawReviewText := toStr (review reviewResult) in
    {| success := true;
       review := Some (rawReviewText ++ summary totalFileCount selectedFiles);
       error := None |}.

(** s.endsWith(p) *)
Definition endsWith (p s : jsstring) : bool := startsWith (rev p) (rev s).

End Combiner.

(** ** Regular expressions

    A backtracking matcher in the order of ECMAScript: the matches of a
    pattern at the start of a string are listed in the order in which the
    engine would try them, so the head of the list is the match that
    RegExp.prototype.exec reports.  Each match is the text it consumed
    and the rest of the string. *)

Module Regex.

Inductive regex :=
| Eps
| Chr (p : char -> bool)
| Seq (a b : regex)
| Alt (a b : regex)
| Star (a : regex)
| LazyStar (a : regex).

(** r? *)
Definition Opt (r : regex) : regex := Alt r Eps.

(** r+ *)
Definition Plus (r : regex) : regex := Seq r (Star r).

(** A literal text. *)
Fixpoint Lit (l : jsstring) : regex :=
  match l with
  | [] => Eps
  | c :: l' => Seq (Chr (char_eqb c)) (Lit l')
  end.

(** A literal text under the flag i, for letters of ASCII. *)
Definition ci_eqb (c x : char) : bool :=
  char_eqb c x
  || (((65 <=? c) && (c <=? 90))%N && char_eqb (c + 32)%N x)
  || (((97 <=? c) && (c <=? 122))%N && char_eqb (c - 32)%N x).

Fixpoint LitI (l : jsstring) : regex :=
  match l with
  | [] => Eps
  | c :: l' => Seq (Chr (ci_eqb c)) (LitI l')
  end.

(** A sequence of patterns. *)
Fixpoint seq (rs : list regex) : regex :=
  match rs with
  | [] => Eps
  | [r] => r
  | r :: rs' => Seq r (seq rs')
  end.

(** \s *)
Definition ws : regex := Chr isWhiteSpace.

(** One of the characters of [l]. *)
Definition oneOf (l : jsstring) : regex := Chr (fun c => existsb (char_eqb c) l).

(** . without the flag s: any unit but a line terminator. *)
Definition dot : regex :=
  Chr (fun c => negb ((c =? 10) || (c =? 13) || (c =? 8232) || (c =? 8233))%N).

(** [\s\S] *)
Definition any : regex := Chr (fun _ => true).

(** The iterations of a starred pattern; an iteration that consumes
    nothing is not tried. *)
Fixpoint star_ends (step : jsstring -> list (jsstring * jsstring)) (fuel : nat) (s : jsstring)
    : list (jsstring * jsstring) :=
  match fuel with
  | O => [([], s)]
  | S n =>
    flat_map (fun '(m1, s1) =>
                if (length s1 <? length s)%nat
                then map (fun '(m2, s2) => (m1 ++ m2, s2)) (star_ends step n s1)
                else [])
             (step s)
    ++ [([], s)]
  end.

Fixpoint lazy_ends (step : jsstring -> list (jsstring * jsstring)) (fuel : nat) (s : jsstring)
    : list (jsstring * jsstring) :=
  match fuel with
  | O => [([], s)]
  | S n =>
    ([], s) ::
    flat_map (fun '(m1, s1) =>
                if (length s1 <? length s)%nat
                then map (fun '(m2, s2) => (m1 ++ m2, s2)) (lazy_ends step n s1)
                else [])
             (step s)
  end.

(** The matches of [r] at the start of [s], in the order of the engine. *)
Fixpoint ends (r : regex) (s : jsstring) : list (jsstring * jsstring) :=
  match r with
  | Eps => [([], s)]
  | Chr p =>
    match s with
    | c :: t => if p c then [([c], t)] else []
    | [] => []
    end
  | Seq a b =>
    flat_map (fun '(m1, s1) => map (fun '(m2, s2) => (m1 ++ m2, s2)) (ends b s1))
             (ends a s)
  | Alt a b => ends a s ++ ends b s
  | Star a => star_ends (ends a) (length s) s
  | LazyStar a => lazy_ends (ends a) (length s) s
  end.

(** The first match at the start of [s]. *)
Definition exec_at (r : regex) (s : jsstring) : option (jsstring * jsstring) :=
  hd_error (ends r s).

(** The first match of /^r$/ : one that consumes the whole string. *)
Definition fullmatch (r : regex) (s : jsstring) : bool :=
  existsb (fun '(_, rest) => match rest with [] => true | _ => false end)
          (ends r s).

(** The first match of (a)m(b) at the start of [s] with the texts of
    the three parts. *)
Definition exec3_at (a m b : regex) (s : jsstring)
    : option (jsstring * jsstring * jsstring * jsstring) :=
  hd_error
    (flat_map (fun '(m1, s1) =>
       flat_map (fun '(m2, s2) =>
         map (fun '(m3, s3) => (m1, m2, m3, s3)) (ends b s2))
         (ends m s1))
       (ends a s)).

(** A way to find a match at the start of a string: what replaces the
    match, and the rest of the string. *)
Definition finder := jsstring -> option (jsstring * jsstring).

(** RegExp.prototype.exec from the start of the string: the text before
    the leftmost match, then what [find] gives there. *)
Fixpoint search (find : finder) (s : jsstring)
    : option (jsstring * jsstring * jsstring) :=
  match find s with
  | Some (m, rest) => Some ([], m, rest)
  | None =>
    match s with
    | [] => None
    | c :: t =>
      match search find t with
      | Some (pre, m, rest) => Some (c :: pre, m, rest)
      | None => None
      end
    end
  end.

(** regexp.test(s) *)
Definition test (r : regex) (s : jsstring) : bool :=
  match search (exec_at r) s with
  | Some _ => true
  | None => false
  end.

(** s.replace(regexp, ...) under the flag g: every match found from
    left to right is replaced; after a match that consumed nothing the
    search goes on one unit further. *)
Fixpoint replace_loop (find : finder) (fuel : nat) (s : jsstring) : jsstring :=
  match fuel with
  | O => s
  | S n =>
    match find s with
    | Some (r, rest) =>
      if (length rest <? length s)%nat then r ++ replace_loop find n rest
      else r ++ match s with
                | [] => []
                | c :: t => c :: replace_loop find n t
                end
    | None =>
      match s with
      | [] => []
      | c :: t => c :: replace_loop find n t
      end
    end
  end.

Definition replace_g (find : finder) (s : jsstring) : jsstring :=
  replace_loop find (S (length s)) s.

(** The number of matches that the same walk finds. *)
Fixpoint count_loop (find : finder) (fuel : nat) (s : jsstring) : nat :=
  match fuel with
  | O => 0
  | S n =>
    match find s with
    | Some (_, rest) =>
      if (length rest <? length s)%nat then S (count_loop find n rest)
      else S (match s with
              | [] => 0
              | _ :: t => count_loop find n t
              end)
    | None =>
      match s with
      | [] => 0
      | _ :: t => count_loop find n t
      end
    end
  end.

Definition count_g (find : finder) (s : jsstring) : nat :=
  count_loop find (S (length s)) s.

(** A pattern replaced by a fixed text. *)
Definition replace_by (r : regex) (by_ : jsstring) : finder :=
  fun s =>
    match exec_at r s with
    | Some (_, rest) => Some (by_, rest)
    | None => None
    end.

End Regex.

(** ** Submission format validator *)

Module Validator.
Import Regex Combiner.

Record Issue := {
  title : jsstring;
  issue_body : option jsstring;    (* null for a ticket with no text *)
  labels : list jsstring           (* the names of the labels *)
}.

(** What JSON.parse returns.  Of a number only its text and whether it
    is zero are kept; an object keeps one entry for each key. *)
#[local] Set Warnings "-register-all".
Inductive JSValue :=
| JNull
| JBool (b : bool)
| JNumber (is_zero : bool) (text : jsstring)
| JString (s : jsstring)
| JArray (items : list JSValue)
| JObject (props : list (jsstring * JSValue)).
#[local] Set Warnings "register-all".

(** ToBoolean; [None] is undefined. *)
Definition truthy (v : option JSValue) : bool :=
  match v with
  | None | Some JNull => false
  | Some (JBool b) => b
  | Some (JNumber z _) => negb z
  | Some (JString s) => negb (str_eqb s [])
  | Some (JArray _) | Some (JObject _) => true
  end.

Fixpoint lookup (key : jsstring) (props : list (jsstring * JSValue))
    : option JSValue :=
  match props with
  | [] => None
  | (k, v) :: rest => if str_eqb k key then Some v else lookup key rest
  end.

(** The message of the TypeError that the conversion of an object to a
    string throws. *)
Definition E_PRIMITIVE : jsstring :=
  lit "Cannot convert object to primitive value".

(** ToString; [None] when it throws that TypeError.  A parsed object
    with a key toString of its own has a toString that cannot be called,
    and no valueOf that gives a primitive value; without that key it is
    printed by Object.prototype.toString.  An array is printed by join,
    which converts each item that is not null. *)
Fixpoint ToString (v : JSValue) : option jsstring :=
  match v with
  | JNull => Some (lit "null")
  | JBool b => Some (if b then lit "true" else lit "false")
  | JNumber _ text => Some text
  | JString s => Some s
  | JArray items =>
    let fix each (l : list JSValue) : option (list jsstring) :=
      match l with
      | [] => Some []
      | x :: rest =>
        match (match x with JNull => Some [] | _ => ToString x end) with
        | Some text =>
          match each rest with
          | Some texts => Some (text :: texts)
          | None => None
          end
        | None => None
        end
      end in
    match each items with
    | Some texts => Some (join (lit ",") texts)
    | None => None
    end
  | JObject props =>
    match lookup (lit "toString") props with
    | Some _ => None
    | None => Some (lit "[object Object]")
    end
  end.

(** The conversion of a value that may be undefined, which is printed by
    its name. *)
Definition ToString_opt (v : option JSValue) : option jsstring :=
  match v with
  | Some x => ToString x
  | None => Some (lit "undefined")
  end.

(** [v.key] for one of the keys name, desc and repo, which no prototype
    defines: [None] when the access throws (on null), [Some None] when it
    gives undefined. *)
Definition get (v : JSValue) (key : jsstring) : option (option JSValue) :=
  match v with
  | JNull => None
  | JObject props => Some (lookup key props)
  | _ => Some None
  end.

(** [v === s] for a string [s]. *)
Definition is_string (v : option JSValue) (s : jsstring) : bool :=
  match v with
  | Some (JString x) => str_eqb x s
  | _ => false
  end.

(** The two properties of a URL that the program reads. *)
Record URL := { hostname : jsstring; pathname : jsstring }.

(** What the validator gives: the message of the error that it throws, the
    errors that it lists, or the parsed block. *)
Inductive FormatResult :=
| FormatThrows (message : jsstring)
| FormatInvalid (errors : list jsstring)
| FormatValid (pluginData : JSValue).

(** The text of [s] before the first [sep]: s.split(sep)[0]. *)
Fixpoint before (sep s : jsstring) : jsstring :=
  match s with
  | [] => []
  | c :: t => if startsWith sep s then [] else c :: before sep t
  end.

(** The title pattern, case-insensitive: the tag, blanks, a plugin name. *)
Definition TITLE : regex := seq [LitI (lit "[Plugin]"); Plus ws; Plus dot].

(** The title of the ticket template, left as it was. *)
Definition TITLE_PLACEHOLDER : regex :=
  seq [LitI (lit "[Plugin]"); Plus ws; LitI (lit "插件名")].

Definition requiredChecks : list jsstring :=
  [ lit "我的插件经过完整的测试";
    lit "我的插件不包含恶意代码";
    lit "我已阅读并同意遵守该项目的 [行为准则](https://docs.github.com/zh/site-policy/github-terms/github-community-code-of-conduct)。" ].

(** The pattern built for a required declaration: a checked box and the
    declaration, letter for letter. *)
Definition checkedDeclaration (check : jsstring) : regex :=
  seq [Chr (char_eqb 45%N); Star ws; Chr (char_eqb 91%N); oneOf (lit "xX");
       Chr (char_eqb 93%N); Plus ws; Lit check].

(** The fenced block tagged json, by its three parts; the second part is
    the captured text. *)
Definition JSON_OPEN : regex := seq [LitI (lit "```json"); Star ws].
Definition JSON_TEXT : regex := LazyStar any.
Definition JSON_CLOSE : regex := seq [Star ws; Lit (lit "```")].

Definition jsonBlock : finder :=
  fun s =>
    match exec3_at JSON_OPEN JSON_TEXT JSON_CLOSE s with
    | Some (_, g1, _, rest) => Some (g1, rest)
    | None => None
    end.

Definition E_TITLE : jsstring :=
  lit "Issue标题格式不正确，应为: `[Plugin] 您的插件名`".

Definition E_CHECK (check : jsstring) : jsstring :=
  lit "必需的声明未勾选: " ++ [DQUOTE] ++ before (lit "](") check ++ [DQUOTE].

Definition E_NO_JSON : jsstring :=
  lit "在Issue内容中未找到JSON代码块。请使用 ```json ... ``` 将插件信息包裹起来。".

Definition E_JSON (message : jsstring) : jsstring :=
  lit "JSON格式错误: " ++ message ++ lit "。请检查语法，如逗号、引号是否正确。".

Definition E_NAME : jsstring := lit "请在JSON中提供一个有效的 `name`。".
Definition E_DESC : jsstring := lit "请在JSON中提供一个有效的 `desc`。".
Definition E_REPO : jsstring := lit "请在JSON中提供 `repo` 仓库地址。".
Definition E_HOST : jsstring := lit "目前仅支持托管在 `github.com` 上的仓库。".

Definition E_URL (repo : jsstring) : jsstring :=
  lit "提供的仓库URL `" ++ repo ++ lit "` 无效。".

Definition when (b : bool) (e : jsstring) : list jsstring :=
  if b then [e] else [].

Section Validator.

(** JSON.parse: the message of the SyntaxError, or the value. *)
Variable JSON_parse : jsstring -> jsstring + JSValue.

(** new URL(text): [None] when it throws. *)
Variable URL_parse : jsstring -> option URL.

(** The errors that the field repo adds; [None] when the conversion of
    the field to a string throws: new URL throws it inside the try, and
    the template literal of the catch throws it again, outside of any
    try. *)
Definition repoErrors (repo : option JSValue) : option (list jsstring) :=
  if negb (truthy repo) then Some [E_REPO]
  else
    match ToString_opt repo with
    | None => None
    | Some text =>
      match URL_parse text with
      | Some url =>
        Some (when (negb (str_eqb (hostname url) (lit "github.com"))) E_HOST)
      | None => Some [E_URL text]
      end
    end.

(** The errors that the three fields of the parsed block add. *)
Definition fieldErrors (name desc repo : option JSValue)
    : option (list jsstring) :=
  match repoErrors repo with
  | None => None
  | Some es =>
    Some (when (negb (truthy name) || is_string name (lit "插件名")) E_NAME
          ++ when (negb (truthy desc) || is_string desc (lit "插件介绍")) E_DESC
          ++ es)
  end.

Definition validateIssueFormat (issue : Issue) : FormatResult :=
  let body := match issue_body issue with Some b => b | None => [] end in
  let errors :=
    when (negb (fullmatch TITLE (title issue))
          || fullmatch TITLE_PLACEHOLDER (title issue)) E_TITLE
    ++ flat_map (fun check =>
                   when (negb (test (checkedDeclaration check) body))
                        (E_CHECK check))
                requiredChecks in
  match search jsonBlock body with
  | None | Some (_, [], _) => FormatInvalid (errors ++ [E_NO_JSON])
  | Some (_, text, _) =>
    match JSON_parse text with
    | inl message => FormatInvalid (errors ++ [E_JSON message])
    | inr pluginData =>
      match get pluginData (lit "name"), get pluginData (lit "desc"),
            get pluginData (lit "repo") with
      | Some name, Some desc, Some repo =>
        match fieldErrors name desc repo with
        | Some added =>
          match errors ++ added with
          | [] => FormatValid pluginData
          | es => FormatInvalid es
          end
        | None => FormatThrows E_PRIMITIVE
        end
      | _, _, _ =>
        FormatThrows (lit "Cannot read properties of null (reading 'name')")
      end
    end
  end.

(** The review of the repository: the error that it throws, or its
    result. *)
Variable performAIReview : jsstring -> jsstring -> jsstring + ReviewResult.

Definition failure (message : jsstring) : ReviewResult :=
  {| success := false; review := None; error := Some message |}.

Definition E_OWNER_REPO : jsstring :=
  lit "Invalid repository URL. Could not parse owner and repo.".

Definition E_FETCH (message : jsstring) : jsstring :=
  lit "An error occurred while fetching or analyzing code: " ++ message.

(** The segments of a path that are not empty. *)
Definition segments (p : jsstring) : list jsstring :=
  filter (fun s => negb (str_eqb s [])) (split 47%N p).

Definition reviewPlugin (pluginData : JSValue) : ReviewResult :=
  match get pluginData (lit "repo") with
  | None =>
    failure (E_FETCH (lit "Cannot read properties of null (reading 'repo')"))
  | Some repo =>
    match ToString_opt repo with
    | None => failure (E_FETCH E_PRIMITIVE)
    | Some text =>
      match URL_parse text with
      | None => failure (E_FETCH (lit "Invalid URL"))
      | Some url =>
        match segments (pathname url) with
        | owner :: repo :: _ =>
          match performAIReview owner repo with
          | inr result => result
          | inl message => failure (E_FETCH message)
          end
        | _ => failure E_OWNER_REPO
        end
      end
    end
  end.

End Validator.

(** new URL(text) for a text of the shape scheme://host/path with the
    scheme http or https, a host in lower case and no port, user, query
    escapes or dot segments. *)
Definition URL_basic (text : jsstring) : option URL :=
  let after_scheme :=
    if startsWith (lit "https://") text then Some (skipn 8 text)
    else if startsWith (lit "http://") text then Some (skipn 7 text)
    else None in
  match after_scheme with
  | None => None
  | Some rest =>
    let stop (l : jsstring) (c : char) := negb (existsb (char_eqb c) l) in
    let fix upto (p : char -> bool) (s : jsstring) : jsstring * jsstring :=
      match s with
      | c :: t => if p c then let '(a, b) := upto p t in (c :: a, b) else ([], s)
      | [] => ([], [])
      end in
    let '(host, tail) := upto (stop (lit "/?#")) rest in
    let '(path, _) := upto (stop (lit "?#")) tail in
    match host with
    | [] => None
    | _ => Some {| hostname := host;
                   pathname := match path with [] => lit "/" | _ => path end |}
    end
  end.

End Validator.

(** ** Review orchestrator *)

Module Orchestrator.
Import Regex Combiner Validator.

(** *** The texts of the status comments *)

Definition STARTED_TITLE : jsstring :=
  lit "## ⏳ 正在审核中...".

Definition STARTED_BODY : jsstring :=
  lit "机器人正在努力审核您的插件代码，这可能需要几分钟时间。请稍候...".

Definition GENERATED_FOOTER : jsstring :=
  lit "*此消息由系统自动生成*".

Definition FORMAT_ERROR_TITLE : jsstring :=
  lit "## ⚠️ 插件提交格式错误".

Definition FORMAT_ERROR_INTRO : jsstring :=
  lit "您好！您的插件提交格式存在问题，无法进行自动审核。请根据以下指南修正：" ++ nl ++ nl.

Definition RETRY_FOOTER : jsstring :=
  lit "*请根据上述问题进行修改。修改完成后，请在 **Issue 正文** 中勾选"
  ++ [DQUOTE] ++ lit "重新提交审核" ++ [DQUOTE]
  ++ lit "复选框以再次触发审核。*" ++ nl ++ nl ++ lit "*此消息由系统自动生成*".

Definition FAILURE_TITLE : jsstring :=
  lit "## ❌ 插件审核失败".

Definition FAILURE_INTRO : jsstring :=
  lit "您好！在对您的插件进行审核时遇到了技术问题：" ++ nl ++ nl ++ lit "```" ++ nl.

Definition UNKNOWN_ERROR : jsstring :=
  lit "未知错误".

Definition FENCE_END : jsstring :=
  nl ++ lit "```".

(** What the edit handler looks for in the last status comment. *)
Definition SUCCESS_MARK : jsstring :=
  lit "## 🤖 AI代码审核报告".

Definition SUCCESS_TITLE : jsstring :=
  SUCCESS_MARK ++ lit " for ".

Definition UNKNOWN_PLUGIN : jsstring :=
  lit "Unknown Plugin".

Definition SUCCESS_INTRO : jsstring :=
  lit "你好！我已经对你提交的插件代码进行了初步自动化审核：" ++ nl ++ nl.

Definition NO_REVIEW : jsstring :=
  lit "无审核内容".

Definition SUCCESS_FOOTER : jsstring :=
  lit "*此报告由AI自动生成，旨在提供初步反馈和改进建议，不能完全替代人工审核。最终决策以社区维护者的人工审核为准。*".

Definition SYSTEM_ERROR_INTRO : jsstring :=
  lit "## ❌ 系统错误" ++ nl ++ nl
  ++ lit "在处理您的插件提交时发生了意外的系统错误：" ++ nl ++ nl ++ lit "```" ++ nl.

Definition SYSTEM_ERROR_OUTRO : jsstring :=
  nl ++ lit "```" ++ nl ++ nl ++ lit "请稍后重试，或联系维护者以获取帮助。"
  ++ nl ++ nl ++ lit "*此消息由系统自动生成*".

(** The label of the re-trigger checkbox. *)
Definition RESUBMIT : jsstring := lit "重新提交审核".

(** The heading of the section that holds the checkbox. *)
Definition OPTIONS : jsstring := lit "审核选项".

(** What is appended to a ticket body that has no section. *)
Definition SECTION_TEXT : jsstring :=
  nl ++ nl ++ lit "## " ++ OPTIONS ++ nl ++ nl ++ lit "- [ ] " ++ RESUBMIT.

(** *** The patterns *)

(** /[-*]\s*\[[xX]\]\s*重新提交审核/ *)
Definition CHECKED_BOX : regex :=
  seq [oneOf (lit "-*"); Star ws; Chr (char_eqb 91%N); oneOf (lit "xX");
       Chr (char_eqb 93%N); Star ws; Lit RESUBMIT].

(** /([-*]\s*\[)[xX](\]\s*重新提交审核)/g, by its three parts. *)
Definition CHECKED_OPEN : regex :=
  seq [oneOf (lit "-*"); Star ws; Chr (char_eqb 91%N)].
Definition CHECKED_MARK : regex := oneOf (lit "xX").
Definition CHECKED_CLOSE : regex :=
  seq [Chr (char_eqb 93%N); Star ws; Lit RESUBMIT].

(** The replacement $1 $2 of that pattern. *)
Definition uncheck_box : finder :=
  fun s =>
    match exec3_at CHECKED_OPEN CHECKED_MARK CHECKED_CLOSE s with
    | Some (g1, _, g2, rest) => Some (g1 ++ lit " " ++ g2, rest)
    | None => None
    end.

(** /##\s*(⏳|⚠️|❌|🤖)/ *)
Definition STATUS_MARKER : regex :=
  seq [Lit (lit "##"); Star ws;
       Alt (Lit (lit "⏳")) (Alt (Lit (lit "⚠️")) (Alt (Lit (lit "❌")) (Lit (lit "🤖"))))].

(** The pattern of the section: line breaks, the heading with its
    marks, blanks, and then, if present, a checkbox with the label, in any
    of its three states, with the blanks around it. *)
Definition reReviewSectionRegex : regex :=
  seq [Star (Chr (char_eqb NEWLINE)); Lit (lit "##"); Star ws; Lit OPTIONS; Star ws;
       Opt (seq [Star (Chr (char_eqb NEWLINE)); Chr (char_eqb 45%N); Star ws;
                 Chr (char_eqb 91%N); oneOf (lit " xX"); Chr (char_eqb 93%N);
                 Star ws; Lit RESUBMIT; Star ws])].

(** *** The ticket, its comments and the calls to the tracker *)

Record Comment := {
  id : Z;
  user_is_bot : bool;          (* comment.user?.type === "Bot" *)
  body : jsstring
}.

Inductive Action := opened | edited.

Inductive CommentType :=
| review_started
| format_error
| review_failure
| review_success.

(** The data that the templates read. *)
Record Data := {
  errors : option (list jsstring);
  error : option jsstring;
  pluginData : option JSValue;
  review : option jsstring
}.

Definition no_data : Data :=
  {| errors := None; error := None; pluginData := None; review := None |}.

(** [data.pluginData?.name || "Unknown Plugin"] as the template literal
    of the title prints it; [None] when the conversion of the name to a
    string throws. *)
Definition plugin_name (data : Data) : option jsstring :=
  match pluginData data with
  | Some pd =>
    match get pd (lit "name") with
    | Some name =>
      if truthy name then ToString_opt name else Some UNKNOWN_PLUGIN
    | None => Some UNKNOWN_PLUGIN
    end
  | None => Some UNKNOWN_PLUGIN
  end.

(** How a call of the program ends: it returns, or it throws an error
    with a message. *)
Inductive Outcome :=
| Returned
| Thrown (message : jsstring).

(** The comment of postSystemErrorComment for an error with [message]. *)
Definition systemErrorBody (message : jsstring) : jsstring :=
  SYSTEM_ERROR_INTRO ++ orElse (Some message) (lit "Unknown error")
  ++ SYSTEM_ERROR_OUTRO.

Inductive Call :=
| issues_update (new_body : jsstring)
| issues_createComment (comment_body : jsstring)
| issues_updateComment (comment_id : Z) (comment_body : jsstring)
| issues_listComments.

(** The tracker: the ticket's text and comments, the id that the next
    created comment gets, and the calls made so far. *)
Record World := {
  ticket_body : option jsstring;
  comments : list Comment;
  next_id : Z;
  log : list Call
}.

Section Orchestrator.

(** Whether a call to the tracker throws, given what happened before. *)
Variable throws : Call -> World -> bool.

(** The validator applied to the ticket of the event, and the review of
    the repository that a valid ticket names. *)
Variable validateIssueFormat : Issue -> FormatResult.
Variable reviewPlugin : JSValue -> ReviewResult.

Definition logged (c : Call) (w : World) : World :=
  {| ticket_body := ticket_body w; comments := comments w;
     next_id := next_id w; log := log w ++ [c] |}.

(** context.octokit.issues.update: [true] when the call returned. *)
Definition update (new_body : jsstring) (w : World) : bool * World :=
  let w' := logged (issues_update new_body) w in
  if throws (issues_update new_body) w then (false, w')
  else (true, {| ticket_body := Some new_body; comments := comments w';
                 next_id := next_id w'; log := log w' |}).

(** context.octokit.issues.createComment: the id of the new comment. *)
Definition createComment (b : jsstring) (w : World) : option Z * World :=
  let w' := logged (issues_createComment b) w in
  if throws (issues_createComment b) w then (None, w')
  else (Some (next_id w),
        {| ticket_body := ticket_body w';
           comments := comments w'
                       ++ [{| id := next_id w; user_is_bot := true; body := b |}];
           next_id := (next_id w + 1)%Z; log := log w' |}).

(** context.octokit.issues.updateComment *)
Definition updateComment (comment_id : Z) (b : jsstring) (w : World)
    : bool * World :=
  let w' := logged (issues_updateComment comment_id b) w in
  if throws (issues_updateComment comment_id b) w then (false, w')
  else (true,
        {| ticket_body := ticket_body w';
           comments :=
             map (fun c => if (id c =? comment_id)%Z
                           then {| id := id c; user_is_bot := user_is_bot c; body := b |}
                           else c)
                 (comments w');
           next_id := next_id w'; log := log w' |}).

Definition findLastReviewComment (w : World) : option Comment * World :=
  let w' := logged issues_listComments w in
  if throws issues_listComments w then (None, w')
  else (find (fun comment => user_is_bot comment && test STATUS_MARKER (body comment))
             (rev (comments w)),
        w').

(** The title, the body and the footer of each template, once the name
    for the title of a report is printed. *)
Definition templates (name : jsstring) (data : Data) (type : CommentType)
    : jsstring * jsstring * jsstring :=
  match type with
  | review_started => (STARTED_TITLE, STARTED_BODY, GENERATED_FOOTER)
  | format_error =>
    (FORMAT_ERROR_TITLE,
     FORMAT_ERROR_INTRO
     ++ join nl (map (fun e => lit "- " ++ e)
                     (match errors data with Some es => es | None => [] end)),
     RETRY_FOOTER)
  | review_failure =>
    (FAILURE_TITLE,
     FAILURE_INTRO ++ orElse (error data) UNKNOWN_ERROR ++ FENCE_END,
     RETRY_FOOTER)
  | review_success =>
    (SUCCESS_TITLE ++ name,
     SUCCESS_INTRO ++ orElse (review data) NO_REVIEW,
     SUCCESS_FOOTER)
  end.

(** The body of the comment for a template; [None] when the four
    templates cannot be built, which are all built before one is chosen:
    the title of the report throws when the name cannot be printed. *)
Definition commentBody (type : CommentType) (data : Data) : option jsstring :=
  match plugin_name data with
  | None => None
  | Some name =>
    let '(t, b, footer) := templates name data type in
    Some (t ++ nl ++ nl ++ b ++ nl ++ nl ++ lit "---" ++ nl ++ nl ++ footer)
  end.

(** [issue.body || ""] *)
Definition body_or_empty (issue : Issue) : jsstring :=
  match issue_body issue with
  | Some b => b
  | None => []
  end.

Definition updateIssueBodyForReviewOptions (issue : Issue)
    (reviewOutcome : CommentType) (w : World) : World :=
  let issueBody := body_or_empty issue in
  let hasReReviewSection := test reReviewSectionRegex issueBody in
  match reviewOutcome with
  | format_error | review_failure =>
    if negb hasReReviewSection
    then snd (update (trim issueBody ++ SECTION_TEXT) w)
    else w
  | review_success =>
    if hasReReviewSection
    then snd (update (trim (replace_g (replace_by reReviewSectionRegex []) issueBody)) w)
    else w
  | review_started => w
  end.

(** A comment id that JavaScript takes for true. *)
Definition truthy_id (commentId : option Z) : bool :=
  match commentId with
  | Some i => negb (i =? 0)%Z
  | None => false
  end.

(** postOrUpdateComment: the message of the error that it throws while
    it builds the templates, before any call to the tracker, or the id
    that it returns. *)
Definition postOrUpdateComment (issue : Issue) (type : CommentType)
    (data : Data) (isUpdate : bool) (commentId : option Z) (w : World)
    : (jsstring + option Z) * World :=
  match commentBody type data with
  | None => (inl E_PRIMITIVE, w)
  | Some b =>
    let '(postedCommentId, w1) :=
      if isUpdate && truthy_id commentId then
        match commentId with
        | Some i => (commentId, snd (updateComment i b w))
        | None => (commentId, w)
        end
      else
        match createComment b w with
        | (Some newId, w') => (Some newId, w')
        | (None, w') => (commentId, w')
        end in
    (inr postedCommentId, updateIssueBodyForReviewOptions issue type w1)
  end.

(** A call of postOrUpdateComment whose result is not used. *)
Definition awaited (posted : (jsstring + option Z) * World) : Outcome * World :=
  match posted with
  | (inl message, w) => (Thrown message, w)
  | (inr _, w) => (Returned, w)
  end.

(** The review cycle: it returns, or an error leaves it: the one of the
    validator, or the one of the templates of a comment. *)
Definition handlePluginReview (issue : Issue) (isUpdate : bool)
    (commentId : option Z) (w : World) : Outcome * World :=
  match postOrUpdateComment issue review_started no_data isUpdate commentId w with
  | (inl message, w1) => (Thrown message, w1)
  | (inr currentCommentId, w1) =>
    match validateIssueFormat issue with
    | FormatThrows message => (Thrown message, w1)
    | FormatInvalid es =>
      awaited (postOrUpdateComment issue format_error
                 {| errors := Some es; error := None; pluginData := None;
                    review := None |}
                 true currentCommentId w1)
    | FormatValid pd =>
      let reviewResult := reviewPlugin pd in
      if Combiner.success reviewResult then
        awaited (postOrUpdateComment issue review_success
                   {| errors := None; error := None; pluginData := Some pd;
                      review := Combiner.review reviewResult |}
                   true currentCommentId w1)
      else
        awaited (postOrUpdateComment issue review_failure
                   {| errors := None; error := Combiner.error reviewResult;
                      pluginData := None; review := None |}
                   true currentCommentId w1)
    end
  end.

Definition postSystemErrorComment (message : jsstring) (w : World) : World :=
  snd (createComment (systemErrorBody message) w).

(** The try and catch around the cycle in the handler. *)
Definition run_review (issue : Issue) (isUpdate : bool) (commentId : option Z)
    (w : World) : World :=
  match handlePluginReview issue isUpdate commentId w with
  | (Returned, w') => w'
  | (Thrown message, w') => postSystemErrorComment message w'
  end.

(** Whether the edit handler returns before it starts a cycle. *)
Definition edit_declined (issue : Issue) (lastReviewComment : option Comment)
    : bool :=
  match lastReviewComment with
  | None => true
  | Some c =>
    includes SUCCESS_MARK (body c)
    || includes STARTED_TITLE (body c)
    || negb (match issue_body issue with
             | Some b => test CHECKED_BOX b
             | None => false
             end)
  end.

(** The handler of issues.opened and issues.edited. *)
Definition on_issue_event (action : Action) (issue : Issue) (w : World) : World :=
  if negb (existsb (str_eqb (lit "plugin-publish")) (labels issue)) then w
  else
    match action with
    | edited =>
      let '(lastReviewComment, w1) := findLastReviewComment w in
      if edit_declined issue lastReviewComment then w1
      else
        match lastReviewComment with
        | None => w1
        | Some c =>
          let updatedBody := replace_g uncheck_box (body_or_empty issue) in
          match update updatedBody w1 with
          | (false, w2) => w2
          | (true, w2) => run_review issue true (Some (id c)) w2
          end
        end
    | opened => run_review issue false None w
    end.

End Orchestrator.

End Orchestrator.

(** ** The configuration *)

Module Config.
Import Combiner.

Definition OPENAI_API_KEY : jsstring := lit "OPENAI_API_KEY".
Definition OPENAI_BASE_URL : jsstring := lit "OPENAI_BASE_URL".
Definition OPENAI_MODEL : jsstring := lit "OPENAI_MODEL".
Definition OPENAI_MAX_INPUT_TOKENS : jsstring := lit "OPENAI_MAX_INPUT_TOKENS".
Definition OPENAI_MAX_OUTPUT_TOKENS : jsstring := lit "OPENAI_MAX_OUTPUT_TOKENS".

Definition REQUIRED_ENV_VARS : list jsstring :=
  [OPENAI_API_KEY; OPENAI_MODEL; OPENAI_MAX_INPUT_TOKENS; OPENAI_MAX_OUTPUT_TOKENS].

(** process.env: the value of a variable, or undefined. *)
Definition Env := jsstring -> option jsstring.

(** A value of the environment that JavaScript takes for true. *)
Definition is_set (v : option jsstring) : bool :=
  match v with
  | Some (_ :: _) => true
  | _ => false
  end.

(** validateEnvironment: the message of the Error that it throws, or
    [None] when it returns. *)
Definition validateEnvironment (env : Env) : option jsstring :=
  let missing := filter (fun key => negb (is_set (env key))) REQUIRED_ENV_VARS in
  match missing with
  | [] => None
  | _ :: _ =>
    Some (lit "Missing required environment variables: "
          ++ join (lit ", ") missing)
  end.

Definition is_digit (c : char) : bool := ((48 <=? c) && (c <=? 57))%N.

(** The value of the longest prefix of [s] made of decimal digits, read
    after the digits that gave [acc]. *)
Fixpoint digits (acc : Z) (s : jsstring) : Z :=
  match s with
  | c :: t =>
    if is_digit c then digits (acc * 10 + (Z.of_N c - 48))%Z t else acc
  | [] => acc
  end.

(** parseInt(s, 10): blanks at the start are skipped, a sign is read,
    then the digits up to the first unit that is not one; [None] is NaN.
    The integer is exact; the Number is that integer up to 2^53. *)
Definition parseInt (s : jsstring) : option Z :=
  let '(sign, s1) :=
    match trimStart s with
    | 45%N :: t => ((-1)%Z, t)
    | 43%N :: t => (1%Z, t)
    | t => (1%Z, t)
    end in
  match s1 with
  | c :: _ => if is_digit c then Some (sign * digits 0 s1)%Z else None
  | [] => None
  end.

(** [n || d] for a Number [n]: NaN and 0 give [d]. *)
Definition orDefault (n : option Z) (d : Z) : Z :=
  match n with
  | Some 0%Z | None => d
  | Some z => z
  end.

Record Config := {
  apiKey : option jsstring;
  baseURL : option jsstring;      (* null when unset or empty *)
  model : option jsstring;
  maxInputTokens : Z;
  maxOutputTokens : Z
}.

Definition getConfig (env : Env) : Config :=
  {| apiKey := env OPENAI_API_KEY;
     baseURL := if is_set (env OPENAI_BASE_URL) then env OPENAI_BASE_URL
                else None;
     model := env OPENAI_MODEL;
     maxInputTokens :=
       orDefault (parseInt (toStr (env OPENAI_MAX_INPUT_TOKENS))) 4000;
     maxOutputTokens :=
       orDefault (parseInt (toStr (env OPENAI_MAX_OUTPUT_TOKENS))) 1500 |}.

End Config.

(** ** The review of a repository *)

Module Pipeline.
Import Planner Prioritizer Combiner Validator Config.

(** An entry of the tree that the tracker returns. *)
Record TreeItem := {
  item_type : jsstring;
  item_path : option jsstring;
  item_sha : option jsstring
}.

(** What repos.get followed by git.getTree gives: the message of the
    error that one of them throws, or the property tree of the response,
    [None] when the response has none. *)
Inductive TreeResponse :=
| TreeThrows (message : jsstring)
| TreeData (tree : option (list TreeItem)).

(** The filter of fetchPythonFileTree: a blob, with a path that ends in
    .py, and with a sha that is not empty. *)
Definition isPythonBlob (item : TreeItem) : bool :=
  str_eqb (item_type item) (lit "blob")
  && match item_path item with
     | Some p => endsWith (lit ".py") p
     | None => false
     end
  && is_set (item_sha item).

(** The path and the sha of an entry, as the planner reads them. *)
Definition meta (item : TreeItem) : FileMeta :=
  {| path := match item_path item with Some p => p | None => [] end;
     sha := match item_sha item with Some s => s | None => [] end |}.

(** fetchPythonFileTree: the error is thrown again. *)
Definition fetchPythonFileTree (response : TreeResponse)
    : jsstring + list FileMeta :=
  match response with
  | TreeThrows message => inl message
  | TreeData None | TreeData (Some []) => inr []
  | TreeData (Some items) => inr (map meta (filter isPythonBlob items))
  end.

Definition E_NO_PYTHON : jsstring :=
  lit "No Python (.py) files found in the repository.".

Definition E_NONE_SELECTED : jsstring :=
  lit "No files were selected for review due to token limits or an empty repository.".

Section Pipeline.

Variable toLowerCase : jsstring -> jsstring.
Variable localeCompare : jsstring -> jsstring -> Z.
Variables MAIN_FILE_PROMPT REGULAR_FILE_PROMPT : jsstring.

(** The environment of the process, and the tracker and the completion
    service as they answer: the tree of a repository, a blob of it by its
    sha, the completion for a prompt. *)
Variable env : Env.
Variable getTree : jsstring -> jsstring -> TreeResponse.
Variable getBlob : jsstring -> jsstring -> jsstring -> option jsstring.
Variable create : jsstring -> Completion.

(** The call of the completion service inside the try of
    reviewFileBatch: reading config.model.includes throws there when the
    model is undefined. *)
Definition complete (config : Config) (prompt : jsstring) : Completion :=
  match model config with
  | Some _ => create prompt
  | None => Throws
  end.

(** performAIReview for the repository [repo] of [owner]: the message
    of the error that leaves it, or its result.  The client of the
    completion service is taken to be constructed without an error. *)
Definition performAIReview (owner repo : jsstring) : jsstring + ReviewResult :=
  let config := getConfig env in
  match fetchPythonFileTree (getTree owner repo) with
  | inl message => inl message
  | inr [] => inr (failure E_NO_PYTHON)
  | inr allPythonFiles =>
    let sortedFiles := sortFilesByPriority toLowerCase localeCompare allPythonFiles in
    let selectedFiles :=
      selectAndFetchFilesForReview toLowerCase MAIN_FILE_PROMPT
        REGULAR_FILE_PROMPT (getBlob owner repo) sortedFiles
        (maxInputTokens config) in
    match selectedFiles with
    | [] => inr (failure E_NONE_SELECTED)
    | _ :: _ =>
      inr (combineReviewResults
             (reviewFileBatch toLowerCase MAIN_FILE_PROMPT REGULAR_FILE_PROMPT
                (complete config) selectedFiles)
             (length allPythonFiles) selectedFiles)
    end
  end.

(** reviewPlugin with the review above. *)
Variable URL_parse : jsstring -> option URL.

Definition review_plugin (pluginData : JSValue) : ReviewResult :=
  reviewPlugin URL_parse performAIReview pluginData.

End Pipeline.

End Pipeline.

(** * The vocabulary of the properties *)

(** ** Content normalizer *)

Module NormalizerDefs.
Import Normalizer.

(** The character before the end of [s], or [prev] when [s] is empty. *)
Definition last_or (prev : option char) (s : jsstring) : option char :=
  match s with
  | [] => prev
  | c :: t => Some (last t c)
  end.

(** The line of the specification's example. *)
Definition example_line : jsstring :=
  lit "x = " ++ [DQUOTE] ++ lit "a#b" ++ [DQUOTE] ++ lit "  # trailing".

Definition example_result : jsstring :=
  lit "x = " ++ [DQUOTE] ++ lit "a#b" ++ [DQUOTE].

End NormalizerDefs.

(** ** File selection planner *)

Module PlannerDefs.
Import Planner.

Section Selection.

Variable toLowerCase : jsstring -> jsstring.
Variables MAIN_FILE_PROMPT REGULAR_FILE_PROMPT : jsstring.
Variable maxInputTokens : Z.

(** The budget check of the loop fails for [f] once [total] is consumed. *)
Definition over_budget (total : Z) (f : FileMeta) (raw : jsstring) : bool :=
  Num.gt_Z
    (total + estimatedTokens toLowerCase MAIN_FILE_PROMPT REGULAR_FILE_PROMPT
               (path f) (normalizeContent raw))
    (tokenLimit maxInputTokens).

(** The estimated costs of the selected files, added up. *)
Definition sum_costs (sel : list File) : Z :=
  fold_right
    (fun f acc =>
       (cost toLowerCase MAIN_FILE_PROMPT REGULAR_FILE_PROMPT f + acc)%Z)
    0%Z sel.

(** What holds of [selected] and [totalEstimatedTokens] at the head of
    every iteration. *)
Definition budget_inv (sel : list File) (tot : Z) : Prop :=
  tot = sum_costs sel /\
  (length sel <= MAX_FILES_TO_REVIEW)%nat /\
  ((sel = [] /\ tot = 0%Z) \/ Num.gt_Z tot (tokenLimit maxInputTokens) = false).

End Selection.

(** A run on three files, the second of which cannot be fetched. *)
Definition example_getBlob (file_sha : jsstring) : option jsstring :=
  if str_eqb file_sha (lit "bad") then None
  else Some (lit "x = 1 # one") .

Definition example_files : list FileMeta :=
  [ {| path := lit "main.py"; sha := lit "a" |};
    {| path := lit "b.py"; sha := lit "bad" |};
    {| path := lit "pkg/c.py"; sha := lit "c" |} ].

End PlannerDefs.

(** ** File prioritizer *)

Module PrioritizerDefs.
Import Planner Prioritizer.

(** A tree of four files. *)
Definition example_tree : list FileMeta :=
  [ {| path := lit "pkg/util.py"; sha := lit "1" |};
    {| path := lit "b.py"; sha := lit "2" |};
    {| path := lit "pkg/main.py"; sha := lit "3" |};
    {| path := lit "a.py"; sha := lit "4" |} ].

End PrioritizerDefs.

(** ** Batch review and result combiner *)

Module CombinerDefs.
Import Planner Combiner.



End CombinerDefs.

(** ** Regular expressions

    Patterns built from classes and texts match in one way at most; the
    functions below compute that way. *)

Module RegexDefs.
Import Regex.

(** The longest prefix of [s] in the class [p], and what follows it. *)
Fixpoint takeWhile (p : char -> bool) (s : jsstring) : jsstring :=
  match s with
  | c :: t => if p c then c :: takeWhile p t else []
  | [] => []
  end.

Fixpoint dropWhile (p : char -> bool) (s : jsstring) : jsstring :=
  match s with
  | c :: t => if p c then dropWhile p t else s
  | [] => []
  end.

(** A match that comes after the text [m]. *)
Definition prepend (m : jsstring) : jsstring * jsstring -> jsstring * jsstring :=
  fun '(m2, s2) => (m ++ m2, s2).

(** All the ways in which a starred class matches, the longest first. *)
Fixpoint star_list (p : char -> bool) (s : jsstring) : list (jsstring * jsstring) :=
  match s with
  | c :: t =>
    if p c then map (prepend [c]) (star_list p t) ++ [([], s)] else [([], s)]
  | [] => [([], [])]
  end.

(** The pattern [r] matches in one way at most, which [f] computes. *)
Definition det (r : regex) (f : jsstring -> option (jsstring * jsstring)) : Prop :=
  forall s, ends r s = match f s with Some x => [x] | None => [] end.

(** The one way of a sequence, of a class, of a starred class followed
    by a pattern that cannot start in the class, and of a text. *)
Definition then_ (f g : jsstring -> option (jsstring * jsstring)) (s : jsstring)
    : option (jsstring * jsstring) :=
  match f s with
  | Some (m1, s1) =>
    match g s1 with
    | Some (m2, s2) => Some (m1 ++ m2, s2)
    | None => None
    end
  | None => None
  end.

Definition one (p : char -> bool) (s : jsstring) : option (jsstring * jsstring) :=
  match s with
  | c :: t => if p c then Some ([c], t) else None
  | [] => None
  end.

Definition many (p : char -> bool) (g : jsstring -> option (jsstring * jsstring))
    (s : jsstring) : option (jsstring * jsstring) :=
  match g (dropWhile p s) with
  | Some (m, e) => Some (takeWhile p s ++ m, e)
  | None => None
  end.

Definition text (l : jsstring) (s : jsstring) : option (jsstring * jsstring) :=
  if startsWith l s then Some (l, skipn (length l) s) else None.

(** The pattern [r] matches at the start of every string. *)
Definition total (r : regex) : Prop := forall s, ends r s <> [].

End RegexDefs.

(** ** The checked box *)

Module CheckboxDefs.
Import Regex Combiner Orchestrator RegexDefs.

(** The classes of the pattern: the bullet, the mark, the brackets. *)
Definition isC (c : char) : bool := existsb (char_eqb c) (lit "-*").

Definition isX (c : char) : bool := existsb (char_eqb c) (lit "xX").

Definition LB : char -> bool := char_eqb 91%N.

Definition RB : char -> bool := char_eqb 93%N.

(** The tail of the pattern after the first blanks. *)
Definition box (s : jsstring) : option (jsstring * jsstring) :=
  then_ (one LB) (then_ (one isX) (then_ (one RB)
    (many isWhiteSpace (text RESUBMIT)))) s.

(** The one way in which the pattern of a checked box matches. *)
Definition checked (s : jsstring) : option (jsstring * jsstring) :=
  then_ (one isC) (many isWhiteSpace box) s.

(** What replaces a checked box at the start of [s], and what follows
    the box. *)
Definition parse (s : jsstring) : option (jsstring * jsstring) :=
  match s with
  | c :: t =>
    if isC c then
      match dropWhile isWhiteSpace t with
      | b :: x :: d :: t4 =>
        if LB b && isX x && RB d
           && startsWith RESUBMIT (dropWhile isWhiteSpace t4)
        then Some (c :: takeWhile isWhiteSpace t ++ [b; 32%N; d]
                     ++ takeWhile isWhiteSpace t4 ++ RESUBMIT,
                   skipn (length RESUBMIT) (dropWhile isWhiteSpace t4))
        else None
      | _ => None
      end
    else None
  | [] => None
  end.

(** A checked box starts [s]. *)
Definition hit (s : jsstring) : bool :=
  match parse s with Some _ => true | None => false end.

(** The ticket body with every checked box unchecked. *)
Definition unchecked (s : jsstring) : jsstring := replace_g uncheck_box s.

(** The part of the pattern after the first blanks, as a test. *)
Definition boxb (u : jsstring) : bool :=
  match u with
  | b :: x :: d :: t4 =>
    LB b && isX x && RB d && startsWith RESUBMIT (dropWhile isWhiteSpace t4)
  | _ => false
  end.

End CheckboxDefs.

(** ** The section of the review options *)

Module SectionDefs.
Import Regex Combiner Orchestrator RegexDefs.

(** The line break and the two marks of a heading. *)
Definition isNL : char -> bool := char_eqb NEWLINE.

Definition HASHES : jsstring := lit "##".

(** The part of the section pattern that must be there: line breaks,
    the two marks, blanks, the heading. *)
Definition heading (s : jsstring) : bool :=
  startsWith HASHES (dropWhile isNL s)
  && startsWith OPTIONS
       (dropWhile isWhiteSpace (skipn 2 (dropWhile isNL s))).

(** A text that is not empty and does not end with a blank. *)
Fixpoint solid (t : jsstring) : bool :=
  match t with
  | [] => false
  | [z] => negb (isWhiteSpace z)
  | _ :: t' => solid t'
  end.

(** A text that is empty or starts with a blank. *)
Definition blank (x : jsstring) : Prop :=
  match x with
  | [] => True
  | c :: _ => isWhiteSpace c = true
  end.

(** A text that is empty or does not start with a blank. *)
Definition no_lead (v : jsstring) : Prop :=
  match v with
  | [] => True
  | c :: _ => isWhiteSpace c = false
  end.

(** The section pattern replaced by the empty text. *)
Definition drop_section : finder := replace_by reReviewSectionRegex [].

(** The section with its box in one of the three states. *)
Definition section_with (mark : char) : jsstring :=
  nl ++ nl ++ lit "## " ++ OPTIONS ++ nl ++ nl ++ lit "- [" ++ [mark]
  ++ lit "] " ++ RESUBMIT.

(** The box is empty or checked with x or X. *)
Definition is_mark (mark : char) : Prop :=
  mark = 32%N \/ mark = 120%N \/ mark = 88%N.

End SectionDefs.

(** ** Submission format validator *)

Module ValidatorDefs.
Import Regex Combiner Validator.

(** A text between double quotes. *)
Definition quoted (s : string) : jsstring := [DQUOTE] ++ lit s ++ [DQUOTE].

(** The text of a block with the three fields, and what JSON.parse
    returns for it. *)
Definition json_text (repo : string) : jsstring :=
  lit "{" ++ quoted "name" ++ lit ":" ++ quoted "Foo" ++ lit ","
  ++ quoted "desc" ++ lit ":" ++ quoted "A plugin" ++ lit ","
  ++ quoted "repo" ++ lit ":" ++ quoted repo ++ lit "}".

Definition json_value (repo : string) : JSValue :=
  JObject [ (lit "name", JString (lit "Foo"));
            (lit "desc", JString (lit "A plugin"));
            (lit "repo", JString (lit repo)) ].

(** A value that cannot be printed: an object with a key toString, and
    its text. *)
Definition unprintable : JSValue :=
  JObject [(lit "toString", JNumber true (lit "0"))].

Definition unprintable_text : jsstring :=
  lit "{" ++ quoted "toString" ++ lit ":0}".

(** The block of a plugin whose name cannot be printed, and the block of
    one whose repo cannot. *)
Definition odd_name_text : jsstring :=
  lit "{" ++ quoted "name" ++ lit ":" ++ unprintable_text ++ lit ","
  ++ quoted "desc" ++ lit ":" ++ quoted "A plugin" ++ lit ","
  ++ quoted "repo" ++ lit ":" ++ quoted "https://github.com/acme/foo"
  ++ lit "}".

Definition odd_name_value : JSValue :=
  JObject [ (lit "name", unprintable);
            (lit "desc", JString (lit "A plugin"));
            (lit "repo", JString (lit "https://github.com/acme/foo")) ].

Definition odd_repo_text : jsstring :=
  lit "{" ++ quoted "name" ++ lit ":" ++ quoted "Foo" ++ lit ","
  ++ quoted "desc" ++ lit ":" ++ quoted "A plugin" ++ lit ","
  ++ quoted "repo" ++ lit ":" ++ unprintable_text ++ lit "}".

Definition odd_repo_value : JSValue :=
  JObject [ (lit "name", JString (lit "Foo"));
            (lit "desc", JString (lit "A plugin"));
            (lit "repo", unprintable) ].

(** JSON.parse on the texts of the examples. *)
Definition example_JSON_parse (text : jsstring) : jsstring + JSValue :=
  if str_eqb text (json_text "https://github.com/acme/foo")
  then inr (json_value "https://github.com/acme/foo")
  else if str_eqb text (json_text "https://github.com/acme")
  then inr (json_value "https://github.com/acme")
  else if str_eqb text (lit "null")
  then inr JNull
  else if str_eqb text odd_name_text
  then inr odd_name_value
  else if str_eqb text odd_repo_text
  then inr odd_repo_value
  else inl (lit "Unexpected token").

(** The text of a ticket with the block and the three declarations
    checked, and the ticket with that text and a valid title. *)
Definition submission_text (repo : string) : jsstring :=
  lit "### Plugin" ++ nl ++ nl ++ lit "```json" ++ nl
  ++ json_text repo ++ nl ++ lit "```" ++ nl ++ nl
  ++ flat_map (fun c => lit "- [x] " ++ c ++ nl) requiredChecks.

Definition submission (repo : string) : Issue :=
  {| title := lit "[Plugin] Foo";
     issue_body := Some (submission_text repo);
     labels := [lit "plugin-publish"] |}.

(** The text of a ticket with the block [block] and the three
    declarations checked. *)
Definition ticket_text (block : jsstring) : jsstring :=
  lit "### Plugin" ++ nl ++ nl ++ lit "```json" ++ nl
  ++ block ++ nl ++ lit "```" ++ nl ++ nl
  ++ flat_map (fun c => lit "- [x] " ++ c ++ nl) requiredChecks.

(** A repository reader that reports the owner and the repository that
    it was given. *)
Definition reader (owner repo : jsstring) : jsstring + ReviewResult :=
  inr {| success := true; review := Some (owner ++ lit "/" ++ repo);
         error := None |}.

End ValidatorDefs.

(** ** Review orchestrator *)

Module OrchestratorDefs.
Import Regex Combiner Validator Orchestrator RegexDefs CheckboxDefs SectionDefs
  ValidatorDefs.

(** An edit that is not acted upon leaves the tracker as it was, but for
    the record of the listing of the comments. *)
Definition untouched (w w' : World) : Prop :=
  w' = w \/ w' = logged issues_listComments w.

(** A write of the ticket body. *)
Definition is_update (call : Call) : Prop :=
  match call with
  | issues_update _ => True
  | _ => False
  end.

Section Cycle.

Variable validateIssueFormat : Issue -> FormatResult.
Variable reviewPlugin : JSValue -> ReviewResult.

(** The data of the status comment of each outcome. *)
Definition format_error_data (es : list jsstring) : Data :=
  {| errors := Some es; error := None; pluginData := None; review := None |}.

Definition report_data (pd : JSValue) : Data :=
  {| errors := None; error := None; pluginData := Some pd;
     review := Combiner.review (reviewPlugin pd) |}.

Definition failure_data (pd : JSValue) : Data :=
  {| errors := None; error := Combiner.error (reviewPlugin pd);
     pluginData := None; review := None |}.

(** The message of the error that leaves the cycle on a ticket, when
    one does: the error of the validator, or, for a valid ticket whose
    review succeeds, the error of the title of the report. *)
Definition cycle_error (issue : Issue) : option jsstring :=
  match validateIssueFormat issue with
  | FormatThrows message => Some message
  | FormatInvalid _ => None
  | FormatValid pd =>
    if Combiner.success (reviewPlugin pd) then
      match commentBody review_success (report_data pd) with
      | Some _ => None
      | None => Some E_PRIMITIVE
      end
    else None
  end.

(** How the cycle on a ticket ends: with one of the status comments and
    its data, or with an error. *)
Definition cycle_end (issue : Issue) : option (CommentType * Data) :=
  match validateIssueFormat issue with
  | FormatThrows _ => None
  | FormatInvalid es => Some (format_error, format_error_data es)
  | FormatValid pd =>
    if Combiner.success (reviewPlugin pd) then
      match commentBody review_success (report_data pd) with
      | Some _ => Some (review_success, report_data pd)
      | None => None
      end
    else Some (review_failure, failure_data pd)
  end.

Definition cycle_outcome (issue : Issue) : option CommentType :=
  option_map fst (cycle_end issue).

(** The calls of a cycle that updates the comment [i] in place: writes
    of the ticket body, updates of that comment, and the comment on a
    system error when an error leaves the cycle. *)
Definition in_place (issue : Issue) (i : Z) (call : Call) : Prop :=
  match call with
  | issues_update _ => True
  | issues_updateComment j _ => j = i
  | issues_createComment b =>
    exists message,
      cycle_error issue = Some message /\ b = systemErrorBody message
  | issues_listComments => False
  end.

End Cycle.

(** *** Concrete runs *)

(** A tracker whose calls all return, and stand-ins for the validator and
    the review. *)
Definition never_throws : Call -> World -> bool := fun _ _ => false.


Definition always_valid (issue : Issue) : FormatResult :=
  FormatValid (JObject [(lit "name", JString (lit "Foo"))]).

Definition review_ok (pd : JSValue) : ReviewResult :=
  Build_ReviewResult true (Some (lit "fine")) None.

(** A labelled ticket with the text [b], and a tracker that holds it
    with the comments [cs]. *)
Definition ticket (b : jsstring) : Issue :=
  {| title := lit "[Plugin] Foo"; issue_body := Some b;
     labels := [lit "plugin-publish"] |}.

Definition tracker (b : jsstring) (cs : list Comment) : World :=
  {| ticket_body := Some b; comments := cs; next_id := 100%Z; log := [] |}.

(** The text of a status comment whose templates are built. *)
Definition status_text (type : CommentType) (data : Data) : jsstring :=
  match commentBody type data with
  | Some b => b
  | None => []
  end.




(** A ticket text with the section and its box checked. *)
Definition checked_body : jsstring := lit "text" ++ section_with 120%N.

(** A ticket text with two sections, and a valid submission that ends
    with a heading written inside itself. *)
Definition two_sections : jsstring := lit "x" ++ SECTION_TEXT ++ SECTION_TEXT.

Definition nested_heading : jsstring :=
  submission_text "https://github.com/acme/foo" ++ lit "## ## 审核选项审核选项".

Definition nested_heading_left : jsstring :=
  submission_text "https://github.com/acme/foo" ++ lit "## 审核选项".

(** The review of the repository with the URL parser of the examples and
    a reader that reports what it was given. *)
Definition review : JSValue -> ReviewResult :=
  Validator.reviewPlugin URL_basic reader.

(** The title of the last comment of a tracker is [t]. *)
Definition last_title (t : jsstring) (w : World) : bool :=
  match rev (comments w) with
  | c :: _ => startsWith t (body c)
  | [] => false
  end.

(** The validator with the JSON.parse and the URL parser of the
    examples. *)
Definition validate : Issue -> FormatResult :=
  Validator.validateIssueFormat example_JSON_parse URL_basic.



(** A ticket text with a section, whose block holds a name that cannot
    be printed. *)
Definition odd_name_body : jsstring :=
  ticket_text odd_name_text ++ SECTION_TEXT.



End OrchestratorDefs.


(** ** Events and comments *)

Module EventDefs.
Import Regex Combiner Validator Orchestrator RegexDefs CheckboxDefs.

(** A comment of a bot with one of the status marks: what
    findLastReviewComment looks for. *)
Definition marked (c : Comment) : bool :=
  user_is_bot c && test STATUS_MARKER (body c).

(** A call that posts a new comment. *)
Definition is_create (call : Call) : bool :=
  match call with
  | issues_createComment _ => true
  | _ => false
  end.

(** A call that is neither the update of a comment nor the listing of
    the comments. *)
Definition no_comment_update (call : Call) : Prop :=
  match call with
  | issues_updateComment _ _ | issues_listComments => False
  | _ => True
  end.

(** Two texts that differ at check marks only: where they differ, the
    first has x or X and the second a space. *)
Definition marks_only (s s' : jsstring) : Prop :=
  Forall2 (fun a b => a = b \/ (isX a = true /\ b = 32%N)) s s'.

End EventDefs.

(** ** The review of a repository *)

Module PipelineDefs.
Import Planner Prioritizer Combiner Validator Config Pipeline PlannerDefs
  ValidatorDefs.

(** The template that buildBatchPrompt attaches to a file, and the
    units that a file takes in the prompt: its path, its content, its
    template and the 22 units of the heading and the fences. *)
Definition template (toLowerCase : jsstring -> jsstring)
    (MAIN_FILE_PROMPT REGULAR_FILE_PROMPT p : jsstring) : jsstring :=
  if isMain toLowerCase p then MAIN_FILE_PROMPT else REGULAR_FILE_PROMPT.

Definition block_units (toLowerCase : jsstring -> jsstring)
    (MAIN_FILE_PROMPT REGULAR_FILE_PROMPT : jsstring) (f : File) : nat :=
  length (file_path f) + length (content f)
  + length (template toLowerCase MAIN_FILE_PROMPT REGULAR_FILE_PROMPT
              (file_path f))
  + 22.

(** The messages of the failures of a review. *)
Definition E_EMPTY_RESPONSE : jsstring := lit "AI returned an empty response.".

Definition E_SERVICE : jsstring :=
  lit "An internal error occurred while calling the AI review service.".

(** A repository with the three files of the planner's example and a
    directory, an environment with the four required variables, and a
    completion service that answers every prompt with the same text. *)
Definition example_tree_response (owner repo : jsstring) : TreeResponse :=
  TreeData (Some
    [ {| item_type := lit "tree"; item_path := Some (lit "pkg");
         item_sha := Some (lit "t") |};
      {| item_type := lit "blob"; item_path := Some (lit "pkg/c.py");
         item_sha := Some (lit "c") |};
      {| item_type := lit "blob"; item_path := Some (lit "README.md");
         item_sha := Some (lit "r") |};
      {| item_type := lit "blob"; item_path := Some (lit "b.py");
         item_sha := Some (lit "bad") |};
      {| item_type := lit "blob"; item_path := Some (lit "main.py");
         item_sha := Some (lit "a") |} ]).

Definition example_env (key : jsstring) : option jsstring :=
  if str_eqb key OPENAI_API_KEY then Some (lit "sk-test")
  else if str_eqb key OPENAI_MODEL then Some (lit "gpt")
  else if str_eqb key OPENAI_MAX_INPUT_TOKENS then Some (lit "4000")
  else if str_eqb key OPENAI_MAX_OUTPUT_TOKENS then Some (lit "1500")
  else None.

(** The same environment with a negative maximum of input tokens. *)
Definition negative_env (key : jsstring) : option jsstring :=
  if str_eqb key OPENAI_MAX_INPUT_TOKENS then Some (lit "-5")
  else example_env key.

Definition example_create (prompt : jsstring) : Completion :=
  Content (Some (lit "fine")).

Definition example_review : jsstring -> jsstring -> jsstring + ReviewResult :=
  performAIReview asciiLower compareUnits (lit "0123456789") (lit "01234")
    example_env example_tree_response (fun owner repo => example_getBlob)
    example_create.

(** The result of that review: two of the three Python files are read,
    and the answer of the service is followed by the summary. *)
Definition example_result : ReviewResult :=
  {| success := true;
     review :=
       Some (lit "fine"
             ++ summary 3
                  [ {| file_path := lit "main.py"; content := lit "x = 1" |};
                    {| file_path := lit "pkg/c.py"; content := lit "x = 1" |} ]);
     error := None |}.

End PipelineDefs.

(** * Properties *)

(** ** Facts on strings *)

Module JSFacts.

Lemma Some_eq {A} (x y : A) : Some x = Some y -> x = y.
Proof. congruence. Qed.

Lemma char_eqb_eq (a b : char) : char_eqb a b = true <-> a = b.
Proof. unfold char_eqb. apply N.eqb_eq. Qed.

Lemma char_eqb_refl (a : char) : char_eqb a a = true.
Proof. apply char_eqb_eq. reflexivity. Qed.

Lemma str_eqb_eq (a b : jsstring) : str_eqb a b = true <-> a = b.
Proof.
  revert b. induction a as [|x a IH]; intros [|y b]; simpl;
    try (split; [discriminate | discriminate]); try tauto.
  rewrite andb_true_iff, char_eqb_eq, IH. split.
  - intros [-> ->]. reflexivity.
  - intros H. injection H as -> ->. tauto.
Qed.

Lemma trimEnd_prefix (s : jsstring) : exists w, s = trimEnd s ++ w.
Proof.
  induction s as [|c t [w Hw]]; simpl.
  - exists []. reflexivity.
  - destruct (trimEnd t) as [|d t'] eqn:E.
    + destruct (isWhiteSpace c).
      * exists (c :: t). reflexivity.
      * exists t. reflexivity.
    + exists w. simpl. f_equal. exact Hw.
Qed.

Lemma trimEnd_length (s : jsstring) : length (trimEnd s) <= length s.
Proof.
  destruct (trimEnd_prefix s) as [w Hw].
  rewrite Hw at 2. rewrite length_app. lia.
Qed.

Lemma trimEnd_idem (s : jsstring) : trimEnd (trimEnd s) = trimEnd s.
Proof.
  induction s as [|c t IH]; simpl; [reflexivity|].
  destruct (trimEnd t) as [|d t'] eqn:E.
  - destruct (isWhiteSpace c) eqn:W; simpl; [reflexivity|].
    rewrite W. reflexivity.
  - remember (d :: t') as u. simpl. rewrite IH. subst u. reflexivity.
Qed.

Lemma startsWith_app (p s : jsstring) : startsWith p (p ++ s) = true.
Proof.
  induction p as [|x p IH]; simpl; [reflexivity|].
  rewrite char_eqb_refl. exact IH.
Qed.

Lemma startsWith_iff (p s : jsstring) :
  startsWith p s = true <-> exists r, s = p ++ r.
Proof.
  revert s. induction p as [|x p IH]; intros s; simpl.
  - split; [intros _; exists s; reflexivity | reflexivity].
  - destruct s as [|y s].
    + split; [discriminate | intros [r Hr]; discriminate].
    + rewrite andb_true_iff, char_eqb_eq, IH. split.
      * intros [-> [r ->]]. exists r. reflexivity.
      * intros [r Hr]. injection Hr as -> ->. split; [reflexivity|].
        exists r. reflexivity.
Qed.



End JSFacts.

(** ** Content normalizer *)

Module NormalizerFacts.
Import Normalizer NormalizerDefs JSFacts.

Lemma last_or_snoc prev s c : last_or prev (s ++ [c]) = Some c.
Proof.
  destruct s as [|d s]; simpl; [reflexivity|].
  f_equal. apply last_last.
Qed.

Lemma last_cons (s : jsstring) : forall c d, last (c :: s) d = last s c.
Proof.
  induction s as [|e s IH]; intros c d; [reflexivity|].
  change (last (c :: e :: s) d) with (last (e :: s) d).
  rewrite !IH. reflexivity.
Qed.

Lemma spec_flags_app prev f s t :
  spec_flags prev f (s ++ t) = spec_flags (last_or prev s) (spec_flags prev f s) t.
Proof.
  revert prev f. induction s as [|c s IH]; intros prev f; simpl; [reflexivity|].
  rewrite IH. destruct s as [|e s]; [reflexivity|].
  unfold last_or. rewrite !last_cons. reflexivity.
Qed.

Lemma charAt_last pre (rest : jsstring) :
  (if (length pre =? 0)%nat then None else charAt (pre ++ rest) (length pre - 1))
  = last_or None pre.
Proof.
  destruct pre as [|d pre] using rev_ind; [reflexivity|].
  rewrite last_or_snoc, length_app. simpl.
  replace (length pre + 1 =? 0)%nat with false
    by (symmetry; apply Nat.eqb_neq; lia).
  unfold charAt. rewrite <- app_assoc.
  replace (length pre + 1 - 1)%nat with (length pre + 0)%nat by lia.
  rewrite nth_error_app2 by lia.
  replace (length pre + 0 - length pre)%nat with 0%nat by lia. reflexivity.
Qed.

(** The code's two branches compute the toggle of the specification. *)
Lemma track_spec line i c s d :
  track line i c s d
  = spec_toggle (if (i =? 0)%nat then None else charAt line (i - 1)) c (s, d).
Proof.
  unfold track, spec_toggle; simpl.
  destruct (char_eqb c QUOTE) eqn:Q; destruct (char_eqb c DQUOTE) eqn:D.
  - apply char_eqb_eq in Q. apply char_eqb_eq in D. subst c. discriminate.
  - destruct d, s; simpl; try reflexivity;
      destruct (i =? 0)%nat; simpl; try reflexivity;
      destruct (charAt line (i - 1)) as [p|]; simpl; try reflexivity;
      destruct (char_eqb p BACKSLASH); reflexivity.
  - destruct d, s; simpl; try reflexivity;
      destruct (i =? 0)%nat; simpl; try reflexivity;
      destruct (charAt line (i - 1)) as [p|]; simpl; try reflexivity;
      destruct (char_eqb p BACKSLASH); reflexivity.
  - destruct d, s; reflexivity.
Qed.

Lemma scan_spec rest : forall pre,
  scan (pre ++ rest) rest (length pre)
       (fst (spec_flags None (false, false) pre))
       (snd (spec_flags None (false, false) pre))
  = match first_index (comment_at (pre ++ rest)) (length pre) (length rest) with
    | Some k => trimEnd (firstn k (pre ++ rest))
    | None => pre ++ rest
    end.
Proof.
  induction rest as [|c rest IH]; intros pre; [reflexivity|].
  simpl scan. simpl first_index.
  rewrite track_spec, charAt_last.
  assert (F : spec_flags None (false, false) (pre ++ [c])
              = spec_toggle (last_or None pre) c
                  (spec_flags None (false, false) pre)).
  { rewrite spec_flags_app. reflexivity. }
  assert (C : comment_at (pre ++ c :: rest) (length pre)
              = (let f := spec_flags None (false, false) (pre ++ [c]) in
                 char_eqb c HASH && negb (fst f) && negb (snd f))).
  { unfold comment_at, charAt. rewrite nth_error_app2 by lia.
    rewrite Nat.sub_diag. simpl nth_error.
    replace (firstn (S (length pre)) (pre ++ c :: rest)) with (pre ++ [c]).
    - simpl. rewrite andb_assoc. reflexivity.
    - replace (S (length pre)) with (length pre + 1)%nat by lia.
      rewrite firstn_app_2. reflexivity. }
  rewrite C, F. cbv zeta.
  destruct (spec_flags None (false, false) pre) as [s d] eqn:E0.
  cbn [fst snd].
  destruct (spec_toggle (last_or None pre) c (s, d)) as [s' d'] eqn:E.
  cbn [fst snd].
  destruct (char_eqb c HASH && negb s' && negb d') eqn:T.
  - reflexivity.
  - specialize (IH (pre ++ [c])). rewrite F in IH. cbn [fst snd] in IH.
    rewrite <- app_assoc in IH. cbn [app] in IH.
    rewrite length_app in IH. cbn [length] in IH.
    replace (length pre + 1)%nat with (S (length pre)) in IH by lia.
    exact IH.
Qed.

Lemma removeCommentsFromLine_spec line :
  removeCommentsFromLine line = spec_normalize line.
Proof. exact (scan_spec line []). Qed.

Lemma first_index_some p : forall n i k,
  first_index p i n = Some k ->
  i <= k < i + n /\ p k = true /\ forall j, i <= j < k -> p j = false.
Proof.
  induction n as [|n IH]; intros i k; simpl; [discriminate|].
  destruct (p i) eqn:P.
  - intros H. injection H as <-. repeat split; try lia. exact P.
  - intros H. apply IH in H. destruct H as (H1 & H2 & H3).
    repeat split; try lia; try exact H2.
    intros j Hj. destruct (Nat.eq_dec j i) as [->|]; [exact P|].
    apply H3. lia.
Qed.

Lemma first_index_none p : forall n i,
  first_index p i n = None <-> forall j, i <= j < i + n -> p j = false.
Proof.
  induction n as [|n IH]; intros i; simpl.
  - split; [intros _ j Hj; lia | reflexivity].
  - destruct (p i) eqn:P.
    + split; [discriminate|]. intros H. rewrite H in P by lia. discriminate.
    + rewrite IH. split.
      * intros H j Hj. destruct (Nat.eq_dec j i) as [->|]; [exact P|].
        apply H. lia.
      * intros H j Hj. apply H. lia.
Qed.

(** Whether an index starts a comment depends on the line up to that
    index only. *)
Lemma comment_at_prefix p q j :
  j < length p -> comment_at (p ++ q) j = comment_at p j.
Proof.
  intros Hj. unfold comment_at, charAt.
  rewrite nth_error_app1 by exact Hj.
  rewrite firstn_app.
  replace (S j - length p)%nat with 0%nat by lia.
  simpl. rewrite app_nil_r. reflexivity.
Qed.

Lemma spec_normalize_cases line :
  spec_normalize line = line \/
  exists i, i < length line /\ comment_at line i = true /\
            (forall j, j < i -> comment_at line j = false) /\
            spec_normalize line = trimEnd (firstn i line).
Proof.
  unfold spec_normalize.
  destruct (first_index (comment_at line) 0 (length line)) as [k|] eqn:E.
  - right. apply first_index_some in E. destruct E as (H1 & H2 & H3).
    exists k. repeat split; try lia; try exact H2.
    intros j Hj. apply H3. lia.
  - left. reflexivity.
Qed.

Lemma spec_normalize_idem line :
  spec_normalize (spec_normalize line) = spec_normalize line.
Proof.
  destruct (spec_normalize_cases line) as [E | (i & Hi & _ & Hno & E)].
  - rewrite E. exact E.
  - rewrite E. set (out := trimEnd (firstn i line)).
    destruct (trimEnd_prefix (firstn i line)) as [w Hw]. fold out in Hw.
    assert (L : line = out ++ (w ++ skipn i line)).
    { rewrite app_assoc, <- Hw. symmetry. apply firstn_skipn. }
    assert (Hlen : length out <= i).
    { unfold out. etransitivity; [apply trimEnd_length|].
      rewrite length_firstn. lia. }
    unfold spec_normalize.
    replace (first_index (comment_at out) 0 (length out)) with (@None nat);
      [reflexivity|].
    symmetry. apply first_index_none. intros j Hj.
    rewrite <- (comment_at_prefix out (w ++ skipn i line)) by lia.
    rewrite <- L. apply Hno. lia.
Qed.

(** C7: the loop of removeCommentsFromLine computes what the
    specification describes: with the two quote flags kept as stated, the
    line is cut at the first comment introducer met while both flags are
    false and the cut is trimmed at its end, and a line with no such
    character is returned as it is; the example line of the specification
    loses its trailing comment and keeps the hash inside the string. *)
Theorem C7_normalizer_scan :
  (forall line, removeCommentsFromLine line = spec_normalize line) /\
  (forall line i,
      comment_at line i = true ->
      (forall j, j < i -> comment_at line j = false) ->
      removeCommentsFromLine line = trimEnd (firstn i line)) /\
  (forall line,
      (forall i, i < length line -> comment_at line i = false) ->
      removeCommentsFromLine line = line) /\
  removeCommentsFromLine example_line = example_result.
Proof.
  split; [exact removeCommentsFromLine_spec|].
  split; [|split].
  - intros line i Hc Hno. rewrite removeCommentsFromLine_spec.
    destruct (spec_normalize_cases line) as [E | (k & Hk & Hck & Hnk & E)].
    + unfold spec_normalize in E.
      destruct (first_index (comment_at line) 0 (length line)) as [k|] eqn:F.
      * apply first_index_some in F. destruct F as (F1 & F2 & F3).
        destruct (Nat.lt_trichotomy i k) as [Hlt | [-> | Hgt]].
        -- rewrite F3 in Hc by lia. discriminate.
        -- unfold spec_normalize.
           replace (first_index (comment_at line) 0 (length line)) with (Some k);
             [reflexivity|].
           symmetry. destruct (first_index (comment_at line) 0 (length line)) eqn:G.
           ++ apply first_index_some in G. destruct G as (G1 & G2 & G3).
              destruct (Nat.lt_trichotomy n k) as [? | [-> | ?]];
                [ rewrite Hno in G2 by lia; discriminate
                | reflexivity
                | rewrite G3 in Hc by lia; discriminate ].
           ++ rewrite first_index_none in G. rewrite G in F2 by lia. discriminate.
        -- rewrite Hno in F2 by lia. discriminate.
      * rewrite first_index_none in F.
        assert (i < length line).
        { unfold comment_at, charAt in Hc.
          destruct (nth_error line i) eqn:N; [|discriminate].
          apply nth_error_Some. congruence. }
        rewrite F in Hc by lia. discriminate.
    + rewrite E. destruct (Nat.lt_trichotomy i k) as [Hlt | [-> | Hgt]].
      * rewrite Hnk in Hc by lia. discriminate.
      * reflexivity.
      * rewrite Hno in Hck by lia. discriminate.
  - intros line Hno. rewrite removeCommentsFromLine_spec. unfold spec_normalize.
    replace (first_index (comment_at line) 0 (length line)) with (@None nat);
      [reflexivity|].
    symmetry. apply first_index_none. intros j Hj. apply Hno. lia.
  - vm_compute. reflexivity.
Qed.

(** C10: removeCommentsFromLine is idempotent, and its result is the
    line itself or a prefix of the line trimmed at its end; in both cases
    the line starts with the result, so no character is added or moved. *)
Theorem C10_normalizer_idempotent (line : jsstring) :
  removeCommentsFromLine (removeCommentsFromLine line)
    = removeCommentsFromLine line /\
  (removeCommentsFromLine line = line \/
   exists i, i < length line /\
             removeCommentsFromLine line = trimEnd (firstn i line)) /\
  (exists rest, line = removeCommentsFromLine line ++ rest).
Proof.
  rewrite !removeCommentsFromLine_spec. split; [apply spec_normalize_idem|].
  destruct (spec_normalize_cases line) as [E | (i & Hi & _ & _ & E)].
  - split; [left; exact E|]. exists []. rewrite E, app_nil_r. reflexivity.
  - split; [right; exists i; split; [exact Hi | exact E]|].
    rewrite E. destruct (trimEnd_prefix (firstn i line)) as [w Hw].
    exists (w ++ skipn i line).
    rewrite app_assoc, <- Hw. symmetry. apply firstn_skipn.
Qed.

End NormalizerFacts.

(** ** The budget product on doubles *)

Module NumFacts.
#[local] Open Scope Z_scope.

Lemma iter_pos_nat {A} (f : A -> A) (p : positive) : forall x,
  iter_pos f p x = Nat.iter (Pos.to_nat p) f x.
Proof.
  induction p as [p IH | p IH |]; intros x; simpl iter_pos.
  - rewrite !IH, Pos2Nat.inj_xI.
    replace (S (2 * Pos.to_nat p))%nat with (Pos.to_nat p + (Pos.to_nat p + 1))%nat by lia.
    rewrite !Nat.iter_add. reflexivity.
  - rewrite !IH, Pos2Nat.inj_xO.
    replace (2 * Pos.to_nat p)%nat with (Pos.to_nat p + Pos.to_nat p)%nat by lia.
    rewrite Nat.iter_add. reflexivity.
  - reflexivity.
Qed.

Lemma shr_1_spec (r : shr_record) :
  0 <= shr_m r ->
  shr_m (shr_1 r) = shr_m r / 2 /\ shr_r (shr_1 r) = Z.odd (shr_m r).
Proof.
  destruct r as [m r s]. simpl shr_m. intros H.
  destruct m as [|[p|p|]|p]; try lia; unfold shr_1; cbn [shr_m shr_r].
  - split; reflexivity.
  - split; [|reflexivity]. rewrite Pos2Z.inj_xI.
    apply Z.div_unique with (r := 1); lia.
  - split; [|reflexivity]. rewrite Pos2Z.inj_xO.
    apply Z.div_unique with (r := 0); lia.
  - split; reflexivity.
Qed.

Lemma shr_iter (m : Z) (n : nat) :
  0 <= m ->
  let r := Nat.iter n shr_1 {| shr_m := m; shr_r := false; shr_s := false |} in
  shr_m r = m / 2 ^ Z.of_nat n /\
  (shr_r r = true -> (m / 2 ^ Z.of_nat n + 1) * 2 ^ Z.of_nat n
                       <= m + 2 ^ (Z.of_nat n - 1)).
Proof.
  intros Hm. induction n as [|n [IHm IHr]].
  - simpl. split; [rewrite Z.div_1_r; reflexivity | discriminate].
  - cbv zeta. rewrite Nat.iter_succ.
    set (r := Nat.iter n shr_1 _) in *.
    assert (P : 0 < 2 ^ Z.of_nat n) by (apply Z.pow_pos_nonneg; lia).
    assert (Hr : 0 <= shr_m r).
    { cbv zeta in IHm. rewrite IHm. apply Z.div_pos; lia. }
    destruct (shr_1_spec r Hr) as [E1 E2].
    cbv zeta in IHm.
    rewrite Nat2Z.inj_succ, Z.pow_succ_r by lia.
    split.
    + rewrite E1, IHm, Z.div_div by lia. f_equal. lia.
    + rewrite E2, IHm. intros Ho.
      replace (Z.succ (Z.of_nat n) - 1) with (Z.of_nat n) by lia.
      set (P2 := 2 ^ Z.of_nat n) in *.
      set (a := m / P2) in *.
      assert (Ha : a = 2 * (a / 2) + 1).
      { rewrite (Z.div_mod a 2) at 1 by lia.
        rewrite <- Z.bit0_mod, Z.bit0_odd, Ho. reflexivity. }
      assert (Hq : m / (2 * P2) = a / 2).
      { unfold a. rewrite Z.div_div by lia. f_equal. lia. }
      rewrite Hq.
      assert (Hma : a * P2 <= m).
      { unfold a. rewrite Z.mul_comm. apply Z.mul_div_le. lia. }
      nia.
Qed.

Lemma digits2_bounds (p : positive) :
  2 ^ (Z.pos (digits2_pos p) - 1) <= Z.pos p < 2 ^ Z.pos (digits2_pos p).
Proof.
  induction p as [p IH | p IH |]; cbn [digits2_pos].
  - rewrite Pos2Z.inj_succ, (Pos2Z.inj_xI p).
    replace (Z.succ (Z.pos (digits2_pos p)) - 1)
      with (Z.succ (Z.pos (digits2_pos p) - 1)) by lia.
    rewrite !Z.pow_succ_r by lia. destruct IH as [L U].
    set (a := 2 ^ (Z.pos (digits2_pos p) - 1)) in *.
    set (b := 2 ^ Z.pos (digits2_pos p)) in *. clearbody a b. lia.
  - rewrite Pos2Z.inj_succ, (Pos2Z.inj_xO p).
    replace (Z.succ (Z.pos (digits2_pos p)) - 1)
      with (Z.succ (Z.pos (digits2_pos p) - 1)) by lia.
    rewrite !Z.pow_succ_r by lia. destruct IH as [L U].
    set (a := 2 ^ (Z.pos (digits2_pos p) - 1)) in *.
    set (b := 2 ^ Z.pos (digits2_pos p)) in *. clearbody a b. lia.
  - simpl. lia.
Qed.

Lemma digits2_le (m : positive) (k : Z) :
  0 <= k -> Z.pos m < 2 ^ k -> Z.pos (digits2_pos m) <= k.
Proof.
  intros Hk H. destruct (digits2_bounds m) as [L _].
  assert (2 ^ (Z.pos (digits2_pos m) - 1) < 2 ^ k) by lia.
  apply Z.pow_lt_mono_r_iff in H0; lia.
Qed.

Lemma digits2_gt (m : positive) (k : Z) :
  0 <= k -> 2 ^ k <= Z.pos m -> k < Z.pos (digits2_pos m).
Proof.
  intros Hk H. destruct (digits2_bounds m) as [_ U].
  assert (2 ^ k < 2 ^ Z.pos (digits2_pos m)) by lia.
  apply Z.pow_lt_mono_r_iff in H0; lia.
Qed.

Lemma fexp_normal (e : Z) : -1021 <= e -> fexp 53 1024 e = e - 53.
Proof. intros H. unfold fexp, emin. lia. Qed.

(** A mantissa of at most 53 bits is not rounded. *)
Lemma round_aux_exact (mx : positive) (ex : Z) :
  Z.pos (digits2_pos mx) <= 53 ->
  -1021 <= Z.pos (digits2_pos mx) + ex -> ex <= 971 ->
  binary_round_aux 53 1024 false (Z.pos mx) ex loc_Exact
  = S754_finite false mx ex.
Proof.
  intros Hd Hn He.
  assert (S : shr_fexp 53 1024 (Z.pos mx) ex loc_Exact
              = ({| shr_m := Z.pos mx; shr_r := false; shr_s := false |}, ex)).
  { unfold shr_fexp, shr. cbn [Zdigits2 shr_record_of_loc].
    rewrite fexp_normal by lia.
    destruct (Z.pos (digits2_pos mx) + ex - 53 - ex) eqn:E; try reflexivity; lia. }
  unfold binary_round_aux. rewrite S. cbn [shr_m loc_of_shr_record round_nearest_even].
  rewrite S. cbn [shr_m].
  replace (ex <=? 1024 - 53) with true by (symmetry; apply Z.leb_le; lia).
  reflexivity.
Qed.

Lemma iter_xO (k : nat) (p : positive) :
  Z.pos (Nat.iter k xO p) = Z.pos p * 2 ^ Z.of_nat k /\
  Z.pos (digits2_pos (Nat.iter k xO p)) = Z.pos (digits2_pos p) + Z.of_nat k.
Proof.
  induction k as [|k [IH1 IH2]].
  - simpl. lia.
  - rewrite Nat.iter_succ. cbn [digits2_pos].
    rewrite (Pos2Z.inj_xO (Nat.iter k xO p)), Pos2Z.inj_succ, IH1, IH2,
      Nat2Z.inj_succ, Z.pow_succ_r by lia.
    lia.
Qed.

Lemma iter_xO_pos (d p : positive) :
  Z.pos (Pos.iter xO p d) = Z.pos p * 2 ^ Z.pos d /\
  Z.pos (digits2_pos (Pos.iter xO p d)) = Z.pos (digits2_pos p) + Z.pos d.
Proof.
  rewrite Pos2Nat.inj_iter.
  destruct (iter_xO (Pos.to_nat d) p) as [V D].
  rewrite positive_nat_Z in V, D. split; assumption.
Qed.

(** An integer below 2^53 is a double. *)
Lemma of_Z_exact (M : Z) :
  0 < M < 2 ^ 53 ->
  exists m k, Num.of_Z M = S754_finite false m (- k) /\ 0 <= k <= 52 /\
              Z.pos m = M * 2 ^ k /\ Z.pos m < 2 ^ 53.
Proof.
  intros [H0 H1]. destruct M as [|p|p]; try lia.
  unfold Num.of_Z, binary_normalize, binary_round, Num.prec, Num.emax.
  assert (Hd : Z.pos (digits2_pos p) <= 53) by (apply digits2_le; lia).
  rewrite fexp_normal by lia.
  unfold shl_align.
  destruct (Z.pos (digits2_pos p) + 0 - 53 - 0) as [|d|d] eqn:E; try lia.
  - exists p, 0. rewrite round_aux_exact by lia.
    repeat split; try lia.
  - destruct (iter_xO_pos d p) as [V D].
    exists (Pos.iter xO p d), (Z.pos d).
    rewrite round_aux_exact by lia.
    replace (Z.pos (digits2_pos p) + 0 - 53) with (- Z.pos d) by lia.
    repeat split; try lia.
    destruct (digits2_bounds (Pos.iter xO p d)) as [_ U].
    rewrite D in U. replace (Z.pos (digits2_pos p) + Z.pos d) with 53 in U by lia.
    exact U.
Qed.

Lemma round_nearest_even_cases (r : shr_record) :
  round_nearest_even (shr_m r) (loc_of_shr_record r) = shr_m r \/
  (round_nearest_even (shr_m r) (loc_of_shr_record r) = shr_m r + 1 /\
   shr_r r = true).
Proof.
  destruct r as [m [|] [|]]; cbn [shr_m shr_r loc_of_shr_record round_nearest_even];
    try (left; reflexivity); try (right; split; reflexivity).
  destruct (Z.even m); [left | right; split]; reflexivity.
Qed.

(** Rounding to nearest adds at most one part in 2^53 to a product. *)
Lemma round_aux_bound (mx : positive) (ex : Z) :
  -1021 <= Z.pos (digits2_pos mx) + ex ->
  Z.pos (digits2_pos mx) + ex <= 1023 -> ex <= 0 ->
  exists m2 k,
    binary_round_aux 53 1024 false (Z.pos mx) ex loc_Exact
    = S754_finite false m2 (ex + k) /\
    0 <= k /\
    Z.pos m2 * 2 ^ k * 2 ^ 53 <= Z.pos mx * (2 ^ 53 + 1).
Proof.
  intros Hlo Hhi Hex.
  set (d := Z.pos (digits2_pos mx)) in *.
  destruct (Z_le_gt_dec d 53) as [Hd | Hd].
  - exists mx, 0. rewrite round_aux_exact by (fold d; lia).
    rewrite Z.add_0_r. split; [reflexivity|]. split; [lia|].
    rewrite Z.pow_0_r. lia.
  - destruct (d - 53) as [|pp|pp] eqn:Ep; try lia.
    assert (S1 : shr_fexp 53 1024 (Z.pos mx) ex loc_Exact
                 = (Nat.iter (Pos.to_nat pp) shr_1
                      {| shr_m := Z.pos mx; shr_r := false; shr_s := false |},
                    ex + Z.pos pp)).
    { unfold shr_fexp, shr. cbn [Zdigits2 shr_record_of_loc]. fold d.
      rewrite fexp_normal by lia.
      replace (d + ex - 53 - ex) with (Z.pos pp) by lia.
      rewrite iter_pos_nat. reflexivity. }
    destruct (shr_iter (Z.pos mx) (Pos.to_nat pp)) as [Q R]; [lia|].
    rewrite positive_nat_Z in Q, R.
    set (rec := Nat.iter (Pos.to_nat pp) shr_1 _) in *.
    destruct (digits2_bounds mx) as [L U]. fold d in L, U.
    set (P := 2 ^ Z.pos pp) in *.
    assert (HP : 0 < P) by (apply Z.pow_pos_nonneg; lia).
    assert (HP1 : 2 * 2 ^ (Z.pos pp - 1) = P).
    { unfold P. rewrite <- Z.pow_succ_r by lia. f_equal. lia. }
    assert (Hd1 : 2 ^ (d - 1) = 2 ^ 52 * P).
    { unfold P. rewrite <- Z.pow_add_r by lia. f_equal. lia. }
    assert (Hd2 : 2 ^ d = 2 ^ 53 * P).
    { unfold P. rewrite <- Z.pow_add_r by lia. f_equal. lia. }
    set (q := Z.pos mx / P) in *.
    assert (Hq1 : 2 ^ 52 <= q).
    { apply Z.div_le_lower_bound; lia. }
    assert (Hq2 : q < 2 ^ 53).
    { apply Z.div_lt_upper_bound; lia. }
    assert (Hq3 : q * P <= Z.pos mx).
    { unfold q. rewrite Z.mul_comm. apply Z.mul_div_le. lia. }
    set (m1 := round_nearest_even (shr_m rec) (loc_of_shr_record rec)).
    assert (Hm1 : 2 ^ 52 <= m1 <= 2 ^ 53 /\
                  m1 * P * 2 ^ 53 <= Z.pos mx * (2 ^ 53 + 1)).
    { destruct (round_nearest_even_cases rec) as [E | [E Hr]];
        fold m1 in E; rewrite Q in E; rewrite E.
      - split; [lia|]. nia.
      - specialize (R Hr). split; [lia|].
        set (h := 2 ^ (Z.pos pp - 1)) in *. clearbody h P. nia. }
    destruct Hm1 as [[Hm1a Hm1b] Hm1c].
    destruct m1 as [|pm1|pm1] eqn:Em1; try lia.
    set (D := Z.pos (digits2_pos pm1)).
    assert (HD1 : 52 < D) by (apply digits2_gt; lia).
    assert (HD2 : D <= 54).
    { apply digits2_le; [lia|]. change (2 ^ 54) with (2 * 2 ^ 53). lia. }
    unfold binary_round_aux. rewrite S1. fold m1. rewrite Em1.
    unfold shr_fexp, shr. cbn [Zdigits2 shr_record_of_loc]. fold D.
    rewrite fexp_normal by lia.
    destruct (D + (ex + Z.pos pp) - 53 - (ex + Z.pos pp)) as [|n2|n2] eqn:En; try lia.
    + cbn [shr_m].
      replace (ex + Z.pos pp <=? 1024 - 53) with true
        by (symmetry; apply Z.leb_le; lia).
      exists pm1, (Z.pos pp). split; [reflexivity|]. split; [lia|].
      fold P. exact Hm1c.
    + assert (n2 = 1%positive) by lia. subst n2. cbn [iter_pos].
      destruct (shr_1_spec {| shr_m := Z.pos pm1; shr_r := false; shr_s := false |})
        as [E1 _]; [cbn; lia|].
      cbn [shr_m] in E1. rewrite E1.
      assert (Hh : 2 ^ 51 <= Z.pos pm1 / 2).
      { apply Z.div_le_lower_bound; [lia|]. change (2 * 2 ^ 51) with (2 ^ 52). lia. }
      assert (Hh2 : Z.pos pm1 / 2 * 2 <= Z.pos pm1).
      { rewrite Z.mul_comm. apply Z.mul_div_le. lia. }
      destruct (Z.pos pm1 / 2) as [|m2|m2] eqn:Em2; try lia.
      replace (ex + Z.pos pp + 1 <=? 1024 - 53) with true
        by (symmetry; apply Z.leb_le; lia).
      exists m2, (Z.pos pp + 1).
      split; [f_equal; lia|]. split; [lia|].
      rewrite Z.pow_add_r by lia. fold P. rewrite Z.pow_1_r.
      clearbody P. nia.
Qed.

(** An integer that the budget check lets pass is at most 70 percent of
    the configured maximum. *)
Lemma tokenLimit_bound (M n : Z) :
  0 <= M < 2 ^ 51 ->
  Num.gt_Z n (Planner.tokenLimit M) = false ->
  10 * n <= 7 * M.
Proof.
  intros [H0 H1] G.
  destruct (Z.eq_dec M 0) as [-> | Hne].
  - cbn in G. apply Z.ltb_ge in G. lia.
  - destruct (of_Z_exact M) as (m & k & E & Hk & Hm & Hm53).
    { split; [lia|]. eapply Z.lt_trans; [exact H1|]. reflexivity. }
    unfold Planner.tokenLimit, Num.mul, Num.LIT_0_7, SFmul, Num.prec, Num.emax in G.
    rewrite E in G. cbn [xorb] in G.
    set (c := 6305039478318694%positive) in *.
    assert (Hc : Z.pos c = 6305039478318694) by reflexivity.
    assert (Hmc : Z.pos (m * c) < 2 ^ 106).
    { rewrite Pos2Z.inj_mul. change (2 ^ 106) with (2 ^ 53 * 2 ^ 53).
      apply Z.mul_lt_mono_nonneg; lia. }
    assert (Hdig : Z.pos (digits2_pos (m * c)) <= 106) by (apply digits2_le; lia).
    destruct (round_aux_bound (m * c) (- k + -53)) as (m2 & k2 & R & Hk2 & B);
      try lia.
    rewrite R in G. unfold Num.gt_Z in G.
    set (P := 2 ^ k) in *.
    assert (HP : 0 < P) by (apply Z.pow_pos_nonneg; lia).
    assert (Key : n * (P * 2 ^ 53) <= Z.pos m2 * 2 ^ k2).
    { destruct (0 <=? - k + -53 + k2) eqn:S; [apply Z.leb_le in S | apply Z.leb_gt in S].
      - apply Z.ltb_ge in G.
        replace (2 ^ k2) with (2 ^ (- k + -53 + k2) * (P * 2 ^ 53)).
        + assert (0 < P * 2 ^ 53) by lia.
          set (T := 2 ^ (- k + -53 + k2)) in *. clearbody T. nia.
        + unfold P. rewrite <- !Z.pow_add_r by lia. f_equal. lia.
      - apply Z.ltb_ge in G.
        replace (P * 2 ^ 53) with (2 ^ (- (- k + -53 + k2)) * 2 ^ k2).
        + assert (0 < 2 ^ k2) by (apply Z.pow_pos_nonneg; lia).
          set (T := 2 ^ k2) in *. set (V := 2 ^ (- (- k + -53 + k2))) in *.
          clearbody T V. nia.
        + unfold P. rewrite <- !Z.pow_add_r by lia. f_equal. lia. }
    rewrite Pos2Z.inj_mul, Hm, Hc in B. fold P in B.
    assert (Fin : n * 2 ^ 53 * 2 ^ 53 <= M * 6305039478318694 * (2 ^ 53 + 1)).
    { apply Z.mul_le_mono_pos_l with (p := P); [exact HP|].
      set (T := Z.pos m2 * 2 ^ k2) in *. clearbody T P. nia. }
    clear - Fin H0 H1. lia.
Qed.

End NumFacts.

(** ** File selection planner: the shape of the selection *)

Module PlannerFacts.
Import Planner PlannerDefs.

Section Selection.

Variable toLowerCase : jsstring -> jsstring.
Variables MAIN_FILE_PROMPT REGULAR_FILE_PROMPT : jsstring.
Variable getBlob : jsstring -> option jsstring.
Variable maxInputTokens : Z.

Let body := loop_body toLowerCase MAIN_FILE_PROMPT REGULAR_FILE_PROMPT getBlob
              maxInputTokens.
Let loop := for_of toLowerCase MAIN_FILE_PROMPT REGULAR_FILE_PROMPT getBlob
              maxInputTokens.
Let select files :=
  selectAndFetchFilesForReview toLowerCase MAIN_FILE_PROMPT REGULAR_FILE_PROMPT
    getBlob files maxInputTokens.

#[local] Abbreviation over_budget :=
  (PlannerDefs.over_budget toLowerCase MAIN_FILE_PROMPT REGULAR_FILE_PROMPT
     maxInputTokens).
#[local] Abbreviation sum_costs :=
  (PlannerDefs.sum_costs toLowerCase MAIN_FILE_PROMPT REGULAR_FILE_PROMPT).
#[local] Abbreviation budget_inv :=
  (PlannerDefs.budget_inv toLowerCase MAIN_FILE_PROMPT REGULAR_FILE_PROMPT
     maxInputTokens).

Lemma loop_unfold f rest sel tot :
  loop (f :: rest) sel tot
  = match body f sel tot with
    | Break => (sel, tot)
    | Next sel' tot' => loop rest sel' tot'
    end.
Proof. reflexivity. Qed.

Lemma body_cases f sel tot :
  (body f sel tot = Break /\
   ((MAX_FILES_TO_REVIEW <= length sel)%nat \/
    exists raw, getBlob (sha f) = Some raw /\ over_budget tot f raw = true))
  \/ (body f sel tot = Next sel tot /\ getBlob (sha f) = None /\
      (length sel < MAX_FILES_TO_REVIEW)%nat)
  \/ (exists raw,
        getBlob (sha f) = Some raw /\ over_budget tot f raw = false /\
        (length sel < MAX_FILES_TO_REVIEW)%nat /\
        body f sel tot
        = Next (sel ++ [{| file_path := path f; content := normalizeContent raw |}])
               (tot + estimatedTokens toLowerCase MAIN_FILE_PROMPT
                        REGULAR_FILE_PROMPT (path f) (normalizeContent raw))).
Proof.
  unfold body, loop_body, PlannerDefs.over_budget.
  destruct (MAX_FILES_TO_REVIEW <=? length sel)%nat eqn:C.
  - left. split; [reflexivity|]. left. apply Nat.leb_le. exact C.
  - apply Nat.leb_gt in C.
    destruct (getBlob (sha f)) as [raw|] eqn:G.
    + cbv zeta.
      destruct (Num.gt_Z _ _) eqn:B.
      * left. split; [reflexivity|]. right. exists raw. split; [reflexivity|exact B].
      * right. right. exists raw. repeat split; try assumption.
    + right. left. repeat split; assumption.
Qed.


Lemma loop_prefix files : forall sel tot,
  exists k, fst (loop files sel tot) = sel ++ firstn k (fetched getBlob files).
Proof.
  induction files as [|f rest IH]; intros sel tot.
  - exists 0%nat. simpl. rewrite app_nil_r. reflexivity.
  - rewrite loop_unfold.
    destruct (body_cases f sel tot)
      as [[E _] | [(E & G & _) | (raw & G & _ & _ & E)]]; rewrite E.
    + exists 0%nat. simpl. rewrite app_nil_r. reflexivity.
    + destruct (IH sel tot) as [k Hk]. exists k.
      unfold fetched in *. simpl. rewrite G. simpl. exact Hk.
    + destruct (IH (sel ++ [{| file_path := path f;
                               content := normalizeContent raw |}])
                   (tot + estimatedTokens toLowerCase MAIN_FILE_PROMPT
                            REGULAR_FILE_PROMPT (path f) (normalizeContent raw))%Z)
        as [k Hk].
      exists (S k). unfold fetched in *. simpl. rewrite G. simpl.
      rewrite Hk, <- app_assoc. reflexivity.
Qed.





(** *** Budget, count cap and cost *)

Lemma sum_costs_snoc sel f :
  sum_costs (sel ++ [f])
  = (sum_costs sel + cost toLowerCase MAIN_FILE_PROMPT REGULAR_FILE_PROMPT f)%Z.
Proof.
  unfold PlannerDefs.sum_costs. induction sel as [|g sel IH]; cbn [app fold_right]; lia.
Qed.

Lemma ceil_quarter (a T : Z) :
  Num.ceil (inject_Z a * TOKEN_ESTIMATION_RATIO + inject_Z T)
  = ((a + 3) / 4 + T)%Z.
Proof.
  unfold Num.ceil, Qceiling, Qfloor, TOKEN_ESTIMATION_RATIO. cbn.
  Z.to_euclidean_division_equations. lia.
Qed.

Lemma ceil_quarter0 (a : Z) :
  Num.ceil (inject_Z a * TOKEN_ESTIMATION_RATIO) = ((a + 3) / 4)%Z.
Proof.
  unfold Num.ceil, Qceiling, Qfloor, TOKEN_ESTIMATION_RATIO. cbn.
  Z.to_euclidean_division_equations. lia.
Qed.

Lemma promptTokens_nonneg p :
  (0 <= promptTokens toLowerCase MAIN_FILE_PROMPT REGULAR_FILE_PROMPT p)%Z.
Proof.
  unfold promptTokens, mainPromptTokens, regularPromptTokens.
  destruct (isMain toLowerCase p); rewrite ceil_quarter0;
    apply Z.div_pos; lia.
Qed.

Lemma estimatedTokens_nonneg p c :
  (0 <= estimatedTokens toLowerCase MAIN_FILE_PROMPT REGULAR_FILE_PROMPT p c)%Z.
Proof.
  unfold estimatedTokens. rewrite ceil_quarter.
  pose proof (promptTokens_nonneg p).
  assert (0 <= (Z.of_nat (length c) + Z.of_nat (length p) + 3) / 4)%Z
    by (apply Z.div_pos; lia).
  lia.
Qed.

Lemma body_mono f sel tot sel' tot' :
  body f sel tot = Next sel' tot' -> (tot <= tot')%Z.
Proof.
  intros E.
  destruct (body_cases f sel tot)
    as [[E' _] | [(E' & _ & _) | (raw & G & B & C & E')]];
    rewrite E' in E; try discriminate; injection E as <- <-; [lia|].
  pose proof (estimatedTokens_nonneg (path f) (normalizeContent raw)). lia.
Qed.

Lemma body_inv f sel tot sel' tot' :
  budget_inv sel tot -> body f sel tot = Next sel' tot' ->
  budget_inv sel' tot' /\ (tot <= tot')%Z.
Proof.
  intros (I1 & I2 & I3) E.
  destruct (body_cases f sel tot)
    as [[E' _] | [(E' & _ & _) | (raw & G & B & C & E')]];
    rewrite E' in E; try discriminate; injection E as <- <-.
  - split; [repeat split; assumption | lia].
  - split.
    + split; [|split].
      * rewrite sum_costs_snoc, I1. reflexivity.
      * rewrite length_app. simpl. lia.
      * right. exact B.
    + pose proof (estimatedTokens_nonneg (path f) (normalizeContent raw)). lia.
Qed.

Lemma loop_inv files : forall sel tot,
  budget_inv sel tot ->
  budget_inv (fst (loop files sel tot)) (snd (loop files sel tot)) /\
  (tot <= snd (loop files sel tot))%Z.
Proof.
  induction files as [|f rest IH]; intros sel tot I.
  - simpl. split; [exact I | lia].
  - rewrite loop_unfold. destruct (body f sel tot) as [|sel' tot'] eqn:E.
    + simpl. split; [exact I | lia].
    + destruct (body_inv f sel tot sel' tot' I E) as [I' Hle].
      destruct (IH sel' tot' I') as [I'' Hle'].
      split; [exact I'' | lia].
Qed.

(** C2, as the code has it: the estimated costs of the selected files
    add up to the consumed total, which is at most 70 percent of the
    configured maximum when the maximum is between 0 and 2^51; whatever
    the maximum, at most MAX_FILES_TO_REVIEW = 15 files are selected, no
    iteration lowers the consumed total, which starts at 0, and the cost
    of a file is the least integer that is at least
    (len(content) + len(path)) * 0.25 + templateTokens, the template
    tokens being the ceiling of a quarter of the length of the main
    template for a main file and of the regular template otherwise. *)
Theorem C2_budget_count_and_cost (files : list FileMeta) :
  (let selected := select files in
   let consumed := snd (loop files [] 0%Z) in
   consumed = sum_costs selected /\
   ((0 <= maxInputTokens < 2 ^ 51)%Z ->
    (10 * sum_costs selected <= 7 * maxInputTokens)%Z) /\
   (length selected <= 15)%nat) /\
  (forall f sel tot sel' tot',
      body f sel tot = Next sel' tot' -> (tot <= tot')%Z) /\
  (forall rest sel tot, (tot <= snd (loop rest sel tot))%Z) /\
  (forall p c,
      let templateTokens :=
        if isMain toLowerCase p
        then Num.ceil (inject_Z (Z.of_nat (length MAIN_FILE_PROMPT))
                       * TOKEN_ESTIMATION_RATIO)
        else Num.ceil (inject_Z (Z.of_nat (length REGULAR_FILE_PROMPT))
                       * TOKEN_ESTIMATION_RATIO) in
      let x := (inject_Z (Z.of_nat (length c) + Z.of_nat (length p))
                * TOKEN_ESTIMATION_RATIO + inject_Z templateTokens)%Q in
      let est := estimatedTokens toLowerCase MAIN_FILE_PROMPT
                   REGULAR_FILE_PROMPT p c in
      (inject_Z (est - 1) < x)%Q /\ (x <= inject_Z est)%Q /\
      est = ((Z.of_nat (length c) + Z.of_nat (length p) + 3) / 4
             + templateTokens)%Z).
Proof.
  split; [|split; [|split]].
  - cbv zeta.
    assert (I0 : budget_inv [] 0%Z).
    { split; [reflexivity|]. split; [simpl; lia|]. left. split; reflexivity. }
    destruct (loop_inv files [] 0%Z I0) as [(I1 & I2 & I3) _].
    unfold select, selectAndFetchFilesForReview. fold loop.
    split; [exact I1|]. split; [|exact I2].
    intros HM. rewrite <- I1. destruct I3 as [[_ E] | G].
    + rewrite E. lia.
    + apply NumFacts.tokenLimit_bound; assumption.
  - exact body_mono.
  - intros rest. induction rest as [|f rest IH]; intros sel tot; [simpl; lia|].
    rewrite loop_unfold. destruct (body f sel tot) as [|sel' tot'] eqn:E.
    + simpl. lia.
    + pose proof (body_mono f sel tot sel' tot' E). specialize (IH sel' tot'). lia.
  - intros p c. cbv zeta. unfold estimatedTokens, promptTokens,
      mainPromptTokens, regularPromptTokens.
    split; [apply Qceiling_lt|]. split; [apply Qle_ceiling|].
    apply ceil_quarter.
Qed.

End Selection.

(** With room for all, the two files that can be fetched are selected,
    without their comments; with a maximum of 20 tokens the budget is 14,
    the main file costs 6 and the next one 6, and a maximum of 10 leaves
    room for the main file only. *)
Example example_selection :
  selectAndFetchFilesForReview asciiLower (lit "0123456789") (lit "01234")
    example_getBlob example_files 4000
  = [ {| file_path := lit "main.py"; content := lit "x = 1" |};
      {| file_path := lit "pkg/c.py"; content := lit "x = 1" |} ] /\
  map file_path
    (selectAndFetchFilesForReview asciiLower (lit "0123456789") (lit "01234")
       example_getBlob example_files 20)
  = [lit "main.py"; lit "pkg/c.py"] /\
  map file_path
    (selectAndFetchFilesForReview asciiLower (lit "0123456789") (lit "01234")
       example_getBlob example_files 10)
  = [lit "main.py"].
Proof. vm_compute. repeat split. Qed.

Lemma C2_budget_count_and_cost_witness :
  (0 <= 30 < 2 ^ 51)%Z /\
  (10 * PlannerDefs.sum_costs asciiLower (lit "0123456789") (lit "01234")
          (selectAndFetchFilesForReview asciiLower (lit "0123456789")
             (lit "01234") example_getBlob example_files 30)
   <= 7 * 30)%Z /\
  (length (selectAndFetchFilesForReview asciiLower (lit "0123456789")
             (lit "01234") example_getBlob example_files 30) <= 15)%nat.
Proof.
  split; [lia|].
  destruct (proj1
    (C2_budget_count_and_cost asciiLower (lit "0123456789") (lit "01234")
       example_getBlob 30 example_files)) as (_ & Budget & Cap).
  split; [apply Budget; lia | exact Cap].
Defined.

(** The claim C2 fails on the code: getConfig passes a negative maximum
    on; with the maximum -5 the first check of the budget fails, nothing
    is selected, and the sum of the costs, 0, is above 70 percent of the
    maximum.  Near 2^53 the product of the maximum and 0.7 is rounded up
    to an integer, and the check lets a total pass that is above 70
    percent of the maximum. *)
Lemma C2_budget_count_and_cost_counterexample :
  (let M := Config.maxInputTokens (Config.getConfig PipelineDefs.negative_env) in
   let selected :=
     selectAndFetchFilesForReview asciiLower (lit "0123456789") (lit "01234")
       example_getBlob example_files M in
   M = (-5)%Z /\
   selected = [] /\
   PlannerDefs.sum_costs asciiLower (lit "0123456789") (lit "01234") selected
   = 0%Z /\
   Num.gt_Z 0 (tokenLimit M) = true /\
   (7 * M
    < 10 * PlannerDefs.sum_costs asciiLower (lit "0123456789") (lit "01234")
             selected)%Z) /\
  (9007199254740897 < 2 ^ 53)%Z /\
  Num.gt_Z 6305039478318628 (tokenLimit 9007199254740897) = false /\
  (7 * 9007199254740897 < 10 * 6305039478318628)%Z.
Proof. vm_compute. repeat split. Qed.

End PlannerFacts.

(** ** File prioritizer *)

Module PrioritizerFacts.
Import Planner Prioritizer PrioritizerDefs.
#[local] Open Scope Z_scope.

Section Sorting.

Variable A : Type.
Variable cmp : A -> A -> Z.

(** A consistent comparator: the sign turns with the arguments and
    being at most equal is transitive. *)
Hypothesis cmp_flip : forall a b, 0 < cmp a b <-> cmp b a < 0.
Hypothesis cmp_trans : forall a b c, cmp a b <= 0 -> cmp b c <= 0 -> cmp a c <= 0.

Let le (a b : A) : Prop := cmp a b <= 0.

Lemma insert_perm x l : Permutation (x :: l) (insert cmp x l).
Proof.
  induction l as [|y l IH]; simpl; [apply Permutation_refl|].
  destruct (cmp x y <=? 0); [apply Permutation_refl|].
  eapply perm_trans; [apply perm_swap|]. apply perm_skip. exact IH.
Qed.

Lemma sort_perm l : Permutation l (sort cmp l).
Proof.
  induction l as [|x l IH]; simpl; [apply perm_nil|].
  eapply perm_trans; [apply perm_skip; exact IH | apply insert_perm].
Qed.

Lemma insert_sorted x l :
  StronglySorted le l -> StronglySorted le (insert cmp x l).
Proof.
  induction 1 as [|y l Hs IH Hy]; simpl.
  - constructor; constructor.
  - destruct (cmp x y <=? 0) eqn:C.
    + apply Z.leb_le in C. constructor.
      * constructor; assumption.
      * constructor; [exact C|].
        eapply Forall_impl; [|exact Hy].
        intros z Hz. exact (cmp_trans x y z C Hz).
    + apply Z.leb_gt in C. constructor; [exact IH|].
      assert (Hyx : le y x).
      { unfold le. apply cmp_flip in C. lia. }
      apply (Permutation_Forall (insert_perm x l)).
      constructor; assumption.
Qed.

Lemma sort_sorted l : StronglySorted le (sort cmp l).
Proof.
  induction l as [|x l IH]; simpl; [constructor|].
  apply insert_sorted. exact IH.
Qed.

Lemma insert_stable w x l :
  StronglySorted le l ->
  filter (fun y => cmp w y =? 0) (insert cmp x l)
  = filter (fun y => cmp w y =? 0) (x :: l).
Proof.
  induction 1 as [|y l Hs IH Hy]; [reflexivity|].
  cbn [insert]. destruct (cmp x y <=? 0) eqn:C; [reflexivity|].
  apply Z.leb_gt in C.
  cbn [filter] in *. rewrite IH.
  destruct (cmp w x =? 0) eqn:Sx; [|reflexivity].
  destruct (cmp w y =? 0) eqn:Sy; [|reflexivity].
  exfalso. apply Z.eqb_eq in Sx, Sy.
  assert (cmp x w <= 0).
  { destruct (Z_le_gt_dec (cmp x w) 0) as [H|H]; [exact H|].
    assert (H' : 0 < cmp x w) by lia. apply cmp_flip in H'. lia. }
  assert (cmp x y <= 0) by (apply cmp_trans with w; lia).
  lia.
Qed.

Lemma sort_stable w l :
  filter (fun y => cmp w y =? 0) (sort cmp l) = filter (fun y => cmp w y =? 0) l.
Proof.
  induction l as [|x l IH]; [reflexivity|].
  cbn [sort]. rewrite insert_stable by apply sort_sorted.
  cbn [filter]. rewrite IH. reflexivity.
Qed.

Lemma sorted_pair l : forall l1 a l2 b,
  StronglySorted le l -> l = l1 ++ a :: l2 -> In b l2 -> le a b.
Proof.
  intros l1 a l2 b Hs ->. revert Hs.
  induction l1 as [|c l1 IH]; simpl; intros Hs Hb.
  - apply StronglySorted_inv in Hs. destruct Hs as [_ Hall].
    rewrite Forall_forall in Hall. apply Hall. exact Hb.
  - apply StronglySorted_inv in Hs. destruct Hs as [Hs _]. apply IH; assumption.
Qed.

End Sorting.

Section Priority.

Variable toLowerCase : jsstring -> jsstring.
Variable localeCompare : jsstring -> jsstring -> Z.

Hypothesis localeCompare_flip :
  forall a b, 0 < localeCompare a b <-> localeCompare b a < 0.
Hypothesis localeCompare_trans :
  forall a b c, localeCompare a b <= 0 -> localeCompare b c <= 0 ->
                localeCompare a c <= 0.

Let cmp := compareFn toLowerCase localeCompare.
Let main (f : FileMeta) : bool := isMain toLowerCase (path f).
Let depth (f : FileMeta) : nat := length (split SLASH (path f)).

(** The comparator read as an order on the three keys. *)
Lemma cmp_le a b :
  cmp a b <= 0 <->
  (main a = true /\ main b = false) \/
  (main a = main b /\
   ((depth a < depth b)%nat \/
    (depth a = depth b /\ localeCompare (path a) (path b) <= 0))).
Proof.
  unfold cmp, compareFn. fold (main a) (main b) (depth a) (depth b).
  destruct (main a), (main b); cbn [Bool.eqb negb].
  - destruct (depth a =? depth b)%nat eqn:D; cbn [negb];
      [apply Nat.eqb_eq in D | apply Nat.eqb_neq in D].
    + split; [intros H; right; split; [reflexivity|]; right; split; assumption|].
      intros [[_ H] | [_ [H | [_ H]]]]; try discriminate; try lia.
    + split; [intros H; right; split; [reflexivity|]; left; lia|].
      intros [[_ H] | [_ [H | [H _]]]]; try discriminate; try lia.
  - split; [intros _; left; split; reflexivity | lia].
  - split; [lia|]. intros [[H _] | [H _]]; discriminate.
  - destruct (depth a =? depth b)%nat eqn:D; cbn [negb];
      [apply Nat.eqb_eq in D | apply Nat.eqb_neq in D].
    + split; [intros H; right; split; [reflexivity|]; right; split; assumption|].
      intros [[H _] | [_ [H | [_ H]]]]; try discriminate; try lia.
    + split; [intros H; right; split; [reflexivity|]; left; lia|].
      intros [[H _] | [_ [H | [H _]]]]; try discriminate; try lia.
Qed.

Lemma cmp_flip a b : 0 < cmp a b <-> cmp b a < 0.
Proof.
  unfold cmp, compareFn. fold (main a) (main b) (depth a) (depth b).
  destruct (main a), (main b); cbn [Bool.eqb negb]; try lia;
    rewrite (Nat.eqb_sym (depth b) (depth a));
    (destruct (depth a =? depth b)%nat eqn:D; cbn [negb];
     [apply localeCompare_flip | lia]).
Qed.

Lemma cmp_trans a b c : cmp a b <= 0 -> cmp b c <= 0 -> cmp a c <= 0.
Proof.
  rewrite !cmp_le.
  intros [[A1 A2] | [A1 [A2 | [A2 A3]]]] [[B1 B2] | [B1 [B2 | [B2 B3]]]];
    try congruence;
    try (left; split; congruence);
    right; (split; [congruence|]);
    try (left; lia).
  right. split; [lia|]. eapply localeCompare_trans; eassumption.
Qed.

(** C6: with a collation that is a consistent comparison, the result of
    sortFilesByPriority is a permutation of the input; of two files of
    the result, the later one never denotes the entry point unless the
    earlier one does, and when both or neither denote it, the earlier one
    has at most the depth of the later one and, at equal depth, a path
    that localeCompare puts first or level; files that the comparator
    holds equal keep the order they had in the input. *)
Theorem C6_sort_by_priority (files : list FileMeta) :
  let sorted := sortFilesByPriority toLowerCase localeCompare files in
  Permutation files sorted /\
  (forall l1 a l2 b,
      sorted = l1 ++ a :: l2 -> In b l2 ->
      (main b = true -> main a = true) /\
      (main a = main b ->
       (depth a <= depth b)%nat /\
       (depth a = depth b -> localeCompare (path a) (path b) <= 0))) /\
  (forall w,
      filter (fun f => cmp w f =? 0) sorted
      = filter (fun f => cmp w f =? 0) files).
Proof.
  cbv zeta. unfold sortFilesByPriority. fold cmp.
  split; [apply sort_perm|]. split.
  - intros l1 a l2 b E Hb.
    assert (H : cmp a b <= 0).
    { eapply sorted_pair with (cmp := cmp);
        [apply sort_sorted; [exact cmp_flip | exact cmp_trans] | exact E | exact Hb]. }
    apply cmp_le in H.
    destruct H as [[H1 H2] | [H1 [H2 | [H2 H3]]]].
    + split; [intros; exact H1|]. intros; congruence.
    + split; [congruence|]. intros _. split; lia.
    + split; [congruence|]. intros _. split; [lia|]. intros _. exact H3.
  - intros w. apply sort_stable; [exact cmp_flip | exact cmp_trans].
Qed.

End Priority.

Lemma compareUnits_flip a : forall b,
  0 < compareUnits a b <-> compareUnits b a < 0.
Proof.
  induction a as [|x a IH]; intros [|y b]; simpl; try lia.
  destruct (x <? y)%N eqn:L1; destruct (y <? x)%N eqn:L2; try lia.
  - apply N.ltb_lt in L1, L2. lia.
  - apply IH.
Qed.

Lemma compareUnits_trans a : forall b c,
  compareUnits a b <= 0 -> compareUnits b c <= 0 -> compareUnits a c <= 0.
Proof.
  induction a as [|x a IH]; intros [|y b] [|z c]; simpl; try lia.
  destruct (x <? y)%N eqn:L1; destruct (y <? x)%N eqn:L2;
    destruct (y <? z)%N eqn:L3; destruct (z <? y)%N eqn:L4;
    destruct (x <? z)%N eqn:L5; destruct (z <? x)%N eqn:L6;
    try lia;
    repeat match goal with
           | H : (_ <? _)%N = true |- _ => apply N.ltb_lt in H
           | H : (_ <? _)%N = false |- _ => apply N.ltb_ge in H
           end; try lia.
  apply IH.
Qed.

(** The main file comes first, then the files at the root by their
    paths, then the file one directory down. *)
Example example_priority :
  map path (sortFilesByPriority asciiLower compareUnits example_tree)
  = [lit "pkg/main.py"; lit "a.py"; lit "b.py"; lit "pkg/util.py"].
Proof. vm_compute. reflexivity. Qed.

Lemma C6_sort_by_priority_witness :
  Permutation example_tree
    (sortFilesByPriority asciiLower compareUnits example_tree).
Proof.
  exact (proj1 (C6_sort_by_priority asciiLower compareUnits
                  compareUnits_flip compareUnits_trans example_tree)).
Defined.

End PrioritizerFacts.

(** ** Batch review and result combiner *)

Module CombinerFacts.
Import Planner Combiner CombinerDefs JSFacts.








End CombinerFacts.

(** ** Regular expressions *)

Module RegexFacts.
Import Regex RegexDefs JSFacts.

Lemma takeWhile_dropWhile p s : takeWhile p s ++ dropWhile p s = s.
Proof.
  induction s as [|c t IH]; simpl; [reflexivity|].
  destruct (p c); simpl; [rewrite IH|]; reflexivity.
Qed.

Lemma prepend_nil x : prepend [] x = x.
Proof. destruct x. reflexivity. Qed.

Lemma map_prepend_nil l : map (prepend []) l = l.
Proof.
  induction l as [|x l IH]; simpl; [reflexivity|].
  rewrite prepend_nil, IH. reflexivity.
Qed.

Lemma prepend_prepend a b x : prepend a (prepend b x) = prepend (a ++ b) x.
Proof. destruct x. simpl. rewrite app_assoc. reflexivity. Qed.

Lemma map_prepend_prepend a b l :
  map (prepend a) (map (prepend b) l) = map (prepend (a ++ b)) l.
Proof.
  rewrite map_map. apply map_ext. intros x. apply prepend_prepend.
Qed.

Lemma ends_seq a b s :
  ends (Seq a b) s
  = flat_map (fun x => map (prepend (fst x)) (ends b (snd x))) (ends a s).
Proof.
  simpl. apply flat_map_ext. intros [m1 s1]. reflexivity.
Qed.

Lemma flat_map_map_prepend (F : jsstring * jsstring -> list (jsstring * jsstring)) m l :
  (forall x, F (prepend m x) = map (prepend m) (F x)) ->
  flat_map F (map (prepend m) l) = map (prepend m) (flat_map F l).
Proof.
  intros H. induction l as [|x l IH]; simpl; [reflexivity|].
  rewrite map_app, H, IH. reflexivity.
Qed.

Lemma star_ends_chr p : forall fuel s,
  length s <= fuel -> star_ends (ends (Chr p)) fuel s = star_list p s.
Proof.
  induction fuel as [|n IH]; intros s Hs.
  - destruct s; [reflexivity | simpl in Hs; lia].
  - destruct s as [|c t]; [reflexivity|].
    simpl in Hs. cbn [star_ends ends star_list].
    destruct (p c); [|reflexivity].
    cbn [flat_map]. rewrite app_nil_r.
    replace (length t <? length (c :: t)) with true
      by (symmetry; apply Nat.ltb_lt; simpl; lia).
    rewrite IH by lia. reflexivity.
Qed.

Lemma ends_star_chr p s : ends (Star (Chr p)) s = star_list p s.
Proof. apply star_ends_chr. lia. Qed.

(** A starred class gives nothing back when what follows it cannot start
    with a character of the class. *)
Lemma ends_star_possessive p b s :
  (forall c t, p c = true -> ends b (c :: t) = []) ->
  ends (Seq (Star (Chr p)) b) s
  = map (prepend (takeWhile p s)) (ends b (dropWhile p s)).
Proof.
  intros Hb. rewrite ends_seq, ends_star_chr.
  induction s as [|c t IH]; cbn [star_list takeWhile dropWhile].
  - simpl. rewrite app_nil_r. reflexivity.
  - destruct (p c) eqn:P.
    + rewrite flat_map_app. cbn [flat_map fst snd].
      rewrite (Hb c t P). cbn [map]. rewrite !app_nil_r.
      rewrite flat_map_map_prepend.
      * rewrite IH, map_prepend_prepend. reflexivity.
      * intros [m s1]. cbn [prepend fst snd].
        rewrite map_prepend_prepend. reflexivity.
    + simpl. rewrite app_nil_r. reflexivity.
Qed.

Lemma ends_seq_chr p b s :
  ends (Seq (Chr p) b) s
  = match s with
    | c :: t => if p c then map (prepend [c]) (ends b t) else []
    | [] => []
    end.
Proof.
  rewrite ends_seq. destruct s as [|c t]; [reflexivity|].
  cbn [ends]. destruct (p c); [|reflexivity].
  cbn [flat_map fst snd]. apply app_nil_r.
Qed.

Lemma ends_seq_assoc a b c s :
  ends (Seq (Seq a b) c) s = ends (Seq a (Seq b c)) s.
Proof.
  rewrite (ends_seq (Seq a b) c), (ends_seq a b), (ends_seq a (Seq b c)).
  induction (ends a s) as [|[m1 s1] l IH]; [reflexivity|].
  cbn [flat_map fst snd]. rewrite flat_map_app, IH. f_equal.
  rewrite ends_seq.
  rewrite flat_map_map_prepend.
  - reflexivity.
  - intros [m2 s2]. cbn [prepend fst snd].
    rewrite map_prepend_prepend. reflexivity.
Qed.

Lemma ends_seq_eps b s : ends (Seq Eps b) s = ends b s.
Proof.
  rewrite ends_seq. cbn [ends flat_map fst snd].
  rewrite app_nil_r. apply map_prepend_nil.
Qed.

Lemma ends_seq_lit l b : forall s,
  ends (Seq (Lit l) b) s
  = if startsWith l s then map (prepend l) (ends b (skipn (length l) s)) else [].
Proof.
  induction l as [|c l IH]; intros s.
  - cbn [Lit startsWith length skipn]. rewrite ends_seq_eps.
    symmetry. apply map_prepend_nil.
  - cbn [Lit]. rewrite ends_seq_assoc, ends_seq_chr.
    destruct s as [|x t]; [reflexivity|].
    cbn [startsWith length skipn].
    destruct (char_eqb c x) eqn:E; [|reflexivity].
    apply char_eqb_eq in E. subst x. cbn [andb].
    rewrite IH. destruct (startsWith l t); [|reflexivity].
    apply map_prepend_prepend.
Qed.

Lemma ends_seq_eps_r a s : ends (Seq a Eps) s = ends a s.
Proof.
  rewrite ends_seq. induction (ends a s) as [|[m e] l IH]; [reflexivity|].
  cbn [flat_map]. rewrite IH. cbn [ends map prepend fst snd app].
  rewrite app_nil_r. reflexivity.
Qed.

Lemma ends_lit l s :
  ends (Lit l) s = if startsWith l s then [(l, skipn (length l) s)] else [].
Proof.
  rewrite <- ends_seq_eps_r, ends_seq_lit.
  destruct (startsWith l s); [|reflexivity].
  cbn [ends map prepend]. rewrite app_nil_r. reflexivity.
Qed.

(** *** Patterns with at most one match at a place *)

Lemma det_chr p : det (Chr p) (one p).
Proof. intros [|c t]; simpl; [reflexivity|]. destruct (p c); reflexivity. Qed.

Lemma det_lit l : det (Lit l) (text l).
Proof. intros s. rewrite ends_lit. unfold text. destruct (startsWith l s); reflexivity. Qed.

Lemma det_seq a b f g : det a f -> det b g -> det (Seq a b) (then_ f g).
Proof.
  intros Ha Hb s. rewrite ends_seq, Ha. unfold then_.
  destruct (f s) as [[m1 s1]|]; [|reflexivity].
  cbn [flat_map fst snd]. rewrite Hb, app_nil_r.
  destruct (g s1) as [[m2 s2]|]; reflexivity.
Qed.

Lemma det_star p b g :
  det b g -> (forall c t, p c = true -> g (c :: t) = None) ->
  det (Seq (Star (Chr p)) b) (many p g).
Proof.
  intros Hb Hg s. rewrite ends_star_possessive.
  - rewrite Hb. unfold many. destruct (g (dropWhile p s)) as [[m e]|]; reflexivity.
  - intros c t P. rewrite Hb, (Hg c t P). reflexivity.
Qed.

Lemma exec_at_det r f s : det r f -> exec_at r s = f s.
Proof.
  intros H. unfold exec_at. rewrite H. destruct (f s); reflexivity.
Qed.

Lemma exec3_at_det a m b fa fm fb s :
  det a fa -> det m fm -> det b fb ->
  exec3_at a m b s
  = match fa s with
    | Some (m1, s1) =>
      match fm s1 with
      | Some (m2, s2) =>
        match fb s2 with
        | Some (m3, s3) => Some (m1, m2, m3, s3)
        | None => None
        end
      | None => None
      end
    | None => None
    end.
Proof.
  intros Ha Hm Hb. unfold exec3_at. rewrite Ha.
  destruct (fa s) as [[m1 s1]|]; [|reflexivity].
  cbn [flat_map]. rewrite Hm, app_nil_r.
  destruct (fm s1) as [[m2 s2]|]; [|reflexivity].
  cbn [flat_map]. rewrite Hb, app_nil_r.
  destruct (fb s2) as [[m3 s3]|]; reflexivity.
Qed.

(** *** Patterns that always match *)

Lemma total_star_chr p : total (Star (Chr p)).
Proof.
  intros s. rewrite ends_star_chr. destruct s as [|c t]; simpl; [discriminate|].
  destruct (p c); [|discriminate].
  intros H. apply app_eq_nil in H. destruct H; discriminate.
Qed.

Lemma total_opt r : total (Opt r).
Proof.
  intros s. unfold Opt. cbn [ends]. intros H.
  apply app_eq_nil in H. destruct H; discriminate.
Qed.

Lemma total_seq a b : total a -> total b -> total (Seq a b).
Proof.
  intros Ha Hb s. rewrite ends_seq.
  destruct (ends a s) as [|[m1 s1] l] eqn:E; [destruct (Ha s E)|].
  cbn [flat_map fst snd]. intros H. apply app_eq_nil in H. destruct H as [H _].
  apply map_eq_nil in H. exact (Hb s1 H).
Qed.

(** *** The walk of a global replacement *)

Lemma search_none find s :
  search find s = None <-> forall i, find (skipn i s) = None.
Proof.
  induction s as [|c t IH]; cbn [search].
  - destruct (find []) as [[m r]|] eqn:E.
    + split; [discriminate|]. intros H. specialize (H 0). simpl in H. congruence.
    + split; [|reflexivity]. intros _ i. rewrite skipn_nil. exact E.
  - destruct (find (c :: t)) as [[m r]|] eqn:E.
    + split; [discriminate|]. intros H. specialize (H 0). simpl in H. congruence.
    + destruct (search find t) as [[[pre m] r]|] eqn:Es.
      * split; [discriminate|]. intros H.
        assert (N : Some (pre, m, r) = None)
          by (apply IH; intros i; exact (H (S i))).
        discriminate.
      * split; [|reflexivity]. intros _ [|i]; [exact E|].
        simpl. apply IH. reflexivity.
Qed.

Lemma test_false r s :
  test r s = false <-> forall i, ends r (skipn i s) = [].
Proof.
  unfold test.
  destruct (search (exec_at r) s) as [x|] eqn:E.
  - split; [discriminate|]. intros H.
    assert (N : search (exec_at r) s = None).
    { apply search_none. intros i. unfold exec_at. rewrite H. reflexivity. }
    congruence.
  - split; [|reflexivity]. intros _ i.
    rewrite search_none in E. specialize (E i). unfold exec_at in E.
    destruct (ends r (skipn i s)); [reflexivity | discriminate].
Qed.

(** Where nothing matches, the walk copies the text. *)
Lemma replace_loop_skip find pre : forall fuel s,
  (forall i, i < length pre -> find (skipn i pre ++ s) = None) ->
  replace_loop find (length pre + fuel) (pre ++ s)
  = pre ++ replace_loop find fuel s.
Proof.
  induction pre as [|c pre IH]; intros fuel s H; [reflexivity|].
  cbn [length Nat.add app replace_loop].
  assert (H0 : find (c :: pre ++ s) = None) by (apply (H 0); simpl; lia).
  rewrite H0.
  f_equal. apply IH. intros i Hi. apply (H (S i)). simpl. lia.
Qed.

Lemma count_loop_skip find pre : forall fuel s,
  (forall i, i < length pre -> find (skipn i pre ++ s) = None) ->
  count_loop find (length pre + fuel) (pre ++ s) = count_loop find fuel s.
Proof.
  induction pre as [|c pre IH]; intros fuel s H; [reflexivity|].
  cbn [length Nat.add app count_loop].
  assert (H0 : find (c :: pre ++ s) = None) by (apply (H 0); simpl; lia).
  rewrite H0.
  apply IH. intros i Hi. apply (H (S i)). simpl. lia.
Qed.

End RegexFacts.

(** ** The pattern of a checked box *)

Module CheckboxFacts.
Import Regex Combiner Orchestrator RegexDefs CheckboxDefs JSFacts RegexFacts.

Lemma RESUBMIT_units :
  RESUBMIT = [37325; 26032; 25552; 20132; 23457; 26680]%N.
Proof. vm_compute. reflexivity. Qed.

Lemma text_RESUBMIT_blank c t :
  isWhiteSpace c = true -> text RESUBMIT (c :: t) = None.
Proof.
  intros W. unfold text. rewrite RESUBMIT_units. cbn [startsWith].
  destruct (char_eqb 37325%N c) eqn:E; [|reflexivity].
  apply char_eqb_eq in E. subst c. discriminate.
Qed.

Lemma one_LB_blank c t : isWhiteSpace c = true -> one LB (c :: t) = None.
Proof.
  intros W. unfold one, LB. destruct (char_eqb 91%N c) eqn:E; [|reflexivity].
  apply char_eqb_eq in E. subst c. discriminate.
Qed.

Lemma box_blank c t : isWhiteSpace c = true -> box (c :: t) = None.
Proof.
  intros W. unfold box, then_. rewrite (one_LB_blank c t W). reflexivity.
Qed.

Lemma det_close :
  det CHECKED_CLOSE (then_ (one RB) (many isWhiteSpace (text RESUBMIT))).
Proof.
  unfold CHECKED_CLOSE, seq, ws. apply det_seq; [apply det_chr|].
  apply det_star; [apply det_lit | exact text_RESUBMIT_blank].
Qed.

Lemma det_open :
  det CHECKED_OPEN (then_ (one isC) (many isWhiteSpace (one LB))).
Proof.
  unfold CHECKED_OPEN, seq, ws. apply det_seq; [apply det_chr|].
  apply det_star; [apply det_chr | exact one_LB_blank].
Qed.

Lemma det_mark : det CHECKED_MARK (one isX).
Proof. apply det_chr. Qed.

Lemma det_checked : det CHECKED_BOX checked.
Proof.
  unfold CHECKED_BOX, seq, ws, checked, box.
  apply det_seq; [apply det_chr|].
  apply det_star; [|exact box_blank].
  apply det_seq; [apply det_chr|].
  apply det_seq; [apply det_chr|].
  apply det_seq; [apply det_chr|].
  apply det_star; [apply det_lit | exact text_RESUBMIT_blank].
Qed.

Lemma uncheck_box_parse s : uncheck_box s = parse s.
Proof.
  unfold uncheck_box.
  rewrite (exec3_at_det _ _ _ _ _ _ s det_open det_mark det_close).
  unfold then_, one, many, text, parse.
  destruct s as [|c t]; [reflexivity|].
  destruct (isC c); [|reflexivity].
  destruct (dropWhile isWhiteSpace t) as [|b [|x [|d t4]]]; try reflexivity;
    destruct (LB b); try reflexivity; cbn [andb];
    destruct (isX x); try reflexivity; cbn [andb].
  destruct (RB d); [|reflexivity]. cbn [andb].
  destruct (startsWith RESUBMIT (dropWhile isWhiteSpace t4)); [|reflexivity].
  f_equal. f_equal. cbn [app]. f_equal.
  rewrite <- !app_assoc. reflexivity.
Qed.

Lemma checked_hit s : ends CHECKED_BOX s = [] <-> hit s = false.
Proof.
  rewrite det_checked. unfold hit, checked, box, then_, one, many, text, parse.
  destruct s as [|c t]; [tauto|].
  destruct (isC c); [|tauto].
  destruct (dropWhile isWhiteSpace t) as [|b [|x [|d t4]]];
    try tauto;
    destruct (LB b); try tauto; cbn [andb];
    destruct (isX x); try tauto; cbn [andb].
  destruct (RB d); [|tauto]. cbn [andb].
  destruct (startsWith RESUBMIT (dropWhile isWhiteSpace t4)); [|tauto].
  split; discriminate.
Qed.

Lemma parse_notC c t : isC c = false -> parse (c :: t) = None.
Proof. intros H. simpl. rewrite H. reflexivity. Qed.

Lemma takeWhile_all p s : Forall (fun c => p c = true) (takeWhile p s).
Proof.
  induction s as [|c t IH]; simpl; [constructor|].
  destruct (p c) eqn:P; constructor; assumption.
Qed.

Lemma dropWhile_takeWhile p s b z :
  p b = false -> dropWhile p (takeWhile p s ++ b :: z) = b :: z.
Proof.
  intros Pb. induction s as [|c t IH]; simpl.
  - rewrite Pb. reflexivity.
  - destruct (p c) eqn:P; simpl; [rewrite P; exact IH | rewrite Pb; reflexivity].
Qed.

Lemma blank_notC c : isWhiteSpace c = true -> isC c = false.
Proof.
  intros W. unfold isC. vm_compute (lit "-*"). cbn [existsb].
  destruct (char_eqb c 45%N) eqn:E1; [apply char_eqb_eq in E1; subst; discriminate|].
  destruct (char_eqb c 42%N) eqn:E2; [apply char_eqb_eq in E2; subst; discriminate|].
  reflexivity.
Qed.

(** What [parse] finds, the rest is shorter, the replacement starts as
    the text does, has no other place where a box could start, and is
    not itself a checked box whatever follows it. *)
Lemma parse_some s r rest :
  parse s = Some (r, rest) ->
  length rest < length s /\
  (exists c r' t, s = c :: t /\ r = c :: r' /\
                  Forall (fun x => isC x = false) r') /\
  (forall z, hit (r ++ z) = false).
Proof.
  unfold parse. destruct s as [|c t]; [discriminate|].
  destruct (isC c) eqn:C; [|discriminate].
  destruct (dropWhile isWhiteSpace t) as [|b [|x [|d t4]]] eqn:D; try discriminate.
  destruct (LB b) eqn:Eb; [|discriminate]. cbn [andb].
  destruct (isX x) eqn:Ex; [|discriminate]. cbn [andb].
  destruct (RB d) eqn:Ed; [|discriminate]. cbn [andb].
  destruct (startsWith RESUBMIT (dropWhile isWhiteSpace t4)) eqn:St; [|discriminate].
  intros H.
  assert (Hr : r = c :: takeWhile isWhiteSpace t ++ [b; 32%N; d]
                     ++ takeWhile isWhiteSpace t4 ++ RESUBMIT) by congruence.
  assert (Hrest : rest = skipn (length RESUBMIT) (dropWhile isWhiteSpace t4))
    by congruence.
  clear H. subst r rest.
  unfold LB, RB in Eb, Ed.
  apply char_eqb_eq in Eb, Ed. subst b d.
  split; [|split].
  - pose proof (takeWhile_dropWhile isWhiteSpace t) as T1.
    pose proof (takeWhile_dropWhile isWhiteSpace t4) as T2.
    rewrite D in T1.
    apply (f_equal (@length char)) in T1, T2.
    rewrite length_app in T1, T2. rewrite length_skipn.
    cbn [length] in T1 |- *. lia.
  - exists c, (takeWhile isWhiteSpace t ++ [91; 32; 93]%N
                 ++ takeWhile isWhiteSpace t4 ++ RESUBMIT), t.
    split; [reflexivity|]. split; [reflexivity|].
    apply Forall_app. split.
    + eapply Forall_impl; [|apply takeWhile_all]. exact blank_notC.
    + apply Forall_app. split; [repeat constructor|].
      apply Forall_app. split.
      * eapply Forall_impl; [|apply takeWhile_all]. exact blank_notC.
      * rewrite RESUBMIT_units. repeat constructor.
  - intros z. unfold hit, parse. cbn [app]. rewrite C.
    rewrite <- app_assoc. cbn [app].
    rewrite dropWhile_takeWhile by reflexivity.
    reflexivity.
Qed.

Lemma replace_loop_fuel find :
  (forall s r rest, find s = Some (r, rest) -> length rest <= length s) ->
  forall f1 f2 s, length s < f1 -> length s < f2 ->
                  replace_loop find f1 s = replace_loop find f2 s.
Proof.
  intros Hf. induction f1 as [|n1 IH]; intros f2 s H1 H2; [lia|].
  destruct f2 as [|n2]; [lia|]. cbn [replace_loop].
  destruct (find s) as [[r rest]|] eqn:E.
  - pose proof (Hf s r rest E) as Hl.
    destruct (length rest <? length s) eqn:L.
    + apply Nat.ltb_lt in L. f_equal. apply IH; lia.
    + destruct s as [|c t]; [reflexivity|]. f_equal. f_equal.
      simpl in H1, H2. apply IH; lia.
  - destruct s as [|c t]; [reflexivity|]. f_equal.
    simpl in H1, H2. apply IH; lia.
Qed.

Lemma unchecked_nil : unchecked [] = [].
Proof. reflexivity. Qed.

Lemma unchecked_miss c t :
  parse (c :: t) = None -> unchecked (c :: t) = c :: unchecked t.
Proof.
  intros H. unfold unchecked, replace_g. cbn [length replace_loop].
  rewrite uncheck_box_parse, H. reflexivity.
Qed.

Lemma unchecked_hit s r rest :
  parse s = Some (r, rest) -> unchecked s = r ++ unchecked rest.
Proof.
  intros H. destruct (parse_some s r rest H) as (Hl & _ & _).
  unfold unchecked, replace_g.
  set (R := replace_loop uncheck_box (S (length rest)) rest).
  cbn [replace_loop].
  rewrite uncheck_box_parse, H.
  replace (length rest <? length s) with true
    by (symmetry; apply Nat.ltb_lt; exact Hl).
  f_equal. subst R. apply replace_loop_fuel; try lia.
  intros s' r' rest' E. rewrite uncheck_box_parse in E.
  apply parse_some in E. lia.
Qed.

Lemma unchecked_head s :
  match s with
  | [] => unchecked s = []
  | c :: _ => exists u, unchecked s = c :: u
  end.
Proof.
  destruct s as [|c t]; [reflexivity|].
  destruct (parse (c :: t)) as [[r rest]|] eqn:E.
  - rewrite (unchecked_hit _ _ _ E).
    destruct (parse_some _ _ _ E) as (_ & (c' & r' & t' & Hs & Hr & _) & _).
    injection Hs as <- <-. subst r. eexists. reflexivity.
  - rewrite (unchecked_miss _ _ E). eexists. reflexivity.
Qed.

Lemma unchecked_notC c t :
  isC c = false -> unchecked (c :: t) = c :: unchecked t.
Proof. intros H. apply unchecked_miss, parse_notC, H. Qed.

Lemma dropWhile_unchecked t :
  dropWhile isWhiteSpace (unchecked t) = unchecked (dropWhile isWhiteSpace t).
Proof.
  induction t as [|c t IH]; [reflexivity|].
  cbn [dropWhile]. destruct (isWhiteSpace c) eqn:W.
  - rewrite unchecked_notC by (apply blank_notC; exact W).
    cbn [dropWhile]. rewrite W. exact IH.
  - destruct (unchecked_head (c :: t)) as [u Hu]. rewrite Hu.
    cbn [dropWhile]. rewrite W. reflexivity.
Qed.

Lemma startsWith_unchecked l : forall v,
  Forall (fun x => isC x = false) l ->
  startsWith l (unchecked v) = startsWith l v.
Proof.
  induction l as [|a l IH]; intros v Hl; [reflexivity|].
  inversion Hl as [|a' l' Ha Hl']; subst.
  destruct v as [|c v]; [reflexivity|].
  destruct (char_eqb a c) eqn:E.
  - apply char_eqb_eq in E. subst c.
    rewrite unchecked_notC by exact Ha.
    cbn [startsWith]. rewrite IH by exact Hl'. reflexivity.
  - destruct (unchecked_head (c :: v)) as [u Hu]. rewrite Hu.
    cbn [startsWith]. rewrite E. reflexivity.
Qed.

Lemma hit_boxb c t : hit (c :: t) = isC c && boxb (dropWhile isWhiteSpace t).
Proof.
  unfold hit, parse, boxb. destruct (isC c); [|reflexivity]. cbn [andb].
  destruct (dropWhile isWhiteSpace t) as [|b [|x [|d t4]]]; try reflexivity.
  destruct (LB b && isX x && RB d
            && startsWith RESUBMIT (dropWhile isWhiteSpace t4)); reflexivity.
Qed.

Lemma LB_notC b : LB b = true -> isC b = false.
Proof. unfold LB. intros H. apply char_eqb_eq in H. subst b. reflexivity. Qed.

Lemma RB_notC b : RB b = true -> isC b = false.
Proof. unfold RB. intros H. apply char_eqb_eq in H. subst b. reflexivity. Qed.

Lemma isX_notC x : isX x = true -> isC x = false.
Proof.
  unfold isX. vm_compute (lit "xX"). cbn [existsb]. intros H.
  apply orb_true_iff in H. destruct H as [H | H].
  - apply char_eqb_eq in H. subst x. reflexivity.
  - rewrite orb_false_r in H. apply char_eqb_eq in H. subst x. reflexivity.
Qed.

Lemma boxb_unchecked v : boxb (unchecked v) = true -> boxb v = true.
Proof.
  destruct v as [|b v]; [rewrite unchecked_nil; discriminate|].
  destruct (unchecked_head (b :: v)) as [u Hu].
  intros H. rewrite Hu in H.
  assert (Hb : LB b = true).
  { destruct u as [|? [|? ?]]; cbn [boxb] in H; try discriminate.
    destruct (LB b); [reflexivity | discriminate]. }
  rewrite unchecked_notC in Hu by (apply LB_notC; exact Hb).
  injection Hu as <-.
  destruct v as [|x v]; [rewrite unchecked_nil in H; discriminate|].
  destruct (unchecked_head (x :: v)) as [u Hu]. rewrite Hu in H.
  assert (Hx : isX x = true).
  { destruct u as [|? ?]; cbn [boxb] in H; try discriminate.
    rewrite Hb in H. destruct (isX x); [reflexivity | discriminate]. }
  rewrite unchecked_notC in Hu by (apply isX_notC; exact Hx).
  injection Hu as <-.
  destruct v as [|d v]; [rewrite unchecked_nil in H; discriminate|].
  destruct (unchecked_head (d :: v)) as [u Hu]. rewrite Hu in H.
  cbn [boxb] in H. rewrite Hb, Hx in H. cbn [andb] in H.
  assert (Hd : RB d = true) by (destruct (RB d); [reflexivity | discriminate]).
  rewrite unchecked_notC in Hu by (apply RB_notC; exact Hd).
  injection Hu as <-.
  rewrite Hd in H. cbn [andb] in H.
  rewrite dropWhile_unchecked, startsWith_unchecked in H
    by (rewrite RESUBMIT_units; repeat constructor).
  cbn [boxb]. rewrite Hb, Hx, Hd, H. reflexivity.
Qed.

Lemma hit_unchecked_cons c t :
  hit (c :: t) = false -> hit (c :: unchecked t) = false.
Proof.
  rewrite !hit_boxb, dropWhile_unchecked. intros H.
  destruct (isC c); [|reflexivity]. cbn [andb] in *.
  destruct (boxb (unchecked (dropWhile isWhiteSpace t))) eqn:B; [|reflexivity].
  apply boxb_unchecked in B. congruence.
Qed.

Lemma hit_notC_prefix pre z :
  Forall (fun x => isC x = false) pre ->
  forall i, i < length pre -> hit (skipn i pre ++ z) = false.
Proof.
  induction 1 as [|c pre Hc Hpre IH]; intros i Hi; [simpl in Hi; lia|].
  destruct i as [|i].
  - cbn [skipn app]. unfold hit. rewrite parse_notC by exact Hc. reflexivity.
  - cbn [skipn]. apply IH. simpl in Hi. lia.
Qed.

(** No checked box is left anywhere in the unchecked text. *)
Lemma unchecked_no_hit : forall n s,
  length s <= n -> forall i, hit (skipn i (unchecked s)) = false.
Proof.
  induction n as [|n IH]; intros s Hn i.
  - destruct s; [|simpl in Hn; lia]. rewrite unchecked_nil, skipn_nil. reflexivity.
  - destruct s as [|c t]; [rewrite unchecked_nil, skipn_nil; reflexivity|].
    simpl in Hn.
    destruct (parse (c :: t)) as [[r rest]|] eqn:E.
    + rewrite (unchecked_hit _ _ _ E).
      destruct (parse_some _ _ _ E) as (Hl & (c' & r' & t' & Hs & Hr & Hall) & Hz).
      simpl in Hl.
      destruct (Nat.lt_ge_cases i (length r)) as [Hi | Hi].
      * rewrite skipn_app.
        replace (i - length r) with 0 by lia. cbn [skipn].
        destruct i as [|i]; [cbn [skipn]; apply Hz|].
        subst r. cbn [skipn]. apply hit_notC_prefix; [exact Hall|].
        simpl in Hi. lia.
      * rewrite skipn_app, (skipn_all2 r) by lia. cbn [app].
        apply IH. lia.
    + rewrite (unchecked_miss _ _ E). destruct i as [|i].
      * cbn [skipn]. apply hit_unchecked_cons. unfold hit. rewrite E. reflexivity.
      * cbn [skipn]. apply IH. lia.
Qed.


End CheckboxFacts.

(** ** The pattern of the section *)

Module SectionFacts.
Import Regex Combiner Orchestrator RegexDefs SectionDefs JSFacts RegexFacts.

Lemma OPTIONS_units : OPTIONS = [23457; 26680; 36873; 39033]%N.
Proof. vm_compute. reflexivity. Qed.

Lemma HASHES_units : HASHES = [35; 35]%N.
Proof. vm_compute. reflexivity. Qed.

Lemma map_prepend_nil_iff m (l : list (jsstring * jsstring)) :
  map (prepend m) l = [] <-> l = [].
Proof. destruct l; simpl; split; congruence. Qed.

Lemma section_nil s : ends reReviewSectionRegex s = [] <-> heading s = false.
Proof.
  unfold reReviewSectionRegex, seq, ws, heading. fold isNL. fold HASHES.
  rewrite ends_star_possessive.
  2:{ intros c t Hc. rewrite ends_seq_lit, HASHES_units. cbn [startsWith].
      unfold isNL in Hc. apply char_eqb_eq in Hc. subst c. reflexivity. }
  rewrite map_prepend_nil_iff, ends_seq_lit.
  destruct (startsWith HASHES (dropWhile isNL s)); [|tauto].
  cbn [andb]. rewrite map_prepend_nil_iff.
  replace (length HASHES) with 2 by reflexivity.
  rewrite ends_star_possessive.
  2:{ intros c t Hc. rewrite ends_seq_lit, OPTIONS_units. cbn [startsWith].
      destruct (char_eqb 23457%N c) eqn:E; [|reflexivity].
      apply char_eqb_eq in E. subst c. discriminate. }
  rewrite map_prepend_nil_iff, ends_seq_lit.
  destruct (startsWith OPTIONS _); [|tauto].
  rewrite map_prepend_nil_iff. split; [|discriminate].
  intros H. exfalso. revert H.
  apply total_seq; [apply total_star_chr | apply total_opt].
Qed.

Lemma solid_tail c t : solid (c :: t) = true -> t = [] \/ solid t = true.
Proof. destruct t; [left; reflexivity | right; assumption]. Qed.

Lemma solid_skipn t : forall i, solid t = true -> i < length t -> solid (skipn i t) = true.
Proof.
  induction t as [|c t IH]; intros i Hs Hi; [discriminate|].
  destruct i as [|i]; [exact Hs|].
  cbn [skipn]. simpl in Hi.
  destruct (solid_tail c t Hs) as [-> | Ht]; [simpl in Hi; lia|].
  apply IH; [exact Ht | lia].
Qed.

Lemma solid_dropWhile p t x :
  (forall c, p c = true -> isWhiteSpace c = true) ->
  solid t = true ->
  solid (dropWhile p t) = true /\
  dropWhile p (t ++ x) = dropWhile p t ++ x.
Proof.
  intros Hp. induction t as [|c t IH]; intros Hs; [discriminate|].
  cbn [dropWhile app]. destruct (p c) eqn:P.
  - destruct (solid_tail c t Hs) as [-> | Ht].
    + simpl in Hs. rewrite (Hp c P) in Hs. discriminate.
    + apply IH. exact Ht.
  - split; [exact Hs | reflexivity].
Qed.

Lemma startsWith_app_blank l : forall t x,
  l <> [] -> Forall (fun a => isWhiteSpace a = false) l -> blank x ->
  startsWith l (t ++ x) = startsWith l t.
Proof.
  induction l as [|a l IH]; intros t x Hne Hl Hx; [congruence|].
  inversion Hl as [|a' l' Ha Hl']; subst.
  destruct t as [|c t].
  - cbn [app startsWith]. destruct x as [|c x]; [reflexivity|].
    simpl in Hx. destruct (char_eqb a c) eqn:E; [|reflexivity].
    apply char_eqb_eq in E. subst c. congruence.
  - cbn [app startsWith]. destruct l as [|b l]; [reflexivity|].
    rewrite IH; [reflexivity | discriminate | exact Hl' | exact Hx].
Qed.

Lemma isNL_blank c : isNL c = true -> isWhiteSpace c = true.
Proof. unfold isNL. intros H. apply char_eqb_eq in H. subst c. reflexivity. Qed.

(** Whether the heading starts a solid text does not depend on a blank
    text that follows it. *)
Lemma heading_app t x :
  solid t = true -> blank x ->
  startsWith OPTIONS (dropWhile isWhiteSpace x) = false ->
  heading (t ++ x) = heading t.
Proof.
  intros Hs Hx Ho. unfold heading.
  destruct (solid_dropWhile isNL t x isNL_blank Hs) as [Hs1 E1].
  rewrite E1. clear E1. revert Hs1.
  generalize (dropWhile isNL t) as t1. intros t1 Hs1.
  rewrite startsWith_app_blank;
    [|rewrite HASHES_units; discriminate
     |rewrite HASHES_units; repeat constructor
     |exact Hx].
  destruct (startsWith HASHES t1) eqn:S1; [|reflexivity]. cbn [andb].
  rewrite HASHES_units in S1.
  destruct t1 as [|h1 [|h2 t2]]; cbn [startsWith] in S1; try discriminate;
    [rewrite andb_false_r in S1; discriminate|].
  cbn [app skipn].
  destruct (solid_tail h1 (h2 :: t2) Hs1) as [? | Hs2]; [discriminate|].
  destruct (solid_tail h2 t2 Hs2) as [-> | Hs3].
  - cbn [app dropWhile]. rewrite Ho. rewrite OPTIONS_units. reflexivity.
  - destruct (solid_dropWhile isWhiteSpace t2 x (fun c H => H) Hs3) as [_ E3].
    rewrite E3. apply startsWith_app_blank;
      [rewrite OPTIONS_units; discriminate
      |rewrite OPTIONS_units; repeat constructor
      |exact Hx].
Qed.

Lemma trimStart_dropWhile s : trimStart s = dropWhile isWhiteSpace s.
Proof.
  induction s as [|c t IH]; simpl; [reflexivity|].
  destruct (isWhiteSpace c); [exact IH | reflexivity].
Qed.

Lemma trimStart_no_lead s : no_lead (trimStart s).
Proof.
  induction s as [|c t IH]; simpl; [exact I|].
  destruct (isWhiteSpace c) eqn:W; [exact IH | exact W].
Qed.

Lemma trimStart_fix v : no_lead v -> trimStart v = v.
Proof. destruct v as [|c t]; simpl; [reflexivity|]. intros ->. reflexivity. Qed.

Lemma trimEnd_no_lead u : no_lead u -> no_lead (trimEnd u).
Proof.
  destruct u as [|c t]; [exact (fun H => H)|].
  simpl. intros W. destruct (trimEnd t); [rewrite W|]; exact W.
Qed.

Lemma trim_idem s : trim (trim s) = trim s.
Proof.
  unfold trim. rewrite (trimStart_fix (trimEnd (trimStart s))).
  - apply trimEnd_idem.
  - apply trimEnd_no_lead, trimStart_no_lead.
Qed.

Lemma trimEnd_decomp u :
  exists w2, u = trimEnd u ++ w2 /\
             Forall (fun c => isWhiteSpace c = true) w2 /\
             (trimEnd u = [] \/ solid (trimEnd u) = true).
Proof.
  induction u as [|c t (w2 & E & Hw & Hs)]; simpl.
  - exists []. repeat split; [constructor | left; reflexivity].
  - destruct (trimEnd t) as [|d t'] eqn:T.
    + destruct (isWhiteSpace c) eqn:W.
      * exists (c :: w2). simpl in E. subst t.
        repeat split; [constructor; assumption | left; reflexivity].
      * exists w2. simpl in E. subst t.
        repeat split; [assumption|]. right. simpl. rewrite W. reflexivity.
    + exists w2. split; [simpl; f_equal; exact E|]. split; [exact Hw|].
      right. destruct Hs as [Hs | Hs]; [discriminate|]. exact Hs.
Qed.

(** A text is its trimmed text between two runs of blanks. *)
Lemma trim_decomp s :
  exists w1 w2, s = w1 ++ trim s ++ w2 /\
                Forall (fun c => isWhiteSpace c = true) w2 /\
                (trim s = [] \/ solid (trim s) = true).
Proof.
  unfold trim.
  destruct (trimEnd_decomp (trimStart s)) as (w2 & E & Hw & Hs).
  exists (takeWhile isWhiteSpace s), w2.
  split; [|split; assumption].
  rewrite <- E, trimStart_dropWhile. symmetry. apply takeWhile_dropWhile.
Qed.

Lemma dropWhile_all p w :
  Forall (fun c => p c = true) w -> dropWhile p w = [].
Proof.
  induction 1 as [|c w Hc Hw IH]; simpl; [reflexivity|]. rewrite Hc. exact IH.
Qed.

Lemma blank_tail w :
  Forall (fun c => isWhiteSpace c = true) w ->
  blank w /\ startsWith OPTIONS (dropWhile isWhiteSpace w) = false.
Proof.
  intros H. split.
  - destruct H; [exact I | assumption].
  - rewrite dropWhile_all by exact H. rewrite OPTIONS_units. reflexivity.
Qed.

(** With no section in a text, none starts inside its trimmed text
    when a blank text is put after it. *)
Lemma no_heading_inside s x :
  test reReviewSectionRegex s = false ->
  blank x -> startsWith OPTIONS (dropWhile isWhiteSpace x) = false ->
  forall i, i < length (trim s) -> heading (skipn i (trim s) ++ x) = false.
Proof.
  intros Ht Hx Ho i Hi.
  destruct (trim_decomp s) as (w1 & w2 & E & Hw & Hs).
  destruct Hs as [Hs | Hs]; [rewrite Hs in Hi; simpl in Hi; lia|].
  pose proof (solid_skipn (trim s) i Hs Hi) as Hsk.
  rewrite heading_app by assumption.
  destruct (blank_tail w2 Hw) as [Bw Ow].
  rewrite <- (heading_app _ w2 Hsk Bw Ow).
  rewrite test_false in Ht. specialize (Ht (length w1 + i)).
  apply section_nil in Ht.
  rewrite E in Ht at 1.
  rewrite skipn_app in Ht.
  rewrite skipn_all2 in Ht by lia. cbn [app] in Ht.
  replace (length w1 + i - length w1) with i in Ht by lia.
  rewrite skipn_app in Ht.
  replace (i - length (trim s)) with 0 in Ht by lia. exact Ht.
Qed.

Lemma drop_section_none s : drop_section s = None <-> heading s = false.
Proof.
  unfold drop_section, replace_by, exec_at. rewrite <- section_nil.
  destruct (ends reReviewSectionRegex s) as [|[m r] l]; simpl; split; congruence.
Qed.

Lemma section_with_blank mark :
  blank (section_with mark) /\
  startsWith OPTIONS (dropWhile isWhiteSpace (section_with mark)) = false.
Proof. split; vm_compute; reflexivity. Qed.

Lemma section_with_space : section_with 32%N = SECTION_TEXT.
Proof. vm_compute. reflexivity. Qed.

(** A text without a section, trimmed and followed by the section, has
    exactly one section, and the pattern finds it. *)
Lemma appended_once s :
  test reReviewSectionRegex s = false ->
  count_g drop_section (trim s ++ SECTION_TEXT) = 1 /\
  test reReviewSectionRegex (trim s ++ SECTION_TEXT) = true.
Proof.
  intros Ht.
  destruct (section_with_blank 32%N) as [Bx Ox].
  rewrite section_with_space in Bx, Ox. split.
  - unfold count_g. rewrite length_app.
    replace (S (length (trim s) + length SECTION_TEXT))
      with (length (trim s) + S (length SECTION_TEXT)) by lia.
    rewrite count_loop_skip.
    + vm_compute. reflexivity.
    + intros i Hi. apply drop_section_none.
      apply no_heading_inside; assumption.
  - destruct (test reReviewSectionRegex (trim s ++ SECTION_TEXT)) eqn:T;
      [reflexivity|].
    rewrite test_false in T. specialize (T (length (trim s))).
    rewrite skipn_app, skipn_all, Nat.sub_diag in T. cbn [app skipn] in T.
    apply section_nil in T. vm_compute in T. discriminate.
Qed.

Lemma appended_found s mark :
  is_mark mark -> test reReviewSectionRegex (trim s ++ section_with mark) = true.
Proof.
  intros Hm.
  destruct (test reReviewSectionRegex (trim s ++ section_with mark)) eqn:T;
    [reflexivity|].
  rewrite test_false in T. specialize (T (length (trim s))).
  rewrite skipn_app, skipn_all, Nat.sub_diag in T. cbn [app skipn] in T.
  apply section_nil in T.
  destruct Hm as [-> | [-> | ->]]; vm_compute in T; discriminate.
Qed.

(** Removing the sections from a text without a section that was
    trimmed and followed by a section gives the trimmed text back, and
    there is no section in it. *)
Lemma removed_roundtrip s mark :
  test reReviewSectionRegex s = false -> is_mark mark ->
  trim (replace_g drop_section (trim s ++ section_with mark)) = trim s /\
  test reReviewSectionRegex (trim s) = false.
Proof.
  intros Ht Hm.
  destruct (section_with_blank mark) as [Bx Ox]. split.
  - unfold replace_g. rewrite length_app.
    replace (S (length (trim s) + length (section_with mark)))
      with (length (trim s) + S (length (section_with mark))) by lia.
    rewrite replace_loop_skip.
    + replace (replace_loop drop_section (S (length (section_with mark)))
                 (section_with mark)) with (@nil char).
      * rewrite app_nil_r. apply trim_idem.
      * destruct Hm as [-> | [-> | ->]]; vm_compute; reflexivity.
    + intros i Hi. apply drop_section_none.
      apply no_heading_inside; assumption.
  - apply test_false. intros i. apply section_nil.
    destruct (Nat.lt_ge_cases i (length (trim s))) as [Hi | Hi].
    + rewrite <- (app_nil_r (skipn i (trim s))).
      apply no_heading_inside; [exact Ht | exact I | | exact Hi].
      rewrite OPTIONS_units. reflexivity.
    + rewrite skipn_all2 by lia. reflexivity.
Qed.

End SectionFacts.

(** ** Review orchestrator *)

Module OrchestratorFacts.
Import Regex Combiner Validator Orchestrator RegexDefs CheckboxDefs SectionDefs
  OrchestratorDefs JSFacts RegexFacts CheckboxFacts SectionFacts.

(** Without a record in the data, the title of the report shows the
    unknown plugin and the templates are built. *)
Lemma commentBody_plain type data :
  pluginData data = None ->
  exists b, commentBody type data = Some b.
Proof.
  intros H. unfold commentBody, plugin_name. rewrite H.
  destruct (templates UNKNOWN_PLUGIN data type) as [[t b] footer].
  eexists. reflexivity.
Qed.



Section Handler.

Variable throws : Call -> World -> bool.
Variable validateIssueFormat : Issue -> FormatResult.
Variable reviewPlugin : JSValue -> ReviewResult.

Let handler := on_issue_event throws validateIssueFormat reviewPlugin.
Let last w := fst (findLastReviewComment throws w).

#[local] Abbreviation in_place :=
  (OrchestratorDefs.in_place validateIssueFormat reviewPlugin).
#[local] Abbreviation cycle_error :=
  (OrchestratorDefs.cycle_error validateIssueFormat reviewPlugin).
#[local] Abbreviation cycle_end :=
  (OrchestratorDefs.cycle_end validateIssueFormat reviewPlugin).
#[local] Abbreviation cycle_outcome :=
  (OrchestratorDefs.cycle_outcome validateIssueFormat reviewPlugin).
#[local] Abbreviation post := (postOrUpdateComment throws).
#[local] Abbreviation options := (updateIssueBodyForReviewOptions throws).
#[local] Abbreviation run :=
  (run_review throws validateIssueFormat reviewPlugin).

Lemma findLast_world w :
  snd (findLastReviewComment throws w) = logged issues_listComments w.
Proof.
  unfold findLastReviewComment. destruct (throws issues_listComments w); reflexivity.
Qed.


Lemma update_log b w :
  log (snd (update throws b w)) = log w ++ [issues_update b].
Proof. unfold update. destruct (throws _ _); reflexivity. Qed.

Lemma handler_edit_cases issue w :
  untouched w (handler edited issue w) \/
  exists c b,
    last w = Some c /\ edit_declined issue (Some c) = false /\
    issue_body issue = Some b /\
    existsb (str_eqb (lit "plugin-publish")) (labels issue) = true /\
    handler edited issue w
    = match update throws (replace_g uncheck_box b)
              (logged issues_listComments w) with
      | (false, w2) => w2
      | (true, w2) =>
        run_review throws validateIssueFormat reviewPlugin issue true
          (Some (id c)) w2
      end.
Proof.
  unfold handler, on_issue_event.
  destruct (existsb _ (labels issue)) eqn:L; cbn [negb]; [|left; left; reflexivity].
  pose proof (findLast_world w) as Hw. unfold last.
  destruct (findLastReviewComment throws w) as [l w1]. cbn [fst snd] in *. subst w1.
  destruct (edit_declined issue l) eqn:D; [left; right; reflexivity|].
  destruct l as [c|]; [|left; right; reflexivity].
  right. exists c.
  assert (Hb : exists b, issue_body issue = Some b).
  { unfold edit_declined in D. destruct (issue_body issue) as [b|]; [eauto|].
    rewrite !orb_true_r in D. discriminate. }
  destruct Hb as [b Hb]. exists b.
  repeat split; try assumption.
  unfold body_or_empty. rewrite Hb. reflexivity.
Qed.

Lemma updateComment_log i b w :
  log (snd (updateComment throws i b w)) = log w ++ [issues_updateComment i b].
Proof. unfold updateComment. destruct (throws _ _); reflexivity. Qed.

Lemma createComment_log b w :
  log (snd (createComment throws b w)) = log w ++ [issues_createComment b].
Proof. unfold createComment. destruct (throws _ _); reflexivity. Qed.


Lemma createComment_body b w :
  ticket_body (snd (createComment throws b w)) = ticket_body w.
Proof. unfold createComment. destruct (throws _ _); reflexivity. Qed.

Lemma updateComment_body i b w :
  ticket_body (snd (updateComment throws i b w)) = ticket_body w.
Proof. unfold updateComment. destruct (throws _ _); reflexivity. Qed.


(** When the templates cannot be built, postOrUpdateComment throws
    before it calls the tracker. *)
Lemma post_throws issue t data isUpdate commentId w :
  commentBody t data = None ->
  post issue t data isUpdate commentId w = (inl E_PRIMITIVE, w).
Proof. intros H. unfold postOrUpdateComment. rewrite H. reflexivity. Qed.

(** When they are built, it updates the comment with the id that it was
    given, or creates a comment, and then brings the options of the
    ticket body up to date. *)
Lemma post_returns issue t data isUpdate commentId w b :
  commentBody t data = Some b ->
  exists cur w1,
    post issue t data isUpdate commentId w = (inr cur, options issue t w1) /\
    ticket_body w1 = ticket_body w /\
    ((exists i,
         isUpdate = true /\ commentId = Some i /\ i <> 0%Z /\ cur = Some i /\
         log w1 = log w ++ [issues_updateComment i b]) \/
     ((isUpdate = false \/ truthy_id commentId = false) /\
      log w1 = log w ++ [issues_createComment b] /\
      cur = if throws (issues_createComment b) w then commentId
            else Some (next_id w))).
Proof.
  intros H. unfold postOrUpdateComment. rewrite H.
  destruct (isUpdate && truthy_id commentId) eqn:U.
  - apply andb_true_iff in U. destruct U as [-> T].
    destruct commentId as [i|]; [|discriminate].
    exists (Some i), (snd (updateComment throws i b w)).
    split; [reflexivity|]. split; [apply updateComment_body|].
    left. exists i. unfold truthy_id in T.
    apply negb_true_iff, Z.eqb_neq in T.
    split; [reflexivity|]. split; [reflexivity|]. split; [exact T|].
    split; [reflexivity | apply updateComment_log].
  - apply andb_false_iff in U.
    pose proof (createComment_log b w) as L.
    pose proof (createComment_body b w) as B.
    unfold createComment in *.
    destruct (throws (issues_createComment b) w); cbn [fst snd] in *.
    + exists commentId, (logged (issues_createComment b) w).
      split; [reflexivity|]. split; [exact B|]. right.
      split; [exact U|]. split; [exact L | reflexivity].
    + eexists (Some (next_id w)), _.
      split; [reflexivity|]. split; [exact B|]. right.
      split; [exact U|]. split; [exact L | reflexivity].
Qed.

(** The cycle: the notice of its start is posted, and then either the
    status comment of its outcome is posted with the id that the notice
    gave, or an error leaves it and the comment on a system error is
    created. *)
Lemma run_review_spec issue isUpdate commentId w :
  exists started cur w1,
    commentBody review_started no_data = Some started /\
    post issue review_started no_data isUpdate commentId w = (inr cur, w1) /\
    ((exists outcome data b,
         cycle_end issue = Some (outcome, data) /\
         cycle_error issue = None /\
         commentBody outcome data = Some b /\
         run issue isUpdate commentId w
         = snd (post issue outcome data true cur w1)) \/
     (exists message,
         cycle_end issue = None /\
         cycle_error issue = Some message /\
         run issue isUpdate commentId w
         = postSystemErrorComment throws message w1)).
Proof.
  destruct (commentBody_plain review_started no_data eq_refl) as [started Hs].
  destruct (post_returns issue review_started no_data isUpdate commentId w
              started Hs) as (cur & w1 & P1 & _).
  change (options issue review_started w1) with w1 in P1.
  exists started, cur, w1. split; [exact Hs|]. split; [exact P1|].
  unfold run_review, handlePluginReview, OrchestratorDefs.cycle_end,
    OrchestratorDefs.cycle_error.
  rewrite P1.
  destruct (validateIssueFormat issue) as [message|es|pd].
  - right. exists message. repeat split.
  - left.
    destruct (commentBody_plain format_error (format_error_data es) eq_refl)
      as [b Hb].
    exists format_error, (format_error_data es), b.
    split; [reflexivity|]. split; [reflexivity|]. split; [exact Hb|].
    destruct (post_returns issue format_error (format_error_data es) true cur
                w1 b Hb) as (cur2 & w2 & P2 & _).
    unfold format_error_data in *. rewrite P2. reflexivity.
  - unfold OrchestratorDefs.report_data, OrchestratorDefs.failure_data.
    destruct (Combiner.success (reviewPlugin pd)).
    + match goal with
      | |- context [commentBody review_success ?d] =>
        destruct (commentBody review_success d) as [b|] eqn:Hb
      end.
      * left. eexists review_success, _, b.
        split; [reflexivity|]. split; [reflexivity|]. split; [exact Hb|].
        match goal with
        | |- context [post issue review_success ?d true cur w1] =>
          destruct (post_returns issue review_success d true cur w1 b Hb)
            as (cur2 & w2 & P2 & _)
        end.
        rewrite P2. reflexivity.
      * right. exists E_PRIMITIVE.
        split; [reflexivity|]. split; [reflexivity|].
        rewrite post_throws by exact Hb. reflexivity.
    + left.
      match goal with
      | |- context [post issue review_failure ?d true cur w1] =>
        destruct (commentBody_plain review_failure d eq_refl) as [b Hb];
        exists review_failure, d, b;
        split; [reflexivity|]; split; [reflexivity|]; split; [exact Hb|];
        destruct (post_returns issue review_failure d true cur w1 b Hb)
          as (cur2 & w2 & P2 & _)
      end.
      rewrite P2. reflexivity.
Qed.









(** A status comment is posted or updated, and then the options of the
    ticket body are brought up to date. *)
Lemma post_ends issue t data isUpdate commentId w b :
  commentBody t data = Some b ->
  exists w',
    snd (post issue t data isUpdate commentId w) = options issue t w' /\
    ticket_body w' = ticket_body w.
Proof.
  intros Hb.
  destruct (post_returns issue t data isUpdate commentId w b Hb)
    as (cur & w1 & P & B & _).
  exists w1. rewrite P. split; [reflexivity | exact B].
Qed.

(** A cycle that ends with a status comment ends with the update of the
    options for that comment; a cycle that an error leaves ends with the
    comment on a system error, and writes nothing to the ticket body. *)
Lemma run_review_ends issue isUpdate commentId w :
  (forall outcome,
      cycle_outcome issue = Some outcome ->
      exists w',
        run issue isUpdate commentId w = options issue outcome w' /\
        ticket_body w' = ticket_body w) /\
  (cycle_outcome issue = None ->
   exists message w',
     cycle_error issue = Some message /\
     run issue isUpdate commentId w
     = postSystemErrorComment throws message w' /\
     ticket_body w' = ticket_body w /\
     ticket_body (run issue isUpdate commentId w) = ticket_body w).
Proof.
  destruct (run_review_spec issue isUpdate commentId w)
    as (started & cur & w1 & Hs & P1 & R).
  destruct (post_ends issue review_started no_data isUpdate commentId w
              started Hs) as (w0 & E0 & B0).
  rewrite P1 in E0. cbn [snd] in E0.
  change (options issue review_started w0) with w0 in E0. subst w0.
  unfold OrchestratorDefs.cycle_outcome.
  destruct R as [(outcome & data & b & -> & _ & Hb & ->) | (message & -> & He & ->)];
    cbn [option_map fst]; split; try discriminate.
  - intros o H. assert (o = outcome) by congruence. subst o.
    destruct (post_ends issue outcome data true cur w1 b Hb) as (w' & E & B).
    exists w'. split; [exact E | congruence].
  - intros _. exists message, w1.
    split; [exact He|]. split; [reflexivity|]. split; [exact B0|].
    unfold postSystemErrorComment. rewrite createComment_body. exact B0.
Qed.

(** C5, as the code has it: after a format error or a failure, nothing
    is written when the body of the event has a section already, and
    otherwise the trimmed body followed by the section with an unchecked
    box is written, in which the walk of the pattern finds exactly one
    section; after a success nothing is written when the body has no
    section, and otherwise the body without the matches of the pattern,
    trimmed, is written; for a body made of a text without a section,
    trimmed, and the section with its box in any state, what is written
    after a success is that trimmed text, in which there is no section.
    A cycle that ends with a status comment ends with that update of the
    options, made on a tracker that holds the ticket body of before the
    cycle.  A cycle that an error leaves (the validator throws, or the
    title of the report cannot be built) ends with the comment on a
    system error and leaves the ticket body as it was. *)
Theorem C5_section_lifecycle (issue : Issue) (w : World) :
  let B := body_or_empty issue in
  let options := updateIssueBodyForReviewOptions throws issue in
  (forall outcome,
      outcome = format_error \/ outcome = review_failure ->
      (test reReviewSectionRegex B = true -> options outcome w = w) /\
      (test reReviewSectionRegex B = false ->
       let B' := trim B ++ SECTION_TEXT in
       options outcome w = snd (update throws B' w) /\
       log (options outcome w) = log w ++ [issues_update B'] /\
       (throws (issues_update B') w = false ->
        ticket_body (options outcome w) = Some B') /\
       count_g drop_section B' = 1 /\
       test reReviewSectionRegex B' = true)) /\
  (test reReviewSectionRegex B = false -> options review_success w = w) /\
  (test reReviewSectionRegex B = true ->
   let B' := trim (replace_g drop_section B) in
   options review_success w = snd (update throws B' w) /\
   log (options review_success w) = log w ++ [issues_update B'] /\
   (throws (issues_update B') w = false ->
    ticket_body (options review_success w) = Some B')) /\
  (forall s mark,
      test reReviewSectionRegex s = false -> is_mark mark ->
      B = trim s ++ section_with mark ->
      test reReviewSectionRegex B = true /\
      trim (replace_g drop_section B) = trim s /\
      test reReviewSectionRegex (trim s) = false) /\
  (forall isUpdate commentId outcome,
      cycle_outcome issue = Some outcome ->
      exists w',
        run_review throws validateIssueFormat reviewPlugin issue isUpdate
          commentId w
        = options outcome w' /\
        ticket_body w' = ticket_body w) /\
  (forall isUpdate commentId,
      cycle_outcome issue = None ->
      exists message w',
        cycle_error issue = Some message /\
        run_review throws validateIssueFormat reviewPlugin issue isUpdate
          commentId w
        = postSystemErrorComment throws message w' /\
        ticket_body w' = ticket_body w /\
        ticket_body (run_review throws validateIssueFormat reviewPlugin issue
                       isUpdate commentId w)
        = ticket_body w).
Proof.
  cbv zeta.
  assert (U : forall b, throws (issues_update b) w = false ->
                        ticket_body (snd (update throws b w)) = Some b).
  { intros b T. unfold update. rewrite T. reflexivity. }
  split; [|split; [|split; [|split; [|split]]]];
    [| | | |
     intros isUpdate commentId outcome;
     apply (proj1 (run_review_ends issue isUpdate commentId w))
    |intros isUpdate commentId;
     apply (proj2 (run_review_ends issue isUpdate commentId w))].
  - intros outcome Ho. split.
    + intros T. unfold updateIssueBodyForReviewOptions. rewrite T.
      destruct Ho as [-> | ->]; reflexivity.
    + intros T.
      assert (E : updateIssueBodyForReviewOptions throws issue outcome w
                  = snd (update throws (trim (body_or_empty issue) ++ SECTION_TEXT) w)).
      { unfold updateIssueBodyForReviewOptions. rewrite T.
        destruct Ho as [-> | ->]; reflexivity. }
      rewrite E. split; [reflexivity|]. split; [apply update_log|].
      split; [apply U|]. apply appended_once. exact T.
  - intros T. unfold updateIssueBodyForReviewOptions. rewrite T. reflexivity.
  - intros T.
    assert (E : updateIssueBodyForReviewOptions throws issue review_success w
                = snd (update throws
                         (trim (replace_g drop_section (body_or_empty issue))) w)).
    { unfold updateIssueBodyForReviewOptions. rewrite T. reflexivity. }
    rewrite E. split; [reflexivity|]. split; [apply update_log | apply U].
  - intros s mark T Hm E. rewrite E. split; [apply appended_found; exact Hm|].
    apply removed_roundtrip; assumption.
Qed.

End Handler.

(** *** Concrete runs *)



(** A cycle on a ticket whose name cannot be printed: the ticket is
    valid and its review succeeds, the title of the report cannot be
    built, and the handler posts the comment on a system error as a new
    comment; the ticket body keeps its section. *)
Example example_unprintable_name :
  let w := on_issue_event never_throws validate review_ok opened
             (ticket odd_name_body) (tracker odd_name_body []) in
  validate (ticket odd_name_body) = FormatValid ValidatorDefs.odd_name_value /\
  commentBody review_success
    (report_data review_ok ValidatorDefs.odd_name_value) = None /\
  log w
  = [ issues_createComment (status_text review_started no_data);
      issues_createComment (systemErrorBody E_PRIMITIVE) ] /\
  ticket_body w = Some odd_name_body /\
  test reReviewSectionRegex odd_name_body = true.
Proof. vm_compute. repeat split. Qed.


Lemma C5_section_lifecycle_witness :
  ticket_body
    (run_review never_throws validate review_ok (ticket odd_name_body) false
       None (tracker odd_name_body []))
  = Some odd_name_body.
Proof.
  destruct (proj2 (proj2 (proj2 (proj2 (proj2
              (C5_section_lifecycle never_throws validate review_ok
                 (ticket odd_name_body) (tracker odd_name_body []))))))
              false None) as (message & w' & _ & _ & _ & B).
  - vm_compute. reflexivity.
  - exact B.
Defined.

(** The claim C5 fails on the code: a cycle that ends in a format error
    on a ticket with two sections leaves the two sections, and a cycle
    that ends in a success on a ticket with a heading written inside
    itself leaves a heading that the pattern of the section matches. *)
Lemma C5_section_lifecycle_counterexample :
  (let w := on_issue_event never_throws validate review opened
              (ticket two_sections) (tracker two_sections []) in
   last_title FORMAT_ERROR_TITLE w = true /\
   ticket_body w = Some two_sections /\
   count_g drop_section two_sections = 2) /\
  (let w := on_issue_event never_throws validate review opened
              (ticket nested_heading) (tracker nested_heading []) in
   last_title SUCCESS_TITLE w = true /\
   ticket_body w = Some nested_heading_left /\
   test reReviewSectionRegex nested_heading_left = true).
Proof. vm_compute. repeat split. Qed.

End OrchestratorFacts.

(** ** Submission format validator *)

Module ValidatorFacts.
Import Regex Combiner Validator ValidatorDefs JSFacts.

Lemma when_nil b e : when b e = [] -> b = false.
Proof. destruct b; [discriminate | reflexivity]. Qed.

Lemma fieldErrors_nil URL_parse name desc repo :
  fieldErrors URL_parse name desc repo = Some [] ->
  truthy name = true /\ is_string name (lit "插件名") = false /\
  truthy desc = true /\ is_string desc (lit "插件介绍") = false /\
  truthy repo = true /\
  exists text url,
    ToString_opt repo = Some text /\ URL_parse text = Some url /\
    hostname url = lit "github.com".
Proof.
  unfold fieldErrors, repoErrors.
  destruct (truthy repo); cbn [negb].
  - destruct (ToString_opt repo) as [text|]; [|discriminate].
    destruct (URL_parse text) as [url|] eqn:U; intros H;
      apply Some_eq in H;
      apply app_eq_nil in H; destruct H as [H1 H];
      apply app_eq_nil in H; destruct H as [H2 H3]; [|discriminate].
    apply when_nil, orb_false_iff in H1. destruct H1 as [N1 N2].
    apply when_nil, orb_false_iff in H2. destruct H2 as [D1 D2].
    apply negb_false_iff in N1, D1.
    apply when_nil, negb_false_iff, str_eqb_eq in H3.
    repeat split; try assumption. exists text, url.
    split; [reflexivity|]. split; [exact U | exact H3].
  - intros H. apply Some_eq in H.
    apply app_eq_nil in H. destruct H as [_ H].
    apply app_eq_nil in H. destruct H as [_ H]. discriminate.
Qed.

(** C8, as the code has it: when the validator returns success, the
    fields name and desc of the parsed block are there, are not empty and
    are not the placeholders, and the field repo is there and parses to a
    URL with the host github.com; the pipeline then calls the repository
    reader with the first two segments of the path of that URL when the
    path has two, and returns the failure on owner and repo when it has
    fewer.  The ticket with https://github.com/acme/foo is valid and the
    reader is called with acme and foo. *)
Theorem C8_validated_record :
  (forall JSON_parse URL_parse issue pd,
      validateIssueFormat JSON_parse URL_parse issue = FormatValid pd ->
      exists name desc repo url,
        get pd (lit "name") = Some name /\ truthy name = true /\
        is_string name (lit "插件名") = false /\
        get pd (lit "desc") = Some desc /\ truthy desc = true /\
        is_string desc (lit "插件介绍") = false /\
        get pd (lit "repo") = Some repo /\ truthy repo = true /\
        (exists text,
            ToString_opt repo = Some text /\ URL_parse text = Some url) /\
        hostname url = lit "github.com" /\
        forall performAIReview,
          reviewPlugin URL_parse performAIReview pd
          = match segments (pathname url) with
            | owner :: repo :: _ =>
              match performAIReview owner repo with
              | inr result => result
              | inl message => failure (E_FETCH message)
              end
            | _ => failure E_OWNER_REPO
            end) /\
  validateIssueFormat example_JSON_parse URL_basic
    (submission "https://github.com/acme/foo")
  = FormatValid (json_value "https://github.com/acme/foo") /\
  reviewPlugin URL_basic reader (json_value "https://github.com/acme/foo")
  = {| success := true; review := Some (lit "acme/foo"); error := None |}.
Proof.
  split; [|split; vm_compute; reflexivity].
  intros JSON_parse URL_parse issue pd. unfold validateIssueFormat.
  destruct (search jsonBlock _) as [[[pre text] rest]|]; [|discriminate].
  destruct text as [|t0 text]; [discriminate|].
  destruct (JSON_parse (t0 :: text)) as [message|pluginData]; [discriminate|].
  destruct (get pluginData (lit "name")) as [name|] eqn:Gn; [|discriminate].
  destruct (get pluginData (lit "desc")) as [desc|] eqn:Gd; [|discriminate].
  destruct (get pluginData (lit "repo")) as [repo|] eqn:Gr; [|discriminate].
  destruct (fieldErrors URL_parse name desc repo) as [added|] eqn:F;
    [|discriminate].
  match goal with
  | |- context [?e ++ added] => destruct (e ++ added) as [|x l] eqn:E
  end; [|discriminate].
  intros H. injection H as <-.
  apply app_eq_nil in E. destruct E as [_ ->].
  apply fieldErrors_nil in F.
  destruct F as (N1 & N2 & D1 & D2 & R1 & repo_text & url & T1 & U1 & U2).
  exists name, desc, repo, url.
  split; [exact Gn|]. split; [exact N1|]. split; [exact N2|].
  split; [exact Gd|]. split; [exact D1|]. split; [exact D2|].
  split; [exact Gr|]. split; [exact R1|].
  split; [exists repo_text; split; [exact T1 | exact U1]|].
  split; [exact U2|].
  intros performAIReview. unfold reviewPlugin. rewrite Gr, T1, U1. reflexivity.
Qed.

(** The conversion to a string: an array prints its items between
    commas, null as nothing; an object with a key toString cannot be
    printed, nor can an array that holds one.  A ticket whose field repo
    is such an object makes the validator throw. *)
Example example_unprintable_repo :
  ToString (JArray [JNull; JNumber false (lit "1"); JArray []; JString (lit "a")])
  = Some (lit ",1,,a") /\
  ToString (JObject [(lit "a", JNull)]) = Some (lit "[object Object]") /\
  ToString unprintable = None /\
  ToString (JArray [JNull; JArray [unprintable]]) = None /\
  validateIssueFormat example_JSON_parse URL_basic
    {| title := lit "[Plugin] Foo";
       issue_body := Some (ticket_text odd_repo_text);
       labels := [lit "plugin-publish"] |}
  = FormatThrows E_PRIMITIVE.
Proof. vm_compute. repeat split. Qed.

(** The claim C8 fails on the code: the ticket with
    https://github.com/acme is valid, and the pipeline does not reach the
    reader. *)
Lemma C8_validated_record_counterexample :
  validateIssueFormat example_JSON_parse URL_basic
    (submission "https://github.com/acme")
  = FormatValid (json_value "https://github.com/acme") /\
  reviewPlugin URL_basic reader (json_value "https://github.com/acme")
  = failure E_OWNER_REPO.
Proof. split; vm_compute; reflexivity. Qed.

Lemma C8_validated_record_witness :
  exists name desc repo url,
    get (json_value "https://github.com/acme/foo") (lit "name") = Some name /\
    truthy name = true /\ is_string name (lit "插件名") = false /\
    get (json_value "https://github.com/acme/foo") (lit "desc") = Some desc /\
    truthy desc = true /\ is_string desc (lit "插件介绍") = false /\
    get (json_value "https://github.com/acme/foo") (lit "repo") = Some repo /\
    truthy repo = true /\
    (exists text,
        ToString_opt repo = Some text /\ URL_basic text = Some url) /\
    hostname url = lit "github.com" /\
    forall performAIReview,
      reviewPlugin URL_basic performAIReview
        (json_value "https://github.com/acme/foo")
      = match segments (pathname url) with
        | owner :: repo :: _ =>
          match performAIReview owner repo with
          | inr result => result
          | inl message => failure (E_FETCH message)
          end
        | _ => failure E_OWNER_REPO
        end.
Proof.
  refine (proj1 C8_validated_record example_JSON_parse URL_basic
            (submission "https://github.com/acme/foo")
            (json_value "https://github.com/acme/foo") _).
  vm_compute. reflexivity.
Defined.

End ValidatorFacts.

(** ** Matches in longer texts *)

Module MarkerFacts.
Import Regex Combiner Validator Orchestrator RegexDefs JSFacts RegexFacts.

(** A match at the start of a string is a match at the start of every
    string that extends it. *)
Lemma star_ends_app (step : jsstring -> list (jsstring * jsstring)) t :
  (forall s m rest, In (m, rest) (step s) -> In (m, rest ++ t) (step (s ++ t))) ->
  forall fuel s m rest fuel',
    length s <= fuel -> length (s ++ t) <= fuel' ->
    In (m, rest) (star_ends step fuel s) ->
    In (m, rest ++ t) (star_ends step fuel' (s ++ t)).
Proof.
  intros Hstep. induction fuel as [|n IH]; intros s m rest fuel' Hs Hf Hin.
  - destruct s; [|simpl in Hs; lia]. simpl in Hin. destruct Hin as [E|[]].
    injection E as <- <-. simpl. destruct fuel'; simpl; [left; reflexivity|].
    apply in_or_app. right. left. reflexivity.
  - simpl in Hin. apply in_app_or in Hin. destruct Hin as [Hin | [E|[]]].
    + apply in_flat_map in Hin. destruct Hin as ([m1 s1] & H1 & H2).
      destruct (length s1 <? length s) eqn:L; [|contradiction].
      apply Nat.ltb_lt in L. apply in_map_iff in H2.
      destruct H2 as ([m2 s2] & E & H2). injection E as <- <-.
      destruct fuel' as [|n']; [rewrite length_app in Hf; lia|].
      simpl. apply in_or_app. left. apply in_flat_map.
      exists (m1, s1 ++ t). split; [apply Hstep; exact H1|].
      replace (length (s1 ++ t) <? length (s ++ t)) with true
        by (symmetry; apply Nat.ltb_lt; rewrite !length_app; lia).
      apply in_map_iff. exists (m2, s2 ++ t). split; [reflexivity|].
      apply IH; [lia | rewrite !length_app in *; lia | exact H2].
    + injection E as <- <-. destruct fuel'; simpl; [left; reflexivity|].
      apply in_or_app. right. left. reflexivity.
Qed.

Lemma lazy_ends_app (step : jsstring -> list (jsstring * jsstring)) t :
  (forall s m rest, In (m, rest) (step s) -> In (m, rest ++ t) (step (s ++ t))) ->
  forall fuel s m rest fuel',
    length s <= fuel -> length (s ++ t) <= fuel' ->
    In (m, rest) (lazy_ends step fuel s) ->
    In (m, rest ++ t) (lazy_ends step fuel' (s ++ t)).
Proof.
  intros Hstep. induction fuel as [|n IH]; intros s m rest fuel' Hs Hf Hin.
  - destruct s; [|simpl in Hs; lia]. simpl in Hin. destruct Hin as [E|[]].
    injection E as <- <-. simpl. destruct fuel'; simpl; left; reflexivity.
  - simpl in Hin. destruct Hin as [E | Hin].
    + injection E as <- <-. destruct fuel'; simpl; left; reflexivity.
    + apply in_flat_map in Hin. destruct Hin as ([m1 s1] & H1 & H2).
      destruct (length s1 <? length s) eqn:L; [|contradiction].
      apply Nat.ltb_lt in L. apply in_map_iff in H2.
      destruct H2 as ([m2 s2] & E & H2). injection E as <- <-.
      destruct fuel' as [|n']; [rewrite length_app in Hf; lia|].
      simpl. right. apply in_flat_map.
      exists (m1, s1 ++ t). split; [apply Hstep; exact H1|].
      replace (length (s1 ++ t) <? length (s ++ t)) with true
        by (symmetry; apply Nat.ltb_lt; rewrite !length_app; lia).
      apply in_map_iff. exists (m2, s2 ++ t). split; [reflexivity|].
      apply IH; [lia | rewrite !length_app in *; lia | exact H2].
Qed.

Lemma ends_app r t : forall s m rest,
  In (m, rest) (ends r s) -> In (m, rest ++ t) (ends r (s ++ t)).
Proof.
  induction r as [|p|a IHa b IHb|a IHa b IHb|a IHa|a IHa]; intros s m rest Hin.
  - simpl in *. destruct Hin as [E|[]]. injection E as <- <-. left. reflexivity.
  - simpl in *. destruct s as [|c s]; [contradiction|]. simpl.
    destruct (p c); [|contradiction]. destruct Hin as [E|[]].
    injection E as <- <-. left. reflexivity.
  - simpl in *. apply in_flat_map in Hin. destruct Hin as ([m1 s1] & H1 & H2).
    apply in_map_iff in H2. destruct H2 as ([m2 s2] & E & H2).
    injection E as <- <-. apply in_flat_map. exists (m1, s1 ++ t).
    split; [apply IHa; exact H1|]. apply in_map_iff.
    exists (m2, s2 ++ t). split; [reflexivity | apply IHb; exact H2].
  - simpl in *. apply in_app_or in Hin. apply in_or_app.
    destruct Hin as [H|H]; [left; apply IHa | right; apply IHb]; exact H.
  - simpl in *. eapply star_ends_app; try eassumption; lia.
  - simpl in *. eapply lazy_ends_app; try eassumption; lia.
Qed.

Lemma test_true r s : test r s = true <-> exists i, ends r (skipn i s) <> [].
Proof.
  split.
  - intros T. destruct (test r s) eqn:E; [|discriminate].
    assert (N : ~ (forall i, ends r (skipn i s) = [])).
    { intros H. apply test_false in H. congruence. }
    clear T E. revert N. induction s as [|c s IH]; intros N.
    + exists 0. intros H. apply N. intros i. rewrite skipn_nil. exact H.
    + destruct (ends r (c :: s)) eqn:E0.
      * destruct IH as [i Hi].
        { intros H. apply N. intros [|i]; [exact E0 | apply H]. }
        exists (S i). exact Hi.
      * exists 0. simpl. rewrite E0. discriminate.
  - intros [i Hi]. destruct (test r s) eqn:E; [reflexivity|].
    rewrite test_false in E. elim Hi. apply E.
Qed.

(** A text in which a pattern matches still matches inside a longer
    text. *)
Lemma test_app r pre s post :
  test r s = true -> test r (pre ++ s ++ post) = true.
Proof.
  rewrite !test_true. intros [i Hi].
  destruct (Nat.le_gt_cases i (length s)) as [L|L].
  - exists (length pre + i). rewrite skipn_app.
    rewrite skipn_all2 by lia. replace (length pre + i - length pre) with i by lia.
    simpl. rewrite skipn_app.
    replace (i - length s) with 0 by lia. simpl.
    destruct (ends r (skipn i s)) as [|[m rest] l] eqn:E; [congruence|].
    intros H. pose proof (ends_app r post (skipn i s) m rest) as A.
    rewrite E in A. specialize (A (or_introl eq_refl)). rewrite H in A. exact A.
  - rewrite skipn_all2 in Hi by lia.
    exists (length pre + length s + length post).
    rewrite skipn_all2 by (rewrite !length_app; lia).
    exact Hi.
Qed.

End MarkerFacts.

(** ** The last review comment *)

Module ListingFacts.
Import Regex Combiner Validator Orchestrator RegexDefs CheckboxDefs SectionDefs
  OrchestratorDefs EventDefs JSFacts RegexFacts CheckboxFacts SectionFacts
  OrchestratorFacts MarkerFacts.

Lemma find_app_first {A} (f : A -> bool) (l1 l2 : list A) :
  find f (l1 ++ l2)
  = match find f l1 with Some x => Some x | None => find f l2 end.
Proof.
  induction l1 as [|a l1 IH]; simpl; [reflexivity|].
  destruct (f a); [reflexivity | exact IH].
Qed.

Lemma find_rev_last {A} (f : A -> bool) (l : list A) :
  match find f (rev l) with
  | Some c =>
    exists before after,
      l = before ++ c :: after /\ f c = true /\
      Forall (fun x => f x = false) after
  | None => Forall (fun x => f x = false) l
  end.
Proof.
  induction l as [|a l IH]; simpl; [constructor|].
  rewrite find_app_first. destruct (find f (rev l)) as [c|].
  - destruct IH as (before & after & -> & Hc & Ha).
    exists (a :: before), after. repeat split; assumption.
  - simpl. destruct (f a) eqn:Fa.
    + exists [], l. repeat split; assumption.
    + constructor; assumption.
Qed.

(** X9: findLastReviewComment only records the listing; when the listing
    throws it finds nothing; otherwise it returns the most recent comment
    of a bot with a status mark, no later comment being one, and it finds
    nothing exactly when no comment is one. *)
Theorem X9_find_last_review_comment throws (w : World) :
  snd (findLastReviewComment throws w) = logged issues_listComments w /\
  (throws issues_listComments w = true ->
   fst (findLastReviewComment throws w) = None) /\
  (throws issues_listComments w = false ->
   match fst (findLastReviewComment throws w) with
   | Some c =>
     exists before after,
       comments w = before ++ c :: after /\ marked c = true /\
       Forall (fun c' => marked c' = false) after
   | None => Forall (fun c' => marked c' = false) (comments w)
   end).
Proof.
  split; [apply findLast_world|].
  unfold findLastReviewComment. split; intros T; rewrite T; [reflexivity|].
  cbn [fst]. exact (find_rev_last marked (comments w)).
Qed.

Lemma test_prefix r s post : test r s = true -> test r (s ++ post) = true.
Proof. exact (test_app r [] s post). Qed.

Lemma commentBody_marked type data b :
  commentBody type data = Some b ->
  test STATUS_MARKER b = true.
Proof.
  unfold commentBody. destruct (plugin_name data) as [name|]; [|discriminate].
  destruct type; cbn [templates]; intros H; apply Some_eq in H; subst b.
  - apply test_prefix. vm_compute. reflexivity.
  - apply test_prefix. vm_compute. reflexivity.
  - apply test_prefix. vm_compute. reflexivity.
  - unfold SUCCESS_TITLE. rewrite <- !app_assoc.
    apply test_prefix. vm_compute. reflexivity.
Qed.

Lemma systemErrorBody_marked message :
  test STATUS_MARKER (systemErrorBody message) = true.
Proof.
  unfold systemErrorBody, SYSTEM_ERROR_INTRO. rewrite <- !app_assoc.
  apply test_prefix. vm_compute. reflexivity.
Qed.

(** X10: every comment that the program posts carries a status mark, so
    once one of the four status comments or the comment on a system error
    is created, the next listing that returns finds that very comment as
    the last review comment. *)
Theorem X10_posted_comment_is_found throws (w : World) (b : jsstring) :
  (exists type data, commentBody type data = Some b) \/
  (exists message, b = systemErrorBody message) ->
  throws (issues_createComment b) w = false ->
  throws issues_listComments (snd (createComment throws b w)) = false ->
  test STATUS_MARKER b = true /\
  fst (createComment throws b w) = Some (next_id w) /\
  fst (findLastReviewComment throws (snd (createComment throws b w)))
  = Some {| id := next_id w; user_is_bot := true; body := b |}.
Proof.
  intros Hb Tc Tl.
  assert (M : test STATUS_MARKER b = true).
  { destruct Hb as [(type & data & Hb) | (message & ->)];
      [exact (commentBody_marked type data b Hb)
      | apply systemErrorBody_marked]. }
  split; [exact M|].
  unfold findLastReviewComment. rewrite Tl.
  unfold createComment. rewrite Tc. cbn [fst snd comments logged].
  split; [reflexivity|].
  rewrite rev_app_distr. cbn [rev app find user_is_bot body andb].
  rewrite M. reflexivity.
Qed.

Lemma X10_posted_comment_is_found_witness :
  fst (findLastReviewComment never_throws
         (snd (createComment never_throws (status_text review_started no_data)
                 (tracker [] []))))
  = Some {| id := 100%Z; user_is_bot := true;
            body := status_text review_started no_data |}.
Proof.
  refine (proj2 (proj2
    (X10_posted_comment_is_found never_throws (tracker [] [])
       (status_text review_started no_data) _ _ _))).
  - left. exists review_started, no_data. vm_compute. reflexivity.
  - reflexivity.
  - reflexivity.
Defined.

End ListingFacts.

(** ** The calls of a review cycle *)

Module CycleFacts.
Import Regex Combiner Validator Orchestrator RegexDefs CheckboxDefs SectionDefs
  OrchestratorDefs EventDefs JSFacts OrchestratorFacts.

Section Cycle.

Variable throws : Call -> World -> bool.
Variable validateIssueFormat : Issue -> FormatResult.
Variable reviewPlugin : JSValue -> ReviewResult.

Let handler := on_issue_event throws validateIssueFormat reviewPlugin.

#[local] Abbreviation in_place :=
  (OrchestratorDefs.in_place validateIssueFormat reviewPlugin).
#[local] Abbreviation cycle_error :=
  (OrchestratorDefs.cycle_error validateIssueFormat reviewPlugin).
#[local] Abbreviation post := (postOrUpdateComment throws).
#[local] Abbreviation run :=
  (run_review throws validateIssueFormat reviewPlugin).

Lemma options_calls issue t w :
  exists l,
    log (updateIssueBodyForReviewOptions throws issue t w) = log w ++ l /\
    Forall is_update l /\ length l <= 1 /\
    (t = review_started -> l = []).
Proof.
  assert (Nil : exists l,
             log w = log w ++ l /\ Forall is_update l /\ length l <= 1 /\
             (t = review_started -> l = [])).
  { exists []. rewrite app_nil_r.
    split; [reflexivity|]. split; [constructor|]. split; [simpl; lia|].
    reflexivity. }
  assert (Upd : forall b,
             t <> review_started ->
             exists l,
               log (snd (update throws b w)) = log w ++ l /\
               Forall is_update l /\ length l <= 1 /\
               (t = review_started -> l = [])).
  { intros b Ht. exists [issues_update b].
    split; [apply update_log|]. split; [repeat constructor|].
    split; [simpl; lia|]. intros E. contradiction. }
  unfold updateIssueBodyForReviewOptions.
  destruct t; try exact Nil;
    destruct (test reReviewSectionRegex (body_or_empty issue)); cbn [negb];
    try exact Nil; apply Upd; discriminate.
Qed.

(** The calls of postOrUpdateComment when the templates are built: the
    update of the comment whose id it was given, or the creation of a
    comment, and then at most one write of the ticket body. *)
Lemma post_calls issue t data isUpdate commentId w b :
  commentBody t data = Some b ->
  exists cur call l,
    fst (post issue t data isUpdate commentId w) = inr cur /\
    log (snd (post issue t data isUpdate commentId w)) = log w ++ call :: l /\
    Forall is_update l /\ length l <= 1 /\ (t = review_started -> l = []) /\
    ((exists i,
         isUpdate = true /\ commentId = Some i /\ i <> 0%Z /\ cur = Some i /\
         call = issues_updateComment i b) \/
     ((isUpdate = false \/ truthy_id commentId = false) /\
      call = issues_createComment b /\
      cur = if throws (issues_createComment b) w then commentId
            else Some (next_id w))).
Proof.
  intros Hb.
  destruct (post_returns throws issue t data isUpdate commentId w b Hb)
    as (cur & w1 & P & _ & C).
  rewrite P. cbn [fst snd].
  destruct (options_calls issue t w1) as (l & E & F & L & S).
  destruct C as [(i & U & Ei & Hi & Ec & L1) | (U & L1 & Ec)].
  - exists cur, (issues_updateComment i b), l.
    rewrite E, L1, <- app_assoc.
    split; [reflexivity|]. split; [reflexivity|].
    split; [exact F|]. split; [exact L|]. split; [exact S|].
    left. exists i. repeat split; assumption.
  - exists cur, (issues_createComment b), l.
    rewrite E, L1, <- app_assoc.
    split; [reflexivity|]. split; [reflexivity|].
    split; [exact F|]. split; [exact L|]. split; [exact S|].
    right. repeat split; assumption.
Qed.

Lemma is_update_count l :
  Forall is_update l ->
  Forall no_comment_update l /\ length (filter is_create l) = 0 /\
  forall issue i, Forall (in_place issue i) l.
Proof.
  induction 1 as [|call l H F (IH1 & IH2 & IH3)].
  - repeat split; constructor.
  - destruct call; try contradiction. simpl.
    repeat split; [constructor; [exact I | exact IH1] | exact IH2 |].
    intros issue i. constructor; [exact I | apply IH3].
Qed.

(** The calls of a cycle: the notice of its start, posted with the id
    that the cycle was given or as a new comment, and then at most two
    calls, of which at most one creates a comment.  With an id that
    JavaScript takes for true after the notice, the later calls are in
    place on that comment; without one, no comment is updated. *)
Lemma run_calls issue isUpdate commentId w :
  exists started cur first rest,
    commentBody review_started no_data = Some started /\
    log (run issue isUpdate commentId w) = log w ++ first :: rest /\
    length rest <= 2 /\ length (filter is_create rest) <= 1 /\
    ((exists i,
         isUpdate = true /\ commentId = Some i /\ i <> 0%Z /\ cur = Some i /\
         first = issues_updateComment i started) \/
     ((isUpdate = false \/ truthy_id commentId = false) /\
      first = issues_createComment started /\
      cur = if throws (issues_createComment started) w then commentId
            else Some (next_id w))) /\
    (forall i, cur = Some i -> i <> 0%Z -> Forall (in_place issue i) rest) /\
    (truthy_id cur = false -> Forall no_comment_update rest).
Proof.
  destruct (run_review_spec throws validateIssueFormat reviewPlugin issue
              isUpdate commentId w) as (started & cur & w1 & Hs & P1 & R).
  destruct (post_calls issue review_started no_data isUpdate commentId w
              started Hs) as (cur' & first & l1 & E1 & L1 & _ & _ & S1 & C1).
  rewrite P1 in E1, L1. cbn [fst snd] in E1, L1.
  assert (cur' = cur) by congruence. subst cur'.
  rewrite (S1 eq_refl) in L1.
  exists started, cur, first.
  destruct R as [(outcome & data & b & _ & _ & Hb & ->) | (message & _ & He & ->)].
  - destruct (post_calls issue outcome data true cur w1 b Hb)
      as (cur2 & call & l2 & _ & L2 & F2 & N2 & _ & C2).
    destruct (is_update_count l2 F2) as (G1 & G2 & G3).
    exists (call :: l2). split; [exact Hs|].
    rewrite L2, L1, <- app_assoc.
    split; [reflexivity|]. cbn [length filter].
    destruct C2 as [(i & _ & Ei & Hi & _ & ->) | ([U | U] & -> & _)];
      [| discriminate |]; cbn [is_create length].
    + split; [lia|]. split; [lia|]. split; [exact C1|]. split.
      * intros j Ej _. assert (j = i) by congruence. subst j.
        constructor; [reflexivity | apply G3].
      * intros T. rewrite Ei in T. unfold truthy_id in T.
        apply negb_false_iff, Z.eqb_eq in T. contradiction.
    + split; [lia|]. split; [lia|]. split; [exact C1|]. split.
      * intros j Ej Hj. rewrite Ej in U. unfold truthy_id in U.
        apply negb_false_iff, Z.eqb_eq in U. contradiction.
      * intros _. constructor; [exact I | exact G1].
  - exists [issues_createComment (systemErrorBody message)].
    split; [exact Hs|]. unfold postSystemErrorComment.
    rewrite createComment_log, L1, <- app_assoc.
    split; [reflexivity|]. cbn [length filter is_create].
    split; [lia|]. split; [lia|]. split; [exact C1|]. split.
    + intros i _ _. constructor; [|constructor]. simpl.
      exists message. split; [exact He | reflexivity].
    + intros _. constructor; [exact I | constructor].
Qed.

(** X11: on an opened ticket with the label, the first call posts the
    notice of a review in progress as a new comment.  When that call
    returns an id other than 0, every later call is a write of the ticket
    body, an update of that new comment or, when an error leaves the
    cycle (the validator throws, or the title of the report cannot be
    built), the comment on the system error.  When that call throws, no
    comment is updated afterwards: the status comment of the outcome is
    posted as a new comment. *)
Theorem X11_opened_cycle (issue : Issue) (w : World) :
  existsb (str_eqb (lit "plugin-publish")) (labels issue) = true ->
  exists started rest,
    commentBody review_started no_data = Some started /\
    log (handler opened issue w) = log w ++ issues_createComment started :: rest /\
    (throws (issues_createComment started) w = false -> next_id w <> 0%Z ->
     Forall (in_place issue (next_id w)) rest) /\
    (throws (issues_createComment started) w = true ->
     Forall no_comment_update rest).
Proof.
  intros Hlab. unfold handler, on_issue_event. rewrite Hlab. cbn [negb].
  destruct (run_calls issue false None w)
    as (started & cur & first & rest & Hs & L & _ & _ & C & Hold & Hnew).
  destruct C as [(i & U & _) | (_ & -> & Ec)]; [discriminate|].
  exists started, rest. split; [exact Hs|]. split; [exact L|]. split.
  - intros T Hi. rewrite T in Ec. apply (Hold (next_id w) Ec Hi).
  - intros T. rewrite T in Ec. apply Hnew. rewrite Ec. reflexivity.
Qed.

(** X12: an event on a ticket without the label leaves the tracker as
    it was.  With the label, an opened ticket makes at most three calls
    to the tracker and an edited one at most five, and an event creates
    at most two comments. *)
Theorem X12_calls_per_event (action : Action) (issue : Issue) (w : World) :
  (existsb (str_eqb (lit "plugin-publish")) (labels issue) = false ->
   handler action issue w = w) /\
  exists calls,
    log (handler action issue w) = log w ++ calls /\
    length calls <= match action with opened => 3 | edited => 5 end /\
    length (filter is_create calls) <= 2.
Proof.
  split.
  - intros Hlab. unfold handler, on_issue_event. rewrite Hlab. reflexivity.
  - assert (Run : forall isUpdate commentId w0,
               exists calls,
                 log (run issue isUpdate commentId w0) = log w0 ++ calls /\
                 length calls <= 3 /\ length (filter is_create calls) <= 2).
    { intros isUpdate commentId w0.
      destruct (run_calls issue isUpdate commentId w0)
        as (started & cur & first & rest & _ & L & N & C & _).
      exists (first :: rest). split; [exact L|]. cbn [length filter].
      destruct (is_create first); cbn [length]; lia. }
    destruct action.
    + unfold handler, on_issue_event.
      destruct (existsb _ (labels issue)); cbn [negb].
      * destruct (Run false None w) as (calls & L & N & C).
        exists calls. repeat split; assumption.
      * exists []. rewrite app_nil_r. repeat split; simpl; lia.
    + destruct (handler_edit_cases throws validateIssueFormat reviewPlugin issue w)
        as [[U | U] | (c & b & Hl & Hd & Hb & Hlab & E)].
      * fold handler in U. rewrite U. exists []. rewrite app_nil_r.
        repeat split; simpl; lia.
      * fold handler in U. rewrite U. exists [issues_listComments].
        repeat split; simpl; lia.
      * fold handler in E. rewrite E.
        pose proof (update_log throws (replace_g uncheck_box b)
                      (logged issues_listComments w)) as Lu.
        destruct (update throws (replace_g uncheck_box b)
                    (logged issues_listComments w)) as [[|] w2]; cbn [snd] in Lu.
        -- destruct (Run true (Some (id c)) w2) as (calls & L & N & C).
           exists (issues_listComments
                     :: issues_update (replace_g uncheck_box b) :: calls).
           rewrite L, Lu. cbn [log logged]. rewrite <- !app_assoc.
           split; [reflexivity|]. cbn [length filter is_create]. lia.
        -- exists [issues_listComments; issues_update (replace_g uncheck_box b)].
           rewrite Lu. cbn [log logged]. rewrite <- app_assoc.
           split; [reflexivity|]. simpl. lia.
Qed.

End Cycle.

Lemma X11_opened_cycle_witness :
  exists started rest,
    commentBody review_started no_data = Some started /\
    log (on_issue_event never_throws validate OrchestratorDefs.review opened
           (ticket checked_body) (tracker checked_body []))
    = issues_createComment started :: rest /\
    Forall (OrchestratorDefs.in_place validate OrchestratorDefs.review
              (ticket checked_body) 100%Z) rest.
Proof.
  destruct (X11_opened_cycle never_throws validate OrchestratorDefs.review
              (ticket checked_body) (tracker checked_body []))
    as (started & rest & Hs & L & Hin & _).
  - vm_compute. reflexivity.
  - exists started, rest. split; [exact Hs|]. split; [exact L|].
    apply Hin; [reflexivity|]. cbn [next_id tracker]. lia.
Defined.

End CycleFacts.

(** ** The write that unchecks the box *)

Module UncheckFacts.
Import Regex Combiner Validator Orchestrator RegexDefs CheckboxDefs
  OrchestratorDefs EventDefs JSFacts RegexFacts CheckboxFacts.

Lemma marks_only_refl s : marks_only s s.
Proof. induction s; constructor; [left; reflexivity | assumption]. Qed.

Lemma marks_only_app a a' b b' :
  marks_only a a' -> marks_only b b' -> marks_only (a ++ b) (a' ++ b').
Proof. apply Forall2_app. Qed.

(** The text that a checked box covers, and what replaces it. *)
Lemma parse_shape s r rest :
  parse s = Some (r, rest) ->
  exists c w1 b x d w2,
    s = c :: w1 ++ b :: x :: d :: w2 ++ RESUBMIT ++ rest /\
    r = c :: w1 ++ [b; 32%N; d] ++ w2 ++ RESUBMIT /\
    isX x = true.
Proof.
  unfold parse. destruct s as [|c t]; [discriminate|].
  destruct (isC c); [|discriminate].
  pose proof (takeWhile_dropWhile isWhiteSpace t) as Et.
  destruct (dropWhile isWhiteSpace t) as [|b [|x [|d t4]]]; try discriminate.
  destruct (LB b && isX x && RB d
            && startsWith RESUBMIT (dropWhile isWhiteSpace t4)) eqn:Cnd;
    [|discriminate].
  intros H.
  assert (Er : r = c :: takeWhile isWhiteSpace t ++ [b; 32%N; d]
                     ++ takeWhile isWhiteSpace t4 ++ RESUBMIT) by congruence.
  assert (Erest : rest = skipn (length RESUBMIT) (dropWhile isWhiteSpace t4))
    by congruence.
  clear H. subst r rest.
  apply andb_true_iff in Cnd. destruct Cnd as [Cnd S].
  apply andb_true_iff in Cnd. destruct Cnd as [Cnd _].
  apply andb_true_iff in Cnd. destruct Cnd as [_ X].
  apply startsWith_iff in S. destruct S as [z Sz].
  pose proof (takeWhile_dropWhile isWhiteSpace t4) as E4.
  exists c, (takeWhile isWhiteSpace t), b, x, d, (takeWhile isWhiteSpace t4).
  split; [|split; [reflexivity | exact X]].
  rewrite Sz. rewrite skipn_app, skipn_all, Nat.sub_diag. cbn [skipn app].
  rewrite <- Sz, E4. rewrite <- Et at 1. reflexivity.
Qed.

Lemma unchecked_marks : forall n s, length s <= n -> marks_only s (unchecked s).
Proof.
  induction n as [|n IH]; intros s Hs.
  - destruct s; [|simpl in Hs; lia]. rewrite unchecked_nil. constructor.
  - destruct s as [|c t]; [rewrite unchecked_nil; constructor|].
    destruct (parse (c :: t)) as [[r rest]|] eqn:P.
    + rewrite (unchecked_hit _ _ _ P).
      destruct (parse_some _ _ _ P) as (L & _ & _).
      destruct (parse_shape _ _ _ P) as (c' & w1 & b & x & d & w2 & Es & -> & X).
      rewrite Es.
      change (c' :: w1 ++ b :: x :: d :: w2 ++ RESUBMIT ++ rest)
        with ((c' :: w1) ++ [b] ++ [x] ++ [d] ++ w2 ++ RESUBMIT ++ rest).
      change ((c' :: w1 ++ [b; 32%N; d] ++ w2 ++ RESUBMIT) ++ unchecked rest)
        with (((c' :: w1) ++ [b] ++ [32%N] ++ [d] ++ w2 ++ RESUBMIT)
              ++ unchecked rest).
      rewrite <- !app_assoc.
      repeat (apply marks_only_app; [apply marks_only_refl|]).
      apply marks_only_app.
      * constructor; [right; split; [exact X | reflexivity] | constructor].
      * repeat (apply marks_only_app; [apply marks_only_refl|]).
        apply IH. simpl in Hs, L. lia.
    + rewrite (unchecked_miss _ _ P). constructor; [left; reflexivity|].
      apply IH. simpl in Hs. lia.
Qed.

(** A text in which no checked box starts anywhere is written as it
    is. *)
Lemma unchecked_fix s :
  (forall i, hit (skipn i s) = false) -> unchecked s = s.
Proof.
  induction s as [|c t IH]; intros H; [apply unchecked_nil|].
  assert (P : parse (c :: t) = None).
  { specialize (H 0). unfold hit in H. cbn [skipn] in H.
    destruct (parse (c :: t)); [discriminate | reflexivity]. }
  rewrite (unchecked_miss _ _ P). f_equal. apply IH.
  intros i. exact (H (S i)).
Qed.

(** X13: the body that a qualifying edit writes differs from the body of
    the event at check marks only: it has the same length, and wherever
    the two differ the body of the event has x or X and the written body
    a space.  A body without a checked box is written as it is, and
    unchecking twice is unchecking once. *)
Theorem X13_uncheck_changes_marks_only (b : jsstring) :
  let written := replace_g uncheck_box b in
  marks_only b written /\
  length written = length b /\
  (test CHECKED_BOX b = false -> written = b) /\
  replace_g uncheck_box written = written.
Proof.
  cbv zeta. fold (unchecked b).
  assert (M : marks_only b (unchecked b)) by (apply (unchecked_marks (length b)); lia).
  split; [exact M|]. split; [symmetry; exact (Forall2_length M)|].
  split.
  - intros T. apply unchecked_fix. intros i.
    rewrite test_false in T. apply checked_hit. apply T.
  - fold (unchecked (unchecked b)). apply unchecked_fix.
    apply (unchecked_no_hit (length b)). lia.
Qed.

End UncheckFacts.

(** ** What the validator accepts and what it reports *)

Module ValidationFacts.
Import Regex Combiner Validator ValidatorDefs JSFacts ValidatorFacts.

Lemma flat_map_nil {A B} (f : A -> list B) (l : list A) :
  flat_map f l = [] -> Forall (fun x => f x = []) l.
Proof.
  induction l as [|a l IH]; simpl; intros H; [constructor|].
  apply app_eq_nil in H. destruct H as [H1 H2].
  constructor; [exact H1 | apply IH; exact H2].
Qed.

(** Reading a field throws on null only. *)
Lemma get_cases (pd : JSValue) (key : jsstring) :
  (pd = JNull /\ get pd key = None) \/
  (pd <> JNull /\ exists v, get pd key = Some v).
Proof.
  destruct pd; cbn [get];
    [left; split; reflexivity | right; split; [discriminate | eauto]..].
Qed.

Section Validation.

Variable JSON_parse : jsstring -> jsstring + JSValue.
Variable URL_parse : jsstring -> option URL.

Let validate := validateIssueFormat JSON_parse URL_parse.

(** The checks of the fields throw exactly when the field repo is taken
    for true and cannot be printed. *)
Lemma fieldErrors_none name desc repo :
  fieldErrors URL_parse name desc repo = None <->
  truthy repo = true /\ ToString_opt repo = None.
Proof.
  unfold fieldErrors, repoErrors.
  destruct (truthy repo); cbn [negb].
  - destruct (ToString_opt repo) as [text|].
    + destruct (URL_parse text); split; try discriminate;
        intros [_ H]; discriminate.
    + split; [intros _; split; reflexivity | reflexivity].
  - split; [discriminate | intros [H _]; discriminate].
Qed.

(** X7: a ticket that the validator accepts has a title made of the tag,
    blanks and a name, which is not the title of the template; its body
    holds each of the three required declarations behind a checked box,
    and a fenced block tagged json whose text is not empty and parses to
    the record that the validator returns. *)
Theorem X7_valid_ticket_shape (issue : Issue) (pd : JSValue) :
  validate issue = FormatValid pd ->
  fullmatch TITLE (title issue) = true /\
  fullmatch TITLE_PLACEHOLDER (title issue) = false /\
  exists b,
    issue_body issue = Some b /\
    Forall (fun check => test (checkedDeclaration check) b = true)
           requiredChecks /\
    exists pre text rest,
      search jsonBlock b = Some (pre, text, rest) /\ text <> [] /\
      JSON_parse text = inr pd.
Proof.
  unfold validate, validateIssueFormat.
  set (body := match issue_body issue with Some b => b | None => [] end).
  destruct (search jsonBlock body) as [[[pre text] rest]|] eqn:S; [|discriminate].
  destruct text as [|t0 text]; [discriminate|].
  destruct (JSON_parse (t0 :: text)) as [message|pluginData] eqn:J; [discriminate|].
  destruct (get pluginData (lit "name")) as [name|]; [|discriminate].
  destruct (get pluginData (lit "desc")) as [desc|]; [|discriminate].
  destruct (get pluginData (lit "repo")) as [repo|]; [|discriminate].
  destruct (fieldErrors URL_parse name desc repo) as [added|]; [|discriminate].
  match goal with
  | |- context [?e ++ added] => destruct (e ++ added) as [|x l] eqn:E
  end; [|discriminate].
  intros H. injection H as <-.
  apply app_eq_nil in E. destruct E as [E _].
  apply app_eq_nil in E. destruct E as [E1 E2].
  apply when_nil, orb_false_iff in E1. destruct E1 as [T1 T2].
  apply negb_false_iff in T1.
  split; [exact T1|]. split; [exact T2|].
  assert (B : issue_body issue = Some body).
  { subst body. destruct (issue_body issue) as [b|]; [reflexivity|].
    vm_compute in S. discriminate. }
  exists body. split; [exact B|]. split.
  - apply flat_map_nil in E2. eapply Forall_impl; [|exact E2].
    intros check H. apply when_nil, negb_false_iff in H. exact H.
  - exists pre, (t0 :: text), rest. repeat split; [exact S | discriminate | exact J].
Qed.

(** X8: the validator never reports a format error with an empty list of
    errors.  It throws exactly when the text of the block parses to null,
    with the error of reading name of null, or to a value whose field
    repo is taken for true and cannot be printed, with the error of the
    conversion.  When the body has no block with a text, or when the text
    does not parse, the last error says so, with the message of the
    parser. *)
Theorem X8_validator_reports (issue : Issue) :
  let body := match issue_body issue with Some b => b | None => [] end in
  (forall es, validate issue = FormatInvalid es -> es <> []) /\
  (forall message,
      validate issue = FormatThrows message <->
      exists pre text rest pd,
        search jsonBlock body = Some (pre, text, rest) /\ text <> [] /\
        JSON_parse text = inr pd /\
        ((pd = JNull /\
          message = lit "Cannot read properties of null (reading 'name')") \/
         (exists repo,
             get pd (lit "repo") = Some repo /\ truthy repo = true /\
             ToString_opt repo = None /\ message = E_PRIMITIVE))) /\
  ((search jsonBlock body = None \/
    exists pre rest, search jsonBlock body = Some (pre, [], rest)) ->
   exists es, validate issue = FormatInvalid (es ++ [E_NO_JSON])) /\
  (forall pre text rest message,
      search jsonBlock body = Some (pre, text, rest) -> text <> [] ->
      JSON_parse text = inl message ->
      exists es, validate issue = FormatInvalid (es ++ [E_JSON message])).
Proof.
  cbv zeta. unfold validate, validateIssueFormat.
  set (body := match issue_body issue with Some b => b | None => [] end).
  set (errors := when _ E_TITLE ++ _).
  split; [|split; [|split]].
  - intros es.
    destruct (search jsonBlock body) as [[[pre text] rest]|].
    + destruct text as [|t0 text].
      * intros H. injection H as <-. intros N. apply app_eq_nil in N.
        destruct N as [_ N]. discriminate.
      * destruct (JSON_parse (t0 :: text)) as [message|pluginData].
        -- intros H. injection H as <-. intros N. apply app_eq_nil in N.
           destruct N as [_ N]. discriminate.
        -- destruct (get pluginData (lit "name")) as [name|]; [|discriminate].
           destruct (get pluginData (lit "desc")) as [desc|]; [|discriminate].
           destruct (get pluginData (lit "repo")) as [repo|]; [|discriminate].
           destruct (fieldErrors URL_parse name desc repo) as [added|];
             [|discriminate].
           destruct (errors ++ added); [discriminate|].
           intros H. injection H as <-. discriminate.
    + intros H. injection H as <-. intros N. apply app_eq_nil in N.
      destruct N as [_ N]. discriminate.
  - intros message.
    destruct (search jsonBlock body) as [[[pre text] rest]|].
    + destruct text as [|t0 text].
      * split; [discriminate|]. intros (p & t & r & pd & E & N & _).
        injection E as _ <- _. contradiction.
      * destruct (JSON_parse (t0 :: text)) as [m|pluginData] eqn:J.
        -- split; [discriminate|]. intros (p & t & r & pd & E & _ & J' & _).
           injection E as _ <- _. congruence.
        -- assert (Same : forall p t r pd,
                      Some (pre, t0 :: text, rest) = Some (p, t, r) ->
                      JSON_parse t = inr pd -> pd = pluginData).
           { intros p t r pd E J'. injection E as _ <- _. congruence. }
           destruct (get_cases pluginData (lit "name"))
             as [[Hn Gn] | [Hn [name Gn]]].
           ++ rewrite Gn. split.
              ** intros H. exists pre, (t0 :: text), rest, pluginData.
                 split; [reflexivity|]. split; [discriminate|].
                 split; [exact J|]. left. split; [exact Hn | congruence].
              ** intros (p & t & r & pd & E & _ & J' & [[_ ->] | (repo & G & _)]);
                   [reflexivity|].
                 rewrite (Same p t r pd E J'), Hn in G. discriminate.
           ++ destruct (get_cases pluginData (lit "desc"))
                as [[Hd _] | [_ [desc Gd]]]; [contradiction|].
              destruct (get_cases pluginData (lit "repo"))
                as [[Hr _] | [_ [repo Gr]]]; [contradiction|].
              rewrite Gn, Gd, Gr.
              destruct (fieldErrors URL_parse name desc repo) as [added|] eqn:F.
              ** split; [destruct (errors ++ added); discriminate|].
                 intros (p & t & r & pd & E & _ & J'
                         & [[Hp _] | (repo' & G & T & S & _)]).
                 --- rewrite (Same p t r pd E J') in Hp. contradiction.
                 --- rewrite (Same p t r pd E J'), Gr in G.
                     assert (repo' = repo) by congruence. subst repo'.
                     assert (N : fieldErrors URL_parse name desc repo = None)
                       by (apply fieldErrors_none; split; assumption).
                     congruence.
              ** apply fieldErrors_none in F. destruct F as [T S]. split.
                 --- intros H. exists pre, (t0 :: text), rest, pluginData.
                     split; [reflexivity|]. split; [discriminate|].
                     split; [exact J|]. right. exists repo.
                     split; [exact Gr|]. split; [exact T|].
                     split; [exact S | congruence].
                 --- intros (p & t & r & pd & E & _ & J'
                             & [[Hp _] | (repo' & _ & _ & _ & ->)]);
                       [|reflexivity].
                     rewrite (Same p t r pd E J') in Hp. contradiction.
    + split; [discriminate|]. intros (p & t & r & pd & E & _). discriminate.
  - intros [-> | (pre & rest & ->)]; exists errors; reflexivity.
  - intros pre text rest message -> N J.
    destruct text as [|t0 text]; [contradiction|]. rewrite J.
    exists errors. reflexivity.
Qed.

End Validation.

Lemma X7_valid_ticket_shape_witness :
  fullmatch TITLE (title (submission "https://github.com/acme/foo")) = true /\
  fullmatch TITLE_PLACEHOLDER (title (submission "https://github.com/acme/foo"))
  = false.
Proof.
  assert (V : validateIssueFormat example_JSON_parse URL_basic
                (submission "https://github.com/acme/foo")
              = FormatValid (json_value "https://github.com/acme/foo")).
  { vm_compute. reflexivity. }
  destruct (X7_valid_ticket_shape example_JSON_parse URL_basic
              (submission "https://github.com/acme/foo")
              (json_value "https://github.com/acme/foo") V) as (T1 & T2 & _).
  split; [exact T1 | exact T2].
Defined.

End ValidationFacts.

(** ** The content that is sent for review *)

Module ContentFacts.
Import Normalizer Planner NormalizerDefs JSFacts NormalizerFacts.

Lemma split_not_nil sep s : split sep s <> [].
Proof.
  destruct s as [|c t]; simpl; [discriminate|].
  destruct (char_eqb c sep); [discriminate|].
  destruct (split sep t); discriminate.
Qed.

(** No part of a split holds the separator. *)
Lemma split_no_sep sep s : Forall (fun p => ~ In sep p) (split sep s).
Proof.
  induction s as [|c t IH]; simpl.
  - constructor; [intros []|constructor].
  - destruct (char_eqb c sep) eqn:E.
    + constructor; [intros [] | exact IH].
    + destruct (split sep t) as [|w ws]; [constructor; [|constructor]|].
      * intros [H|[]]. subst c. rewrite char_eqb_refl in E. discriminate.
      * inversion IH as [|? ? Hw Hws]; subst. constructor; [|exact Hws].
        intros [H|H]; [|exact (Hw H)].
        subst c. rewrite char_eqb_refl in E. discriminate.
Qed.

Lemma split_one sep p : ~ In sep p -> split sep p = [p].
Proof.
  induction p as [|c p IH]; intros H; [reflexivity|]. simpl.
  destruct (char_eqb c sep) eqn:E.
  - apply char_eqb_eq in E. subst c. elim H. left. reflexivity.
  - rewrite IH; [reflexivity|]. intros N. apply H. right. exact N.
Qed.

Lemma split_app sep p r :
  ~ In sep p -> split sep (p ++ sep :: r) = p :: split sep r.
Proof.
  induction p as [|c p IH]; intros H; simpl.
  - rewrite char_eqb_refl. reflexivity.
  - destruct (char_eqb c sep) eqn:E.
    + apply char_eqb_eq in E. subst c. elim H. left. reflexivity.
    + rewrite IH; [reflexivity|]. intros N. apply H. right. exact N.
Qed.

(** Joining and splitting again gives the parts back. *)
Lemma split_join sep parts :
  parts <> [] -> Forall (fun p => ~ In sep p) parts ->
  split sep (join [sep] parts) = parts.
Proof.
  induction parts as [|p ps IH]; intros N F; [contradiction|].
  inversion F as [|? ? Hp Hps]; subst.
  destruct ps as [|q ps].
  - simpl. apply split_one. exact Hp.
  - change (join [sep] (p :: q :: ps)) with (p ++ sep :: join [sep] (q :: ps)).
    rewrite split_app by exact Hp. f_equal. apply IH; [discriminate | exact Hps].
Qed.

(** Splitting and joining again gives the text back. *)
Lemma join_split sep s : join [sep] (split sep s) = s.
Proof.
  induction s as [|c t IH]; [reflexivity|]. simpl.
  destruct (char_eqb c sep) eqn:E.
  - apply char_eqb_eq in E. subst c.
    pose proof (split_not_nil sep t) as N.
    destruct (split sep t) as [|w ws]; [contradiction|].
    change (join [sep] ([] :: w :: ws)) with (sep :: join [sep] (w :: ws)).
    rewrite IH. reflexivity.
  - pose proof (split_not_nil sep t) as N.
    destruct (split sep t) as [|w ws]; [contradiction|].
    destruct ws as [|v ws]; simpl in *; rewrite <- IH; reflexivity.
Qed.

Lemma remove_prefix line :
  exists rest, line = removeCommentsFromLine line ++ rest.
Proof.
  rewrite removeCommentsFromLine_spec.
  destruct (spec_normalize_cases line) as [E | (i & Hi & _ & _ & E)].
  - exists []. rewrite E, app_nil_r. reflexivity.
  - rewrite E. destruct (trimEnd_prefix (firstn i line)) as [w Hw].
    exists (w ++ skipn i line).
    rewrite app_assoc, <- Hw. symmetry. apply firstn_skipn.
Qed.

Lemma remove_idem line :
  removeCommentsFromLine (removeCommentsFromLine line)
  = removeCommentsFromLine line.
Proof. rewrite !removeCommentsFromLine_spec. apply spec_normalize_idem. Qed.

(** The lines that normalizeContent keeps. *)
Lemma kept_lines raw :
  let kept := filter (fun line => negb (str_eqb (trim line) []))
                (map removeCommentsFromLine (split NEWLINE raw)) in
  Forall (fun l => ~ In NEWLINE l /\ trim l <> [] /\
                   removeCommentsFromLine l = l) kept.
Proof.
  cbv zeta. apply Forall_forall. intros l Hl.
  apply filter_In in Hl. destruct Hl as [Hm Hb].
  apply in_map_iff in Hm. destruct Hm as (l0 & <- & H0).
  pose proof (split_no_sep NEWLINE raw) as F.
  rewrite Forall_forall in F. specialize (F l0 H0).
  split; [|split].
  - destruct (remove_prefix l0) as [rest E]. intros N. apply F.
    rewrite E. apply in_or_app. left. exact N.
  - apply negb_true_iff in Hb. intros E. rewrite E in Hb. discriminate.
  - apply remove_idem.
Qed.

Lemma filter_all {A} (f : A -> bool) l :
  Forall (fun x => f x = true) l -> filter f l = l.
Proof.
  induction 1 as [|a l H F IH]; simpl; [reflexivity|]. rewrite H, IH. reflexivity.
Qed.

Lemma map_fix {A} (f : A -> A) l :
  Forall (fun x => f x = x) l -> map f l = l.
Proof.
  induction 1 as [|a l H F IH]; simpl; [reflexivity|]. rewrite H, IH. reflexivity.
Qed.

(** X1: normalizing a content that is already normalized changes
    nothing; and a normalized content is empty or made of lines none of
    which is blank and none of which holds a comment that the line
    normalizer would cut. *)
Theorem X1_normalize_content_idempotent (raw : jsstring) :
  normalizeContent (normalizeContent raw) = normalizeContent raw /\
  (normalizeContent raw = [] \/
   Forall (fun l => trim l <> [] /\ removeCommentsFromLine l = l)
          (split NEWLINE (normalizeContent raw))).
Proof.
  pose proof (kept_lines raw) as K. cbv zeta in K.
  assert (N : normalizeContent raw
              = join [NEWLINE]
                  (filter (fun line => negb (str_eqb (trim line) []))
                     (map removeCommentsFromLine (split NEWLINE raw))))
    by reflexivity.
  set (kept := filter _ (map removeCommentsFromLine (split NEWLINE raw))) in *.
  rewrite N. clear N.
  destruct kept as [|l ls] eqn:E.
  - split; [vm_compute; reflexivity | left; reflexivity].
  - rewrite <- E in *.
    assert (S : split NEWLINE (join [NEWLINE] kept) = kept).
    { apply split_join; [rewrite E; discriminate|].
      eapply Forall_impl; [|exact K]. intros a H. apply H. }
    split.
    + unfold normalizeContent. rewrite S.
      rewrite map_fix by (eapply Forall_impl; [|exact K]; intros a H; apply H).
      rewrite filter_all; [reflexivity|].
      eapply Forall_impl; [|exact K]. intros a (_ & H & _).
      apply negb_true_iff. destruct (str_eqb (trim a) []) eqn:T; [|reflexivity].
      apply str_eqb_eq in T. contradiction.
    + right. rewrite S. eapply Forall_impl; [|exact K].
      intros a (_ & H1 & H2). split; assumption.
Qed.

Lemma remove_length line :
  length (removeCommentsFromLine line) <= length line.
Proof.
  destruct (remove_prefix line) as [rest E]. rewrite E at 2.
  rewrite length_app. lia.
Qed.

Lemma join_cons_length sep p ps :
  length (join [sep] (p :: ps))
  = length p + match ps with [] => 0 | _ => 1 + length (join [sep] ps) end.
Proof.
  destruct ps as [|q ps]; [simpl; lia|].
  change (join [sep] (p :: q :: ps)) with (p ++ sep :: join [sep] (q :: ps)).
  rewrite length_app. reflexivity.
Qed.

Lemma kept_length (lines : list jsstring) :
  length (join [NEWLINE]
            (filter (fun line => negb (str_eqb (trim line) []))
               (map removeCommentsFromLine lines)))
  <= length (join [NEWLINE] lines).
Proof.
  induction lines as [|a ls IH]; [simpl; lia|].
  cbn [map filter].
  rewrite (join_cons_length NEWLINE a ls).
  destruct (negb (str_eqb (trim (removeCommentsFromLine a)) [])).
  - rewrite join_cons_length. pose proof (remove_length a).
    destruct ls as [|b ls]; [simpl; lia|].
    destruct (filter _ (map removeCommentsFromLine (b :: ls))); lia.
  - destruct ls as [|b ls]; [simpl; lia|]. lia.
Qed.

(** X2: normalizing never lengthens a content, so the estimate of the
    tokens of a file is never above the estimate on what was fetched. *)
Theorem X2_normalize_content_length (raw : jsstring) :
  length (normalizeContent raw) <= length raw.
Proof.
  unfold normalizeContent. etransitivity; [apply kept_length|].
  rewrite join_split. lia.
Qed.

End ContentFacts.

(** ** Sorting what is sorted *)

Module SortFacts.
Import Planner Prioritizer PrioritizerDefs PrioritizerFacts.
#[local] Open Scope Z_scope.

Lemma sort_sorted_id {A} (cmp : A -> A -> Z) (l : list A) :
  StronglySorted (fun a b => cmp a b <= 0) l -> sort cmp l = l.
Proof.
  induction 1 as [|x l Hs IH Hx]; [reflexivity|].
  cbn [sort]. rewrite IH. destruct l as [|y l]; [reflexivity|].
  cbn [insert]. inversion Hx as [|? ? Hy _]; subst.
  apply Z.leb_le in Hy. rewrite Hy. reflexivity.
Qed.

Section Priority.

Variable toLowerCase : jsstring -> jsstring.
Variable localeCompare : jsstring -> jsstring -> Z.

Hypothesis localeCompare_flip :
  forall a b, 0 < localeCompare a b <-> localeCompare b a < 0.
Hypothesis localeCompare_trans :
  forall a b c, localeCompare a b <= 0 -> localeCompare b c <= 0 ->
                localeCompare a c <= 0.

(** X3: with a collation that is a consistent comparison, files that are
    in the order of the comparator already come back as they are, and so
    sorting the result of sortFilesByPriority again changes nothing. *)
Theorem X3_sort_is_idempotent (files : list FileMeta) :
  (StronglySorted
     (fun a b => compareFn toLowerCase localeCompare a b <= 0) files ->
   sortFilesByPriority toLowerCase localeCompare files = files) /\
  sortFilesByPriority toLowerCase localeCompare
    (sortFilesByPriority toLowerCase localeCompare files)
  = sortFilesByPriority toLowerCase localeCompare files.
Proof.
  split.
  - apply sort_sorted_id.
  - unfold sortFilesByPriority. apply sort_sorted_id.
    apply sort_sorted.
    + apply cmp_flip. exact localeCompare_flip.
    + apply cmp_trans; assumption.
Qed.

End Priority.

Lemma X3_sort_is_idempotent_witness :
  sortFilesByPriority asciiLower compareUnits
    (sortFilesByPriority asciiLower compareUnits example_tree)
  = sortFilesByPriority asciiLower compareUnits example_tree.
Proof.
  exact (proj2 (X3_sort_is_idempotent asciiLower compareUnits
                  compareUnits_flip compareUnits_trans example_tree)).
Defined.

End SortFacts.

(** ** The review of a repository *)

Module PipelineFacts.
Import Planner Prioritizer Combiner Validator Config Pipeline PlannerDefs
  ValidatorDefs PipelineDefs JSFacts.

Lemma join_length (sep : jsstring) (parts : list jsstring) :
  parts <> [] ->
  length (join sep parts) + length sep
  = list_sum (map (fun p => length p + length sep) parts).
Proof.
  induction parts as [|p ps IH]; intros N; [contradiction|].
  destruct ps as [|q ps]; [simpl; lia|].
  change (join sep (p :: q :: ps)) with (p ++ sep ++ join sep (q :: ps)).
  rewrite !length_app. unfold list_sum in *. cbn [map fold_right].
  specialize (IH ltac:(discriminate)). cbn [map fold_right] in IH. lia.
Qed.

Lemma fetched_length getBlob (files : list FileMeta) :
  length (fetched getBlob files) <= length files.
Proof.
  unfold fetched. induction files as [|f files IH]; simpl; [lia|].
  rewrite length_app. destruct (getBlob (sha f)); simpl; lia.
Qed.

Section Prompt.

Variable toLowerCase : jsstring -> jsstring.
Variables MAIN_FILE_PROMPT REGULAR_FILE_PROMPT : jsstring.

Let select := selectAndFetchFilesForReview toLowerCase MAIN_FILE_PROMPT
                REGULAR_FILE_PROMPT.
Let prompt := buildBatchPrompt toLowerCase MAIN_FILE_PROMPT REGULAR_FILE_PROMPT.
Let units := block_units toLowerCase MAIN_FILE_PROMPT REGULAR_FILE_PROMPT.

#[local] Abbreviation budget_inv :=
  (PlannerDefs.budget_inv toLowerCase MAIN_FILE_PROMPT REGULAR_FILE_PROMPT).
#[local] Abbreviation sum_costs :=
  (PlannerDefs.sum_costs toLowerCase MAIN_FILE_PROMPT REGULAR_FILE_PROMPT).

(** The selection holds at most 15 files, at most as many as the
    input, and costs what the loop counted. *)
Lemma select_counts blob files M :
  length (select blob files M) <= 15 /\
  length (select blob files M) <= length files /\
  ((select blob files M = [] /\ sum_costs (select blob files M) = 0%Z) \/
   Num.gt_Z (sum_costs (select blob files M)) (tokenLimit M) = false).
Proof.
  unfold select, selectAndFetchFilesForReview.
  assert (I0 : budget_inv M [] 0%Z).
  { split; [reflexivity|]. split; [simpl; lia|]. left. split; reflexivity. }
  destruct (PlannerFacts.loop_inv toLowerCase MAIN_FILE_PROMPT
              REGULAR_FILE_PROMPT blob M files [] 0%Z I0)
    as [(I1 & I2 & I3) _].
  destruct (PlannerFacts.loop_prefix toLowerCase MAIN_FILE_PROMPT
              REGULAR_FILE_PROMPT blob M files [] 0%Z) as [k Hk].
  split; [exact I2|]. split.
  - rewrite Hk. cbn [app]. rewrite length_firstn.
    pose proof (fetched_length blob files). lia.
  - rewrite <- I1. destruct I3 as [[E1 E2] | G].
    + left. split; [exact E1 | rewrite E2; reflexivity].
    + right. exact G.
Qed.

Lemma prompt_length (files : list File) :
  files <> [] ->
  length (prompt files) + 7 = list_sum (map (fun f => units f + 7) files).
Proof.
  intros N. unfold prompt, buildBatchPrompt.
  match goal with
  | |- context [join ?sep (map ?block files)] =>
    pose proof (join_length sep (map block files)) as J
  end.
  change (length (nl ++ nl ++ lit "---" ++ nl ++ nl)) with 7 in J.
  rewrite J by (destruct files; [contradiction | discriminate]).
  rewrite map_map. f_equal. apply map_ext. intros f.
  unfold units, block_units, template.
  rewrite !length_app.
  change (length (lit "### ")) with 4.
  change (length (lit "```python")) with 9.
  change (length (lit "```")) with 3.
  change (length nl) with 1.
  destruct (isMain toLowerCase (file_path f)); lia.
Qed.

Lemma four_costs (f : File) :
  (Z.of_nat (units f) <= 4 * cost toLowerCase MAIN_FILE_PROMPT
                               REGULAR_FILE_PROMPT f + 22)%Z.
Proof.
  unfold units, block_units, template, cost, estimatedTokens, promptTokens,
    mainPromptTokens, regularPromptTokens.
  rewrite PlannerFacts.ceil_quarter.
  destruct (isMain toLowerCase (file_path f));
    rewrite PlannerFacts.ceil_quarter0;
    rewrite !Nat2Z.inj_add; Z.to_euclidean_division_equations; lia.
Qed.

Lemma units_sum (files : list File) :
  (Z.of_nat (list_sum (map (fun f => (units f + 7)%nat) files))
   <= 4 * sum_costs files + 29 * Z.of_nat (length files))%Z.
Proof.
  unfold PlannerDefs.sum_costs.
  unfold list_sum.
  induction files as [|f files IH]; cbn [map fold_right length]; [lia|].
  pose proof (four_costs f). lia.
Qed.

(** X4: the prompt for a list of files is empty for no file, and
    otherwise holds, for each file, its path, its content, its template
    and 22 units of heading and fences, with 7 units between two files.
    For a configured maximum between 0 and 2^51, the prompt built from
    the planner's selection has at most 2.8 units for each token of the
    maximum, and 428 more. *)
Theorem X4_prompt_length (blob : jsstring -> option jsstring)
    (files : list FileMeta) (M : Z) :
  (0 <= M < 2 ^ 51)%Z ->
  prompt [] = [] /\
  (forall fs, fs <> [] ->
              length (prompt fs) + 7
              = list_sum (map (fun f => units f + 7) fs)) /\
  (10 * Z.of_nat (length (prompt (select blob files M))) <= 28 * M + 4280)%Z.
Proof.
  intros HM. split; [reflexivity|]. split; [exact prompt_length|].
  destruct (select_counts blob files M) as (C1 & _ & C3).
  destruct (select blob files M) as [|f fs] eqn:E.
  - change (prompt []) with (@nil char). cbn [length]. lia.
  - rewrite <- E in C1, C3 |- *.
    assert (N : select blob files M <> []) by (rewrite E; discriminate).
    pose proof (prompt_length _ N) as L.
    pose proof (units_sum (select blob files M)) as U.
    assert (B : (10 * sum_costs (select blob files M) <= 7 * M)%Z).
    { destruct C3 as [[E0 _] | G]; [contradiction|].
      apply NumFacts.tokenLimit_bound; assumption. }
    lia.
Qed.

End Prompt.

Lemma X4_prompt_length_witness :
  (10 * Z.of_nat
          (length
             (buildBatchPrompt asciiLower (lit "0123456789") (lit "01234")
                (selectAndFetchFilesForReview asciiLower (lit "0123456789")
                   (lit "01234") example_getBlob example_files 30)))
   <= 28 * 30 + 4280)%Z.
Proof.
  refine (proj2 (proj2
    (X4_prompt_length asciiLower (lit "0123456789") (lit "01234")
       example_getBlob example_files 30 _))).
  lia.
Defined.

Section Pipeline.

Variable toLowerCase : jsstring -> jsstring.
Variable localeCompare : jsstring -> jsstring -> Z.
Variables MAIN_FILE_PROMPT REGULAR_FILE_PROMPT : jsstring.
Variable env : Env.
Variable getTree : jsstring -> jsstring -> TreeResponse.
Variable getBlob : jsstring -> jsstring -> jsstring -> option jsstring.
Variable create : jsstring -> Completion.
Variable URL_parse : jsstring -> option URL.

Let select := selectAndFetchFilesForReview toLowerCase MAIN_FILE_PROMPT
                REGULAR_FILE_PROMPT.
Let prompt := buildBatchPrompt toLowerCase MAIN_FILE_PROMPT REGULAR_FILE_PROMPT.
Let performAIReview :=
  Pipeline.performAIReview toLowerCase localeCompare MAIN_FILE_PROMPT
    REGULAR_FILE_PROMPT env getTree getBlob create.

(** X5: when the review of a repository succeeds, the tree was read,
    between 1 and 15 of its Python files were selected, the completion
    service gave a text that is not empty for the prompt built from the
    selection, and the review is that text followed by the summary for
    the number of Python files of the tree, which is at least the number
    of selected files. *)
Theorem X5_successful_review (owner repo : jsstring) (r : ReviewResult) :
  performAIReview owner repo = inr r ->
  success r = true ->
  exists items c s,
    getTree owner repo = TreeData (Some items) /\
    let files := map meta (filter isPythonBlob items) in
    let selected :=
      select (getBlob owner repo)
        (sortFilesByPriority toLowerCase localeCompare files)
        (maxInputTokens (getConfig env)) in
    1 <= length selected <= 15 /\
    length selected <= length files /\
    create (prompt selected) = Content (Some (c :: s)) /\
    r = {| success := true;
           review := Some ((c :: s) ++ summary (length files) selected);
           error := None |}.
Proof.
  unfold performAIReview, Pipeline.performAIReview.
  destruct (getTree owner repo) as [message|[items|]] eqn:T;
    cbn [fetchPythonFileTree]; try discriminate;
    [|intros H; injection H as <-; discriminate].
  assert (F : fetchPythonFileTree (TreeData (Some items))
              = inr (map meta (filter isPythonBlob items))).
  { destruct items; reflexivity. }
  cbn [fetchPythonFileTree] in F. rewrite F. clear F.
  intros H S. exists items.
  remember (map meta (filter isPythonBlob items)) as files eqn:Ef.
  destruct files as [|f0 files'];
    [injection H as <-; discriminate|].
  cbv zeta in H. fold select in H. cbv zeta.
  destruct (select_counts toLowerCase MAIN_FILE_PROMPT REGULAR_FILE_PROMPT
              (getBlob owner repo)
              (sortFilesByPriority toLowerCase localeCompare (f0 :: files'))
              (maxInputTokens (getConfig env))) as (C1 & C2 & _).
  fold select in C1, C2.
  assert (Lf : length (sortFilesByPriority toLowerCase localeCompare
                         (f0 :: files'))
               = length (f0 :: files')).
  { symmetry. apply Permutation_length. apply PrioritizerFacts.sort_perm. }
  rewrite Lf in C2.
  remember (select (getBlob owner repo)
              (sortFilesByPriority toLowerCase localeCompare (f0 :: files'))
              (maxInputTokens (getConfig env))) as selected eqn:Es.
  destruct selected as [|x sel];
    [injection H as <-; discriminate|].
  unfold combineReviewResults, reviewFileBatch, complete in H.
  fold prompt in H.
  destruct (model (getConfig env));
    [|injection H as <-; discriminate].
  destruct (create (prompt (x :: sel))) as [|[[|c s]|]] eqn:Cr;
    cbn [negb success review toStr] in H;
    try (injection H as <-; discriminate).
  injection H as <-.
  exists c, s. split; [reflexivity|].
  cbn [length] in *. repeat split; lia.
Qed.

#[local] Tactic Notation "fails_at" constr(E) integer(k) :=
  right; split; [reflexivity|]; split; [reflexivity|];
  exists E; split; [vm_compute; reflexivity|];
  cbn [In]; do k right; left; reflexivity.

#[local] Tactic Notation "wraps_at" constr(E) integer(k) :=
  right; split; [reflexivity|]; split; [reflexivity|];
  exists E; split; [vm_compute; reflexivity|];
  left; cbn [In]; do k right; left; reflexivity.

Ltac thrown :=
  right; split; [reflexivity|]; split; [reflexivity|];
  eexists; split; [reflexivity|]; right; eexists; reflexivity.

(** X6: the review of a repository throws only when the reading of the
    tree throws, with the same message.  A failure that it returns has
    no review text and carries one of four messages: no Python file in
    the tree, no file selected, an empty answer of the completion
    service, or an error of that service; the two messages of
    reviewFileBatch and combineReviewResults for no file and for no
    message never come out of it.  reviewPlugin adds the failure on
    owner and repo and the failure that wraps the message of an error. *)
Theorem X6_review_failures (owner repo : jsstring) (pd : JSValue) :
  match performAIReview owner repo with
  | inl message => getTree owner repo = TreeThrows message
  | inr r =>
    success r = true \/
    (success r = false /\ review r = None /\
     exists m, error r = Some m /\
               In m [E_NO_PYTHON; E_NONE_SELECTED; E_EMPTY_RESPONSE; E_SERVICE])
  end /\
  let r := reviewPlugin URL_parse performAIReview pd in
  success r = true \/
  (success r = false /\ review r = None /\
   exists m, error r = Some m /\
             (In m [E_NO_PYTHON; E_NONE_SELECTED; E_EMPTY_RESPONSE; E_SERVICE;
                    E_OWNER_REPO] \/
              exists message, m = E_FETCH message)).
Proof.
  assert (P : forall o p,
             match performAIReview o p with
             | inl message => getTree o p = TreeThrows message
             | inr r =>
               success r = true \/
               (success r = false /\ review r = None /\
                exists m, error r = Some m /\
                          In m [E_NO_PYTHON; E_NONE_SELECTED; E_EMPTY_RESPONSE;
                                E_SERVICE])
             end).
  { intros o p. unfold performAIReview, Pipeline.performAIReview.
    destruct (getTree o p) as [message|[items|]];
      cbn [fetchPythonFileTree]; [reflexivity| |].
    - assert (F : fetchPythonFileTree (TreeData (Some items))
                  = inr (map meta (filter isPythonBlob items))).
      { destruct items; reflexivity. }
      cbn [fetchPythonFileTree] in F. rewrite F. clear F.
      destruct (map meta (filter isPythonBlob items)) as [|f0 files'] eqn:Ef.
      + fails_at E_NO_PYTHON 0.
      + rewrite <- Ef. cbv zeta.
        destruct (selectAndFetchFilesForReview _ _ _ _ _ _) as [|x sel] eqn:Es.
        * fails_at E_NONE_SELECTED 1.
        * unfold combineReviewResults, reviewFileBatch, complete.
          destruct (model (getConfig env)).
          -- destruct (create _) as [|[[|c s]|]]; cbn [negb success].
             ++ fails_at E_SERVICE 3.
             ++ fails_at E_EMPTY_RESPONSE 2.
             ++ left. reflexivity.
             ++ fails_at E_EMPTY_RESPONSE 2.
          -- fails_at E_SERVICE 3.
    - fails_at E_NO_PYTHON 0. }
  split; [apply P|]. cbv zeta. unfold reviewPlugin.
  destruct (get pd (lit "repo")) as [repo'|]; [|thrown].
  destruct (ToString_opt repo') as [text|]; [|thrown].
  destruct (URL_parse text) as [url|]; [|thrown].
  destruct (segments (pathname url)) as [|o [|p rest]].
  - wraps_at E_OWNER_REPO 4.
  - wraps_at E_OWNER_REPO 4.
  - specialize (P o p). destruct (performAIReview o p) as [message|r].
    + thrown.
    + destruct P as [S | (S & R & m & E & I)]; [left; exact S|].
      right. split; [exact S|]. split; [exact R|].
      exists m. split; [exact E|]. left. cbn [In] in *.
      destruct I as [I | [I | [I | [I | []]]]];
        [ left | right; left | right; right; left
        | right; right; right; left ]; exact I.
Qed.

End Pipeline.

Lemma X5_successful_review_witness :
  exists items c s,
    example_tree_response (lit "acme") (lit "foo") = TreeData (Some items) /\
    let files := map meta (filter isPythonBlob items) in
    let selected :=
      selectAndFetchFilesForReview asciiLower (lit "0123456789") (lit "01234")
        example_getBlob (sortFilesByPriority asciiLower compareUnits files)
        (maxInputTokens (getConfig example_env)) in
    1 <= length selected <= 15 /\
    length selected <= length files /\
    example_create
      (buildBatchPrompt asciiLower (lit "0123456789") (lit "01234") selected)
    = Content (Some (c :: s)) /\
    example_result
    = {| success := true;
         review := Some ((c :: s) ++ summary (length files) selected);
         error := None |}.
Proof.
  refine (X5_successful_review asciiLower compareUnits
            (lit "0123456789") (lit "01234") example_env example_tree_response
            (fun owner repo => example_getBlob) example_create
            (lit "acme") (lit "foo") example_result _ _).
  - vm_compute. reflexivity.
  - reflexivity.
Defined.

End PipelineFacts.

(** ** The configuration *)

Module ConfigFacts.
Import Combiner Config JSFacts.

Lemma digits_units (d : Decimal.uint) : forall a : nat,
  digits (Z.of_nat a) (uint_units d) = Z.of_nat (Nat.of_uint_acc d a).
Proof.
  induction d; intros a; cbn [uint_units Nat.of_uint_acc digits];
    try reflexivity;
    change (is_digit _) with true; cbv iota;
    rewrite <- IHd; f_equal; rewrite Nat.tail_mul_spec;
    match goal with
    | |- context [Z.of_N ?c] => change (Z.of_N c) with (Z.of_N c)
    end; lia.
Qed.

Lemma digits_stop (l : jsstring) c t : forall acc,
  Forall (fun x => is_digit x = true) l -> is_digit c = false ->
  digits acc (l ++ c :: t) = digits acc l.
Proof.
  induction l as [|x l IH]; intros acc F Hc.
  - simpl. rewrite Hc. reflexivity.
  - inversion F as [|? ? Hx Hl]; subst. cbn [app digits]. rewrite Hx.
    apply IH; assumption.
Qed.

Lemma units_are_digits (d : Decimal.uint) :
  Forall (fun x => is_digit x = true) (uint_units d).
Proof. induction d; cbn [uint_units]; constructor; (reflexivity || assumption). Qed.

Lemma to_uint_not_nil (n : nat) : Nat.to_uint n <> Decimal.Nil.
Proof.
  rewrite <- (DecimalNat.Unsigned.of_to n) at 1.
  rewrite DecimalNat.Unsigned.to_of. apply DecimalFacts.unorm_nonnil.
Qed.

(** The decimal text of a count starts with a digit. *)
Lemma Number_toString_head (n : nat) :
  exists c t, Number_toString n = c :: t /\ is_digit c = true /\
              Forall (fun x => is_digit x = true) t.
Proof.
  unfold Number_toString. pose proof (to_uint_not_nil n) as N.
  pose proof (units_are_digits (Nat.to_uint n)) as F.
  destruct (uint_units (Nat.to_uint n)) as [|c t] eqn:E.
  - destruct (Nat.to_uint n); try discriminate. contradiction.
  - inversion F; subst. exists c, t. repeat split; assumption.
Qed.

Lemma digit_cases c :
  is_digit c = true ->
  (c = 48 \/ c = 49 \/ c = 50 \/ c = 51 \/ c = 52 \/ c = 53 \/ c = 54
   \/ c = 55 \/ c = 56 \/ c = 57)%N.
Proof.
  unfold is_digit. intros H. apply andb_true_iff in H. destruct H as [H1 H2].
  apply N.leb_le in H1, H2. lia.
Qed.

(** parseInt on a text that starts with digits. *)
Lemma parseInt_digits c t :
  is_digit c = true -> parseInt (c :: t) = Some (digits 0 (c :: t)).
Proof.
  intros D. apply digit_cases in D.
  unfold parseInt. cbn [trimStart].
  repeat (destruct D as [-> | D];
          [cbv beta iota delta [isWhiteSpace is_digit N.leb N.eqb N.compare
                                  Pos.compare Pos.compare_cont Pos.eqb
                                  andb orb];
           f_equal; lia|]).
  subst c.
  cbv beta iota delta [isWhiteSpace is_digit N.leb N.eqb N.compare
                         Pos.compare Pos.compare_cont Pos.eqb andb orb].
  f_equal; lia.
Qed.

Lemma parseInt_count (n : nat) (rest : jsstring) :
  match rest with [] => True | c :: _ => is_digit c = false end ->
  parseInt (Number_toString n ++ rest) = Some (Z.of_nat n) /\
  parseInt (45%N :: Number_toString n ++ rest) = Some (- Z.of_nat n)%Z.
Proof.
  intros R. destruct (Number_toString_head n) as (c & t & E & D & F).
  assert (V : digits 0 (Number_toString n ++ rest) = Z.of_nat n).
  { assert (V0 : digits 0 (Number_toString n) = Z.of_nat n).
    { unfold Number_toString.
      pose proof (digits_units (Nat.to_uint n) 0) as U.
      change (Z.of_nat 0) with 0%Z in U. rewrite U.
      change (Nat.of_uint_acc (Nat.to_uint n) 0)
        with (Nat.of_uint (Nat.to_uint n)).
      rewrite DecimalNat.Unsigned.of_to. reflexivity. }
    destruct rest as [|x rest]; [rewrite app_nil_r; exact V0|].
    rewrite digits_stop; [exact V0 | | exact R].
    rewrite E. constructor; assumption. }
  rewrite E in *. cbn [app] in *. split.
  - rewrite (parseInt_digits c _ D). rewrite V. reflexivity.
  - unfold parseInt.
    change (trimStart (45%N :: c :: t ++ rest)) with (45%N :: c :: t ++ rest).
    cbv beta iota. rewrite D, V. first [reflexivity | f_equal; lia].
Qed.

(** X14: parseInt reads back the decimal text of a count up to 2^53,
    also when a text that does not start with a digit follows it, and
    reads a minus sign before it.  Neither limit of getConfig is ever 0:
    the maximum of input tokens is the count that the variable spells, or
    4000 when the variable spells 0, is empty or is not set; a variable
    that spells a negative number gives a negative maximum. *)
Theorem X14_configured_limits :
  (forall n rest,
      (Z.of_nat n <= 2 ^ 53)%Z ->
      match rest with [] => True | c :: _ => is_digit c = false end ->
      parseInt (Number_toString n ++ rest) = Some (Z.of_nat n) /\
      parseInt (45%N :: Number_toString n ++ rest) = Some (- Z.of_nat n)%Z) /\
  (forall env,
      maxInputTokens (getConfig env) <> 0%Z /\
      maxOutputTokens (getConfig env) <> 0%Z) /\
  (forall env n,
      (Z.of_nat n <= 2 ^ 53)%Z ->
      env OPENAI_MAX_INPUT_TOKENS = Some (Number_toString n) ->
      maxInputTokens (getConfig env)
      = if (n =? 0)%nat then 4000%Z else Z.of_nat n) /\
  (forall env n,
      (Z.of_nat (S n) <= 2 ^ 53)%Z ->
      env OPENAI_MAX_INPUT_TOKENS = Some (45%N :: Number_toString (S n)) ->
      maxInputTokens (getConfig env) = (- Z.of_nat (S n))%Z) /\
  (forall env,
      is_set (env OPENAI_MAX_INPUT_TOKENS) = false ->
      maxInputTokens (getConfig env) = 4000%Z).
Proof.
  split; [intros n rest _; apply parseInt_count|]. split; [|split; [|split]].
  - intros env. unfold getConfig. cbn [maxInputTokens maxOutputTokens].
    split; unfold orDefault;
      match goal with
      | |- context [parseInt ?s] => destruct (parseInt s) as [[|p|p]|]
      end; discriminate.
  - intros env n _ E. unfold getConfig. cbn [maxInputTokens]. rewrite E.
    cbn [toStr].
    destruct (parseInt_count n [] I) as [P _]. rewrite app_nil_r in P.
    rewrite P. unfold orDefault. destruct n; reflexivity.
  - intros env n _ E. unfold getConfig. cbn [maxInputTokens]. rewrite E.
    cbn [toStr].
    destruct (parseInt_count (S n) [] I) as [_ P]. rewrite app_nil_r in P.
    rewrite P. reflexivity.
  - intros env E. unfold getConfig. cbn [maxInputTokens].
    destruct (env OPENAI_MAX_INPUT_TOKENS) as [[|c s]|]; try discriminate;
      vm_compute; reflexivity.
Qed.

(** X15: validateEnvironment returns exactly when each of the four
    required variables is set to a text that is not empty; the API key
    and the model of getConfig are then texts that are not empty.  When
    it throws, the message names the required variables that are missing,
    and only those. *)
Theorem X15_validated_environment (env : Env) :
  (validateEnvironment env = None <->
   forall key, In key REQUIRED_ENV_VARS -> is_set (env key) = true) /\
  (validateEnvironment env = None ->
   exists k ks m ms,
     apiKey (getConfig env) = Some (k :: ks) /\
     model (getConfig env) = Some (m :: ms)) /\
  (forall message,
      validateEnvironment env = Some message ->
      exists missing,
        missing <> [] /\
        message = lit "Missing required environment variables: "
                  ++ join (lit ", ") missing /\
        forall key,
          In key missing <->
          In key REQUIRED_ENV_VARS /\ is_set (env key) = false).
Proof.
  assert (A : validateEnvironment env = None <->
              forall key, In key REQUIRED_ENV_VARS -> is_set (env key) = true).
  { unfold validateEnvironment.
    set (missing := filter _ REQUIRED_ENV_VARS).
    assert (M : forall key, In key missing <->
                            In key REQUIRED_ENV_VARS /\ is_set (env key) = false).
    { intros key. unfold missing. rewrite filter_In, negb_true_iff. tauto. }
    destruct missing as [|k ks].
    - split; [|reflexivity]. intros _ key Hk.
      destruct (is_set (env key)) eqn:S; [reflexivity|].
      destruct (proj2 (M key) (conj Hk S)).
    - split; [discriminate|]. intros H.
      destruct (proj1 (M k) (or_introl eq_refl)) as [Hk S].
      rewrite (H k Hk) in S. discriminate. }
  split; [exact A|]. split.
  - intros V. rewrite A in V. unfold getConfig. cbn [apiKey model].
    pose proof (V OPENAI_API_KEY (or_introl eq_refl)) as K.
    pose proof (V OPENAI_MODEL (or_intror (or_introl eq_refl))) as Mo.
    destruct (env OPENAI_API_KEY) as [[|k ks]|]; try discriminate.
    destruct (env OPENAI_MODEL) as [[|m ms]|]; try discriminate.
    exists k, ks, m, ms. split; reflexivity.
  - intros message. unfold validateEnvironment.
    set (missing := filter _ REQUIRED_ENV_VARS).
    assert (M : forall key, In key missing <->
                            In key REQUIRED_ENV_VARS /\ is_set (env key) = false).
    { intros key. unfold missing. rewrite filter_In, negb_true_iff. tauto. }
    destruct missing as [|k ks]; [discriminate|].
    intros H. injection H as <-. exists (k :: ks).
    split; [discriminate|]. split; [reflexivity | exact M].
Qed.

Lemma X14_configured_limits_witness :
  maxInputTokens (getConfig PipelineDefs.example_env) = 4000%Z.
Proof.
  refine (proj1 (proj2 (proj2 X14_configured_limits))
            PipelineDefs.example_env 4000 _ _).
  - vm_compute. discriminate.
  - reflexivity.
Defined.

End ConfigFacts.

(** ** How tight the budget check is *)

Module BudgetFacts.
Import Planner PlannerDefs NumFacts.
#[local] Open Scope Z_scope.

Lemma shr_1_sticky (r : shr_record) :
  shr_s (shr_1 r) = shr_r r || shr_s r.
Proof. destruct r as [[|[p|p|]|[p|p|]] r s]; reflexivity. Qed.

(** What is shifted out: below half a unit when the round bit is clear,
    and exactly the round bit when the sticky bit is clear. *)
Lemma shr_iter_low (m : Z) (n : nat) :
  0 <= m ->
  let r := Nat.iter n shr_1 {| shr_m := m; shr_r := false; shr_s := false |} in
  let rem := m - m / 2 ^ Z.of_nat n * 2 ^ Z.of_nat n in
  0 <= rem < 2 ^ Z.of_nat n /\
  (shr_r r = false -> 2 * rem < 2 ^ Z.of_nat n) /\
  (shr_s r = false -> 2 * rem = if shr_r r then 2 ^ Z.of_nat n else 0).
Proof.
  intros Hm. cbv zeta.
  assert (Rem : forall k, 0 <= m - m / 2 ^ Z.of_nat k * 2 ^ Z.of_nat k
                          < 2 ^ Z.of_nat k).
  { intros k. assert (0 < 2 ^ Z.of_nat k) by (apply Z.pow_pos_nonneg; lia).
    pose proof (Z.mod_pos_bound m (2 ^ Z.of_nat k) H).
    rewrite Z.mod_eq in H0 by lia. lia. }
  induction n as [|n (_ & IHr & IHs)].
  - split; [apply Rem|]. change (Z.of_nat 0) with 0.
    rewrite Z.pow_0_r, Z.div_1_r. unfold Nat.iter. cbn [nat_rect shr_r shr_s].
    split; intros _; lia.
  - split; [apply Rem|].
    destruct (shr_iter m n Hm) as [Q _]. cbv zeta in Q.
    rewrite Nat.iter_succ.
    set (r := Nat.iter n shr_1 _) in *.
    assert (P : 0 < 2 ^ Z.of_nat n) by (apply Z.pow_pos_nonneg; lia).
    assert (Hr : 0 <= shr_m r) by (rewrite Q; apply Z.div_pos; lia).
    destruct (shr_1_spec r Hr) as [_ E2]. rewrite E2, shr_1_sticky, Q.
    rewrite Nat2Z.inj_succ, Z.pow_succ_r by lia.
    set (P2 := 2 ^ Z.of_nat n) in *.
    set (q := m / P2) in *.
    assert (Hq : m / (2 * P2) = q / 2).
    { unfold q. rewrite Z.mul_comm, <- Z.div_div by lia. reflexivity. }
    rewrite Hq.
    assert (Hodd : q = 2 * (q / 2) + (if Z.odd q then 1 else 0)).
    { rewrite (Z.div_mod q 2) at 1 by lia.
      rewrite <- Z.bit0_mod, Z.bit0_odd. destruct (Z.odd q); reflexivity. }
    specialize (Rem n). fold P2 q in Rem.
    split.
    + intros Ho. rewrite Ho in Hodd. nia.
    + intros Hs. apply orb_false_iff in Hs. destruct Hs as [Hr0 Hs0].
      specialize (IHs Hs0). rewrite Hr0 in IHs. fold P2 q in IHs.
      destruct (Z.odd q); nia.
Qed.

Lemma round_nearest_even_down (r : shr_record) :
  round_nearest_even (shr_m r) (loc_of_shr_record r) = shr_m r + 1 \/
  (round_nearest_even (shr_m r) (loc_of_shr_record r) = shr_m r /\
   (shr_r r = false \/ shr_s r = false)).
Proof.
  destruct r as [m [|] [|]];
    cbn [shr_m shr_r shr_s loc_of_shr_record round_nearest_even];
    try (left; reflexivity); try (right; split; [reflexivity | tauto]).
  destruct (Z.even m); [right; split; [reflexivity | tauto] | left; reflexivity].
Qed.

(** Rounding to nearest takes at most one part in 2^53 off a product. *)
Lemma round_aux_lower (mx : positive) (ex : Z) :
  -1021 <= Z.pos (digits2_pos mx) + ex ->
  Z.pos (digits2_pos mx) + ex <= 1023 -> ex <= 0 ->
  exists m2 k,
    binary_round_aux 53 1024 false (Z.pos mx) ex loc_Exact
    = S754_finite false m2 (ex + k) /\
    0 <= k /\
    Z.pos mx * (2 ^ 53 - 1) <= Z.pos m2 * 2 ^ k * 2 ^ 53.
Proof.
  intros Hlo Hhi Hex.
  set (d := Z.pos (digits2_pos mx)) in *.
  destruct (Z_le_gt_dec d 53) as [Hd | Hd].
  - exists mx, 0. rewrite round_aux_exact by (fold d; lia).
    rewrite Z.add_0_r. split; [reflexivity|]. split; [lia|].
    rewrite Z.pow_0_r. lia.
  - destruct (d - 53) as [|pp|pp] eqn:Ep; try lia.
    assert (S1 : shr_fexp 53 1024 (Z.pos mx) ex loc_Exact
                 = (Nat.iter (Pos.to_nat pp) shr_1
                      {| shr_m := Z.pos mx; shr_r := false; shr_s := false |},
                    ex + Z.pos pp)).
    { unfold shr_fexp, shr. cbn [Zdigits2 shr_record_of_loc]. fold d.
      rewrite fexp_normal by lia.
      replace (d + ex - 53 - ex) with (Z.pos pp) by lia.
      rewrite iter_pos_nat. reflexivity. }
    destruct (shr_iter (Z.pos mx) (Pos.to_nat pp)) as [Q _]; [lia|].
    destruct (shr_iter_low (Z.pos mx) (Pos.to_nat pp)) as (Rm & Lr & Ls); [lia|].
    rewrite positive_nat_Z in Q, Rm, Lr, Ls.
    set (rec := Nat.iter (Pos.to_nat pp) shr_1 _) in *.
    destruct (digits2_bounds mx) as [L U]. fold d in L, U.
    set (P := 2 ^ Z.pos pp) in *.
    assert (HP : 0 < P) by (apply Z.pow_pos_nonneg; lia).
    assert (Hd1 : 2 ^ (d - 1) = 2 ^ 52 * P).
    { unfold P. rewrite <- Z.pow_add_r by lia. f_equal. lia. }
    assert (Hd2 : 2 ^ d = 2 ^ 53 * P).
    { unfold P. rewrite <- Z.pow_add_r by lia. f_equal. lia. }
    set (q := Z.pos mx / P) in *.
    assert (Hq1 : 2 ^ 52 <= q).
    { apply Z.div_le_lower_bound; lia. }
    assert (Hq2 : q < 2 ^ 53).
    { apply Z.div_lt_upper_bound; lia. }
    set (m1 := round_nearest_even (shr_m rec) (loc_of_shr_record rec)).
    assert (Hm1 : 2 ^ 52 <= m1 <= 2 ^ 53 /\
                  Z.pos mx * (2 ^ 53 - 1) <= m1 * P * 2 ^ 53).
    { destruct (round_nearest_even_down rec) as [E | [E Hdown]];
        fold m1 in E; rewrite Q in E; rewrite E.
      - split; [lia|]. clearbody P. nia.
      - split; [lia|].
        assert (Half : 2 * (Z.pos mx - q * P) <= P).
        { destruct Hdown as [Hr | Hs].
          - specialize (Lr Hr). lia.
          - specialize (Ls Hs). destruct (shr_r rec); lia. }
        clearbody P. nia. }
    destruct Hm1 as [[Hm1a Hm1b] Hm1c].
    destruct m1 as [|pm1|pm1] eqn:Em1; try lia.
    set (D := Z.pos (digits2_pos pm1)).
    assert (HD1 : 52 < D) by (apply digits2_gt; lia).
    assert (HD2 : D <= 54).
    { apply digits2_le; [lia|]. change (2 ^ 54) with (2 * 2 ^ 53). lia. }
    unfold binary_round_aux. rewrite S1. fold m1. rewrite Em1.
    unfold shr_fexp, shr. cbn [Zdigits2 shr_record_of_loc]. fold D.
    rewrite fexp_normal by lia.
    destruct (D + (ex + Z.pos pp) - 53 - (ex + Z.pos pp)) as [|n2|n2] eqn:En; try lia.
    + cbn [shr_m].
      replace (ex + Z.pos pp <=? 1024 - 53) with true
        by (symmetry; apply Z.leb_le; lia).
      exists pm1, (Z.pos pp). split; [reflexivity|]. split; [lia|].
      fold P. exact Hm1c.
    + assert (n2 = 1%positive) by lia. subst n2. cbn [iter_pos].
      destruct (shr_1_spec {| shr_m := Z.pos pm1; shr_r := false; shr_s := false |})
        as [E1 _]; [cbn; lia|].
      cbn [shr_m] in E1. rewrite E1.
      assert (H53 : Z.pos pm1 = 2 ^ 53).
      { assert (2 ^ 53 <= Z.pos pm1); [|lia].
        destruct (digits2_bounds pm1) as [Lb _]. fold D in Lb.
        replace D with 54 in Lb by lia. exact Lb. }
      assert (Hh : Z.pos pm1 / 2 = 2 ^ 52).
      { rewrite H53. reflexivity. }
      rewrite Hh. change (2 ^ 52) with (Z.pos 4503599627370496).
      cbv iota.
      replace (ex + Z.pos pp + 1 <=? 1024 - 53) with true
        by (symmetry; apply Z.leb_le; lia).
      exists 4503599627370496%positive, (Z.pos pp + 1).
      split; [f_equal; lia|]. split; [lia|].
      rewrite Z.pow_add_r by lia. fold P. rewrite Z.pow_1_r.
      rewrite H53 in Hm1c. clearbody P. lia.
Qed.

(** An integer that the budget check refuses is at least 70 percent of
    the configured maximum. *)
Lemma tokenLimit_tight (M n : Z) :
  0 <= M < 2 ^ 49 ->
  Num.gt_Z n (tokenLimit M) = true ->
  7 * M <= 10 * n.
Proof.
  intros [H0 H1] G.
  destruct (Z.eq_dec M 0) as [-> | Hne].
  - cbn in G. apply Z.ltb_lt in G. lia.
  - destruct (of_Z_exact M) as (m & k & E & Hk & Hm & Hm53).
    { split; [lia|]. eapply Z.lt_trans; [exact H1|]. reflexivity. }
    unfold tokenLimit, Num.mul, Num.LIT_0_7, SFmul, Num.prec, Num.emax in G.
    rewrite E in G. cbn [xorb] in G.
    set (c := 6305039478318694%positive) in *.
    assert (Hc : Z.pos c = 6305039478318694) by reflexivity.
    assert (Hmc : Z.pos (m * c) < 2 ^ 106).
    { rewrite Pos2Z.inj_mul. change (2 ^ 106) with (2 ^ 53 * 2 ^ 53).
      apply Z.mul_lt_mono_nonneg; lia. }
    assert (Hdig : Z.pos (digits2_pos (m * c)) <= 106) by (apply digits2_le; lia).
    destruct (round_aux_lower (m * c) (- k + -53)) as (m2 & k2 & R & Hk2 & B);
      try lia.
    rewrite R in G. unfold Num.gt_Z in G.
    set (P := 2 ^ k) in *.
    assert (HP : 0 < P) by (apply Z.pow_pos_nonneg; lia).
    assert (Key : Z.pos m2 * 2 ^ k2 < n * (P * 2 ^ 53)).
    { destruct (0 <=? - k + -53 + k2) eqn:S; [apply Z.leb_le in S | apply Z.leb_gt in S].
      - apply Z.ltb_lt in G.
        replace (2 ^ k2) with (2 ^ (- k + -53 + k2) * (P * 2 ^ 53)).
        + assert (0 < P * 2 ^ 53) by lia.
          set (T := 2 ^ (- k + -53 + k2)) in *. clearbody T. nia.
        + unfold P. rewrite <- !Z.pow_add_r by lia. f_equal. lia.
      - apply Z.ltb_lt in G.
        replace (P * 2 ^ 53) with (2 ^ (- (- k + -53 + k2)) * 2 ^ k2).
        + assert (0 < 2 ^ k2) by (apply Z.pow_pos_nonneg; lia).
          set (T := 2 ^ k2) in *. set (V := 2 ^ (- (- k + -53 + k2))) in *.
          clearbody T V. nia.
        + unfold P. rewrite <- !Z.pow_add_r by lia. f_equal. lia. }
    rewrite Pos2Z.inj_mul, Hm, Hc in B. fold P in B.
    assert (Fin : M * 6305039478318694 * (2 ^ 53 - 1) < n * 2 ^ 53 * 2 ^ 53).
    { apply Z.mul_lt_mono_pos_l with (p := P); [exact HP|].
      set (T := Z.pos m2 * 2 ^ k2) in *. clearbody T P. nia. }
    clear - Fin H0 H1. lia.
Qed.

Section Budget.

Variable toLowerCase : jsstring -> jsstring.
Variables MAIN_FILE_PROMPT REGULAR_FILE_PROMPT : jsstring.
Variable getBlob : jsstring -> option jsstring.
Variable maxInputTokens : Z.

#[local] Abbreviation body :=
  (loop_body toLowerCase MAIN_FILE_PROMPT REGULAR_FILE_PROMPT getBlob
     maxInputTokens).
#[local] Abbreviation estimate :=
  (estimatedTokens toLowerCase MAIN_FILE_PROMPT REGULAR_FILE_PROMPT).

(** X16. The threshold maxInputTokens * 0.7 is a product of doubles, and
    for a maximum below 2^49 it separates the integers as the exact
    product does: a total above 70 percent of the maximum is over the
    threshold, a total below is not. So the loop ends before its
    fifteenth file only at a fetched file whose estimate brings the total
    to 70 percent of the maximum or more, and such a file above 70
    percent always ends it. At exactly 70 percent the rounding decides:
    7 passes a maximum of 10, and 63 does not pass a maximum of 90. *)
Theorem X16_budget_threshold :
  (0 <= maxInputTokens < 2 ^ 49) ->
  (forall n,
      (7 * maxInputTokens < 10 * n ->
       Num.gt_Z n (tokenLimit maxInputTokens) = true) /\
      (10 * n < 7 * maxInputTokens ->
       Num.gt_Z n (tokenLimit maxInputTokens) = false)) /\
  (forall f selected total,
      (length selected < MAX_FILES_TO_REVIEW)%nat ->
      body f selected total = Break ->
      exists raw,
        getBlob (sha f) = Some raw /\
        7 * maxInputTokens
        <= 10 * (total + estimate (path f) (normalizeContent raw))) /\
  (forall f selected total raw,
      getBlob (sha f) = Some raw ->
      7 * maxInputTokens
      < 10 * (total + estimate (path f) (normalizeContent raw)) ->
      body f selected total = Break) /\
  Num.gt_Z 7 (tokenLimit 10) = false /\
  Num.gt_Z 63 (tokenLimit 90) = true.
Proof.
  intros HM.
  assert (HM' : 0 <= maxInputTokens < 2 ^ 51).
  { split; [lia|]. eapply Z.lt_trans; [apply HM|]. reflexivity. }
  assert (Above : forall n, 7 * maxInputTokens < 10 * n ->
                            Num.gt_Z n (tokenLimit maxInputTokens) = true).
  { intros n Hn.
    destruct (Num.gt_Z n (tokenLimit maxInputTokens)) eqn:G; [reflexivity|].
    pose proof (tokenLimit_bound maxInputTokens n HM' G). lia. }
  split; [|split; [|split; [|split]]].
  - intros n. split; [apply Above|]. intros Hn.
    destruct (Num.gt_Z n (tokenLimit maxInputTokens)) eqn:G; [|reflexivity].
    pose proof (tokenLimit_tight maxInputTokens n HM G). lia.
  - intros f selected total Hlen B. unfold loop_body in B.
    destruct (MAX_FILES_TO_REVIEW <=? length selected)%nat eqn:Cap.
    { apply Nat.leb_le in Cap. lia. }
    destruct (getBlob (sha f)) as [raw|]; [|discriminate].
    exists raw. split; [reflexivity|].
    destruct (Num.gt_Z _ _) eqn:G; [|discriminate].
    apply tokenLimit_tight; assumption.
  - intros f selected total raw Hraw Hn. unfold loop_body.
    destruct (MAX_FILES_TO_REVIEW <=? length selected)%nat; [reflexivity|].
    rewrite Hraw, (Above _ Hn). reflexivity.
  - vm_compute. reflexivity.
  - vm_compute. reflexivity.
Qed.

End Budget.

Lemma X16_budget_threshold_witness :
  (0 <= 30 < 2 ^ 49) /\
  Num.gt_Z 22 (tokenLimit 30) = true /\
  Num.gt_Z 20 (tokenLimit 30) = false.
Proof.
  split; [lia|].
  assert (H : 0 <= 30 < 2 ^ 49) by lia.
  pose proof (proj1 (X16_budget_threshold asciiLower (lit "0123456789")
                       (lit "01234") example_getBlob 30 H)) as T.
  split; [apply (proj1 (T 22)) | apply (proj2 (T 20))]; lia.
Defined.

End BudgetFacts.
